(** * Tesla-Wrap-Studio: the editor core, embedded and verified

  The development follows the TypeScript sources:
  - [EditorCanvas] (drag / transform handlers, render order, template
    masks),
  - [LineEndpointHandles] (endpoint editing of line layers),
  - [utils/publish] ([exportPngAsDataUrl], [projectToBlob],
    [publishDesign]).

  JavaScript numbers are IEEE-754 binary64 values, so they are embedded
  as Rocq's primitive floats; objects with optional properties become
  records with [option] fields; the store's layer array is a list. *)

From Stdlib Require Import Floats ZArith List Ascii String Bool Lia.
From stdpp Require Import base option list gmap strings.

Local Open Scope string_scope.
Local Open Scope list_scope.

(* ===================================================================== *)
(** * JavaScript numbers *)
(* ===================================================================== *)

Module JsNum.

Abbreviation num := PrimFloat.float.

Definition nan : num := PrimFloat.nan.

(** ToBoolean on a number: [0], [-0] and [NaN] are falsy. *)
Definition truthy (v : num) : bool :=
  negb (PrimFloat.is_zero v || PrimFloat.is_nan v).

(** [v || d] where [v] is a number. *)
Definition or_num (v d : num) : num := if truthy v then v else d.

(** [v || d] where [v] is [number | undefined]. *)
Definition or_opt (v : option num) (d : num) : num :=
  match v with
  | Some n => or_num n d
  | None => d
  end.

Definition mul : num -> num -> num := PrimFloat.mul.
Definition div : num -> num -> num := PrimFloat.div.
Definition sub : num -> num -> num := PrimFloat.sub.
Definition add : num -> num -> num := PrimFloat.add.

(** [Math.abs]. *)
Definition abs : num -> num := PrimFloat.abs.

End JsNum.

Declare Scope js_scope.
Delimit Scope js_scope with js.
Infix "*" := JsNum.mul : js_scope.
Infix "/" := JsNum.div : js_scope.
Infix "-" := JsNum.sub : js_scope.
Infix "+" := JsNum.add : js_scope.
Notation "v '|||' d" := (JsNum.or_num v d) (at level 50, left associativity) : js_scope.

(** ToBoolean on [string | undefined]: the empty string and [undefined]
  are falsy. *)
Definition truthy_str (v : option string) : bool :=
  match v with
  | Some s => negb (String.eqb s "")
  | None => false
  end.

(* ===================================================================== *)
(** * The layer model (editorTypes / useEditorStore) *)
(* ===================================================================== *)

Module Model.

(** The kind tag of a layer ([layer.type]). *)
Inductive LayerType : Set :=
  | text | image | texture | brush | line | star | rect | circle | fill.

#[export] Instance LayerType_eq_dec : EqDecision LayerType.
Proof. solve_decision. Defined.

(** Values of the properties that no code under verification reads. *)
Inductive JsVal : Type :=
  | VStr (s : string)
  | VNum (n : JsNum.num)
  | VBool (b : bool).

(** A layer object.  The common properties are always present; the
    kind-specific ones are optional properties of the JavaScript object.
    [other] holds every remaining property (font attributes, stroke
    colours, arrow flags, ...). *)
Record Layer : Type := mkLayer {
  id : string;
  type : LayerType;
  name : string;
  visible : bool;
  locked : bool;
  opacity : JsNum.num;
  x : JsNum.num;
  y : JsNum.num;
  rotation : JsNum.num;
  scaleX : JsNum.num;
  scaleY : JsNum.num;
  width : option JsNum.num;
  height : option JsNum.num;
  radius : option JsNum.num;
  numPoints : option JsNum.num;
  innerRadius : option JsNum.num;
  outerRadius : option JsNum.num;
  points : option (list (option JsNum.num));
  src : option string;
  fillImageDataUrl : option string;
  other : gmap string JsVal
}.

(** [Partial<Layer>]: the argument of [updateLayer]. *)
Record Patch : Type := mkPatch {
  p_id : option string;
  p_type : option LayerType;
  p_name : option string;
  p_visible : option bool;
  p_locked : option bool;
  p_opacity : option JsNum.num;
  p_x : option JsNum.num;
  p_y : option JsNum.num;
  p_rotation : option JsNum.num;
  p_scaleX : option JsNum.num;
  p_scaleY : option JsNum.num;
  p_width : option JsNum.num;
  p_height : option JsNum.num;
  p_radius : option JsNum.num;
  p_numPoints : option JsNum.num;
  p_innerRadius : option JsNum.num;
  p_outerRadius : option JsNum.num;
  p_points : option (list (option JsNum.num));
  p_src : option string;
  p_fillImageDataUrl : option string;
  p_other : gmap string JsVal
}.

(** The object literal [{}]. *)
Definition emptyPatch : Patch :=
  mkPatch None None None None None None None None None None None
          None None None None None None None None None ∅.

(** An optional property of the patch overrides the layer's. *)
Definition over {A} (new : option A) (old : option A) : option A :=
  match new with
  | Some v => Some v
  | None => old
  end.

(** [{ ...layer, ...updates }]. *)
Definition spread (l : Layer) (u : Patch) : Layer :=
  {| id := default (id l) (p_id u);
     type := default (type l) (p_type u);
     name := default (name l) (p_name u);
     visible := default (visible l) (p_visible u);
     locked := default (locked l) (p_locked u);
     opacity := default (opacity l) (p_opacity u);
     x := default (x l) (p_x u);
     y := default (y l) (p_y u);
     rotation := default (rotation l) (p_rotation u);
     scaleX := default (scaleX l) (p_scaleX u);
     scaleY := default (scaleY l) (p_scaleY u);
     width := over (p_width u) (width l);
     height := over (p_height u) (height l);
     radius := over (p_radius u) (radius l);
     numPoints := over (p_numPoints u) (numPoints l);
     innerRadius := over (p_innerRadius u) (innerRadius l);
     outerRadius := over (p_outerRadius u) (outerRadius l);
     points := over (p_points u) (points l);
     src := over (p_src u) (src l);
     fillImageDataUrl := over (p_fillImageDataUrl u) (fillImageDataUrl l);
     other := p_other u ∪ other l |}.

(** [layers.find(l => l.id === layerId)]. *)
Definition findLayer (layerId : string) (layers : list Layer) : option Layer :=
  List.find (fun l => String.eqb (id l) layerId) layers.

(** Modelled from the spec: the store operation [updateLayer] of
    useEditorStore, which is not among the sources.  The spec funnels all
    layer mutation through the named update operation, which changes the
    addressed layer in place: the given properties are written into the
    layer carrying the identifier, every other property and every other
    layer stay as they are, and the order of the sequence is kept. *)
Definition updateLayer (layerId : string) (updates : Patch)
                       (layers : list Layer) : list Layer :=
  List.map (fun l => if String.eqb (id l) layerId then spread l updates else l)
           layers.

(** Modelled from the spec: the store operation [addLayer] of
    useEditorStore, which is not among the sources.  A new layer is
    inserted at the head of the ordered sequence. *)
Definition addLayer (l : Layer) (layers : list Layer) : list Layer :=
  l :: layers.

(** The stored sequence with every layer carrying [i] replaced by its
    image under [f]; order and all other layers are kept. *)
Definition at_id (i : string) (f : Layer -> Layer) (ls : list Layer) : list Layer :=
  List.map (fun l => if String.eqb (id l) i then f l else l) ls.

End Model.

(* ===================================================================== *)
(** * EditorCanvas: gesture handlers *)
(* ===================================================================== *)

Module Canvas.
Import Model.

(** The part of the Konva node [e.target] the handlers touch.
    [node_onStage] tells whether [node.getStage()] is non-null. *)
Record Node : Type := mkNode {
  node_x : JsNum.num;
  node_y : JsNum.num;
  node_rotation : JsNum.num;
  node_scaleX : JsNum.num;
  node_scaleY : JsNum.num;
  node_opacity : JsNum.num;
  node_onStage : bool
}.

Definition set_node_opacity (v : JsNum.num) (n : Node) : Node :=
  mkNode (node_x n) (node_y n) (node_rotation n) (node_scaleX n)
         (node_scaleY n) v (node_onStage n).

(** The value held by [transformStartDataRef.current]. *)
Record StartData : Type := mkStartData {
  layerId : string;
  sd_width : option JsNum.num;
  sd_height : option JsNum.num;
  sd_scaleX : JsNum.num;
  sd_scaleY : JsNum.num
}.

(** What the component closes over: the store's [layers] and
    [activeTool], the gesture-local ref and the cursor style of the
    stage container. *)
Record State : Type := mkState {
  layers : list Layer;
  activeTool : string;
  transformStartDataRef : option StartData;
  cursor : string
}.

Definition set_layers (ls : list Layer) (st : State) : State :=
  mkState ls (activeTool st) (transformStartDataRef st) (cursor st).

Definition set_ref (r : option StartData) (st : State) : State :=
  mkState (layers st) (activeTool st) r (cursor st).

(** [if (stage) stage.container().style.cursor = c]. *)
Definition set_cursor (n : Node) (c : string) (st : State) : State :=
  if node_onStage n
  then mkState (layers st) (activeTool st) (transformStartDataRef st) c
  else st.

Definition num_0_8 : JsNum.num := 0x1.999999999999ap-1%float.
Definition num_0 : JsNum.num := 0%float.
Definition num_1 : JsNum.num := 1%float.

Definition handleDragStart (n : Node) (st : State) : Node * State :=
  (set_node_opacity num_0_8 n, set_cursor n "grabbing" st).

(** [updateLayer(layerId, { x: node.x(), y: node.y() })]. *)
Definition dragPatch (n : Node) : Patch :=
  mkPatch None None None None None None
          (Some (node_x n)) (Some (node_y n))
          None None None None None None None None None None None None ∅.

Definition handleDragEnd (n : Node) (layerId : string) (st : State)
  : Node * State :=
  let n' := set_node_opacity
              (JsNum.or_opt (opacity <$> findLayer layerId (layers st)) num_1) n in
  let st' := set_cursor n "default" st in
  (n', set_layers (updateLayer layerId (dragPatch n) (layers st')) st').

Definition handleTransformStart (n : Node) (layerId : string) (st : State)
  : Node * State :=
  let st' := set_cursor n "move" st in
  match findLayer layerId (layers st') with
  | Some layer =>
      (n, set_ref (Some (mkStartData layerId (width layer) (height layer)
                                     (JsNum.or_num (scaleX layer) num_1)
                                     (JsNum.or_num (scaleY layer) num_1))) st')
  | None => (n, st')
  end.

(** The update of the rectangle branch. *)
Definition rectPatch (n : Node) (startData : StartData) : Patch :=
  let originalWidth := JsNum.or_opt (sd_width startData) num_0 in
  let originalHeight := JsNum.or_opt (sd_height startData) num_0 in
  let originalScaleX := sd_scaleX startData in
  let originalScaleY := sd_scaleY startData in
  let newWidth := JsNum.abs (originalWidth * (node_scaleX n / originalScaleX))%js in
  let newHeight := JsNum.abs (originalHeight * (node_scaleY n / originalScaleY))%js in
  mkPatch None None None None None None
          (Some (node_x n)) (Some (node_y n)) (Some (node_rotation n))
          (Some num_1) (Some num_1)
          (Some newWidth) (Some newHeight)
          None None None None None None None ∅.

(** The update of every other branch. *)
Definition scalePatch (n : Node) : Patch :=
  mkPatch None None None None None None
          (Some (node_x n)) (Some (node_y n)) (Some (node_rotation n))
          (Some (node_scaleX n)) (Some (node_scaleY n))
          None None None None None None None None None ∅.

Definition handleTransformEnd (n : Node) (layerId : string) (st : State)
  : Node * State :=
  let st' := set_cursor n "default" st in
  match findLayer layerId (layers st') with
  | None => (n, set_ref None st')
  | Some layer =>
      let updates :=
        match type layer, transformStartDataRef st' with
        | rect, Some startData => rectPatch n startData
        | _, _ => scalePatch n
        end in
      (n, set_ref None (set_layers (updateLayer layerId updates (layers st')) st'))
  end.

(** ** Layers after a gesture, spelled out field by field *)

(** [l] with a new position and every other property as it was. *)
Definition moved (nx ny : JsNum.num) (l : Layer) : Layer :=
  mkLayer (id l) (type l) (name l) (visible l) (locked l) (opacity l)
          nx ny (rotation l) (scaleX l) (scaleY l)
          (width l) (height l) (radius l) (numPoints l)
          (innerRadius l) (outerRadius l) (points l)
          (src l) (fillImageDataUrl l) (other l).

(** [l] with a new position, rotation and scale and every other
    property, the intrinsic size included, as it was. *)
Definition transformed (nx ny nrot nsx nsy : JsNum.num) (l : Layer) : Layer :=
  mkLayer (id l) (type l) (name l) (visible l) (locked l) (opacity l)
          nx ny nrot nsx nsy
          (width l) (height l) (radius l) (numPoints l)
          (innerRadius l) (outerRadius l) (points l)
          (src l) (fillImageDataUrl l) (other l).

(** [l] with a new position and rotation, new absolute dimensions and
    the scale reset to 1. *)
Definition resized (nx ny nrot w h : JsNum.num) (l : Layer) : Layer :=
  mkLayer (id l) (type l) (name l) (visible l) (locked l) (opacity l)
          nx ny nrot num_1 num_1
          (Some w) (Some h) (radius l) (numPoints l)
          (innerRadius l) (outerRadius l) (points l)
          (src l) (fillImageDataUrl l) (other l).

(** The gesture props every layer component receives ([commonProps]):
    brush layers get no drag or transform handler. *)
Definition Handler : Type := Node -> State -> Node * State.

Record CommonProps : Type := mkCommonProps {
  cp_id : string;
  onDragStart : option Handler;
  onDragEnd : option Handler;
  onTransformStart : option Handler;
  onTransformEnd : option Handler;
  draggable : bool;
  cp_listening : option bool
}.

Definition commonProps (st : State) (layer : Layer) : CommonProps :=
  let isBrushLayer := bool_decide (type layer = brush) in
  let isFillLayer := bool_decide (type layer = fill) in
  let isFillToolActive := String.eqb (activeTool st) "fill" in
  {| cp_id := id layer;
     onDragStart := if isBrushLayer then None else Some handleDragStart;
     onDragEnd :=
       if isBrushLayer then None
       else Some (fun n => handleDragEnd n (id layer));
     onTransformStart :=
       if isBrushLayer then None
       else Some (fun n => handleTransformStart n (id layer));
     onTransformEnd :=
       if isBrushLayer then None
       else Some (fun n => handleTransformEnd n (id layer));
     draggable := negb (locked layer) && negb isBrushLayer && negb isFillToolActive;
     cp_listening := if isFillToolActive && isFillLayer then Some false else None |}.

(** Konva fires an event on the node of a layer: the handler found in
    the layer's props runs; without one nothing happens. *)
Definition fire (h : option Handler) (n : Node) (st : State) : Node * State :=
  match h with
  | Some f => f n st
  | None => (n, st)
  end.

(** ** The rendered scene *)

(** A pixel of a raster: premultiplied RGBA, eight bits per channel. *)
Record Rgba : Type := mkRgba {
  red : Z;
  green : Z;
  blue : Z;
  alpha : Z
}.

Definition transparent : Rgba := mkRgba 0 0 0 0.

(** A raster assigns a colour to every pixel coordinate. *)
Definition Raster : Type := Z * Z -> Rgba.

Definition blank : Raster := fun _ => transparent.

(** The canvas extent: the template's fixed 1024 x 1024 square. *)
Definition extent : Z := 1024.

Definition inExtent (p : Z * Z) : bool :=
  ((0 <=? p.1) && (p.1 <? extent) && (0 <=? p.2) && (p.2 <? extent))%Z.

(** [globalCompositeOperation]. *)
Inductive CompositeOp : Set := source_over | destination_in.

(** Canvas 2D compositing of a source pixel onto a destination pixel:
    [source-over] puts the source on top, [destination-in] keeps the
    destination in proportion to the source's alpha. *)
Definition blend (op : CompositeOp) (dst src : Rgba) : Rgba :=
  match op with
  | source_over =>
    let k := (255 - alpha src)%Z in
    mkRgba (red src + red dst * k / 255) (green src + green dst * k / 255)
           (blue src + blue dst * k / 255) (alpha src + alpha dst * k / 255)
  | destination_in =>
    let k := alpha src in
    mkRgba (red dst * k / 255) (green dst * k / 255)
           (blue dst * k / 255) (alpha dst * k / 255)
  end.

(** The layer components of the [switch]. *)
Inductive Component : Set :=
  | TextLayer | ImageLayer | TextureLayer | BrushLayer | LineLayer
  | StarLayer | RectLayer | CircleLayer | FillLayer.

(** The shapes that end up on the Konva layer. *)
Inductive Shape : Type :=
  | BaseRect (fillColor : Rgba)
  | TemplateImage
  | LayerShape (component : Component) (layer : Layer) (props : CommonProps)
  | TransformerWrapper (selectedLayerId : option string)
  | BrushCursor.

#[warnings="-register-all"]
Inductive SceneNode : Type :=
  | Leaf (s : Shape)
  | Group (globalCompositeOperation : option CompositeOp) (listening : option bool)
        (children : list SceneNode).

(** [switch (layer.type)]: the element rendered for a layer, [null] in the
    [default] case. *)
Definition layerElement (st : State) (layer : Layer) : option SceneNode :=
  let props := commonProps st layer in
  match type layer with
  | text => Some (Leaf (LayerShape TextLayer layer props))
  | image => Some (Leaf (LayerShape ImageLayer layer props))
  | texture => Some (Leaf (LayerShape TextureLayer layer props))
  | brush => Some (Leaf (LayerShape BrushLayer layer props))
  | line => Some (Leaf (LayerShape LineLayer layer props))
  | star => Some (Leaf (LayerShape StarLayer layer props))
  | rect => Some (Leaf (LayerShape RectLayer layer props))
  | circle => Some (Leaf (LayerShape CircleLayer layer props))
  | fill => Some (Leaf (LayerShape FillLayer layer props))
  end.

(** The template mask: a non-listening [destination-in] group around the
    template image. *)
Definition templateMask : SceneNode :=
  Group (Some destination_in) (Some false) [Leaf TemplateImage].

(** "Base color masked by template". *)
Definition baseGroup (baseColor : Rgba) : SceneNode :=
  Group None None [Leaf (BaseRect baseColor); templateMask].

(** "Masked design layers": [[...layers].reverse().map(...)] followed by
    the template mask. *)
Definition layersGroup (st : State) : SceneNode :=
  Group None None (omap (layerElement st) (rev (layers st)) ++ [templateMask]).

(** The children of the Konva [<Layer>] the component returns. *)
Definition EditorCanvas (st : State) (baseColor : Rgba)
                        (selectedLayerId : option string) : list SceneNode :=
  [ baseGroup baseColor;
  layersGroup st;
  Leaf (TransformerWrapper selectedLayerId);
  Leaf BrushCursor ].

(** Konva draws a container by drawing its children in order, all on the
    layer's one canvas; a group that sets a composite operation sets it
    for everything it contains.  The result is the sequence of draw
    commands. *)
Fixpoint commands (op : CompositeOp) (n : SceneNode) : list (CompositeOp * Shape) :=
  match n with
  | Leaf s => [(op, s)]
  | Group o _ children => flat_map (commands (default op o)) children
  end.

Definition sceneCommands (scene : list SceneNode) : list (CompositeOp * Shape) :=
  flat_map (commands source_over) scene.

(** The layers in the order they are painted. *)
Definition paintedLayers (cmds : list (CompositeOp * Shape)) : list Layer :=
  omap (fun c => match c.2 with
               | LayerShape _ layer _ => Some layer
               | _ => None
               end) cmds.

(** How a shape is rasterised.  The base rectangle fills the extent with
    the base colour and the template image covers it; the drawing rule of
    every other shape (its own transform, opacity and visibility applied)
    is [paint]. *)
Definition rasterOf (templateImage : Raster) (paint : Shape -> Raster)
                    (s : Shape) : Raster :=
  match s with
  | BaseRect c => fun p => if inExtent p then c else transparent
  | TemplateImage => fun p => if inExtent p then templateImage p else transparent
  | _ => paint s
  end.

(** The raster of the template image: the template inside the extent,
    nothing outside. *)
Definition maskAt (templateImage : Raster) : Raster :=
  rasterOf templateImage (fun _ => blank) TemplateImage.

(** Executing the draw commands on a canvas. *)
Definition runCommands (templateImage : Raster) (paint : Shape -> Raster)
                       (cmds : list (CompositeOp * Shape)) (canvas : Raster) : Raster :=
  fold_left (fun c cmd => fun p => blend cmd.1 (c p) (rasterOf templateImage paint cmd.2 p))
          cmds canvas.

(** The alpha of a pixel is in range. *)
Definition alphaValid (c : Rgba) : Prop := (0 <= alpha c <= 255)%Z.

(** The draw commands of the design layers alone. *)
Definition layerCommands (st : State) : list (CompositeOp * Shape) :=
  flat_map (commands source_over) (omap (layerElement st) (rev (layers st))).

(** The composite of base colour and layer stack, before the overlays. *)
Definition maskedComposite (templateImage : Raster) (paint : Shape -> Raster)
                           (st : State) (baseColor : Rgba) : Raster :=
  runCommands templateImage paint
            (sceneCommands [baseGroup baseColor; layersGroup st]) blank.

(** Everything the stage shows. *)
Definition stageImage (templateImage : Raster) (paint : Shape -> Raster)
                      (st : State) (baseColor : Rgba)
                      (selectedLayerId : option string) : Raster :=
  runCommands templateImage paint
            (sceneCommands (EditorCanvas st baseColor selectedLayerId)) blank.

End Canvas.

(* ===================================================================== *)
(** * LineEndpointHandles *)
(* ===================================================================== *)

Module LineHandles.
Import Model.

(** The position of a handle circle ([handle.x()], [handle.y()]). *)
Record Handle : Type := mkHandle {
  h_x : JsNum.num;
  h_y : JsNum.num
}.

Inductive Which : Set := start | end_.

(** What the component closes over: the store's [layers] and
    [selectedLayerId], and [isDraggingHandleRef]. *)
Record State : Type := mkState {
  layers : list Layer;
  selectedLayerId : option string;
  isDraggingHandleRef : option Which
}.

Definition set_layers (ls : list Layer) (st : State) : State :=
  mkState ls (selectedLayerId st) (isDraggingHandleRef st).

Definition set_dragging (w : option Which) (st : State) : State :=
  mkState (layers st) (selectedLayerId st) w.

Definition zero : JsNum.num := 0%float.

(** [a[i]]: reading past the end of an array gives [undefined]. *)
Definition at_index (a : list (option JsNum.num)) (i : nat) : option JsNum.num :=
  match nth_error a i with
  | Some v => v
  | None => None
  end.

(** [layer.points || [0, 0, 0, 0]]. *)
Definition currentPoints (l : Layer) : list (option JsNum.num) :=
  match points l with
  | Some a => a
  | None => [Some zero; Some zero; Some zero; Some zero]
  end.

(** [layer.x || 0] and [layer.y || 0]. *)
Definition layerX (l : Layer) : JsNum.num := JsNum.or_num (x l) zero.
Definition layerY (l : Layer) : JsNum.num := JsNum.or_num (y l) zero.

(** [a + b] where [a] is a number or [undefined]: [undefined + b] is NaN. *)
Definition add_elem (a : option JsNum.num) (b : JsNum.num) : JsNum.num :=
  match a with
  | Some v => (v + b)%js
  | None => JsNum.nan
  end.

(** The two circles the component renders. *)
Record View : Type := mkView {
  startX : JsNum.num;
  startY : JsNum.num;
  endX : JsNum.num;
  endY : JsNum.num;
  handles_draggable : bool
}.

(** The component body: nothing is rendered unless the layer exists, is a
    line and is the selected layer. *)
Definition LineEndpointHandles (layerId : string) (st : State) : option View :=
  match findLayer layerId (layers st) with
  | None => None
  | Some layer =>
    if negb (bool_decide (type layer = line))
       || negb (bool_decide (selectedLayerId st = Some layerId))
    then None
    else
      let pts := currentPoints layer in
      Some (mkView (add_elem (at_index pts 0) (layerX layer))
                   (add_elem (at_index pts 1) (layerY layer))
                   (add_elem (at_index pts 2) (layerX layer))
                   (add_elem (at_index pts 3) (layerY layer))
                   (negb (locked layer)))
  end.

(** [updateLayer(layerId, { points: [...] })]. *)
Definition pointsPatch (pts : list (option JsNum.num)) : Patch :=
  mkPatch None None None None None None None None None None None
        None None None None None None (Some pts) None None ∅.

(** [handleDragMove] of the start handle. *)
Definition startHandleDragMove (startHandle : Handle) (layerId : string)
                               (st : State) : State :=
  match findLayer layerId (layers st) with
  | None => st
  | Some currentLayer =>
    if negb (bool_decide (type currentLayer = line)) then st
    else
      let currentX := h_x startHandle in
      let currentY := h_y startHandle in
      let currentLayerX := JsNum.or_num (x currentLayer) zero in
      let currentLayerY := JsNum.or_num (y currentLayer) zero in
      let currentPoints := currentPoints currentLayer in
      let newPointX := (currentX - currentLayerX)%js in
      let newPointY := (currentY - currentLayerY)%js in
      set_layers
        (updateLayer layerId
           (pointsPatch [Some newPointX; Some newPointY;
                         at_index currentPoints 2; at_index currentPoints 3])
           (layers st)) st
  end.

(** [handleDragMove] of the end handle. *)
Definition endHandleDragMove (endHandle : Handle) (layerId : string)
                             (st : State) : State :=
  match findLayer layerId (layers st) with
  | None => st
  | Some currentLayer =>
    if negb (bool_decide (type currentLayer = line)) then st
    else
      let currentX := h_x endHandle in
      let currentY := h_y endHandle in
      let currentLayerX := JsNum.or_num (x currentLayer) zero in
      let currentLayerY := JsNum.or_num (y currentLayer) zero in
      let currentPoints := currentPoints currentLayer in
      let newPointX := (currentX - currentLayerX)%js in
      let newPointY := (currentY - currentLayerY)%js in
      set_layers
        (updateLayer layerId
           (pointsPatch [at_index currentPoints 0; at_index currentPoints 1;
                         Some newPointX; Some newPointY])
           (layers st)) st
  end.

Definition handleDragStart (w : Which) (st : State) : State :=
  set_dragging (Some w) st.

Definition handleDragEnd (st : State) : State :=
  set_dragging None st.

(** The [dragmove] handler of a handle. *)
Definition move_of (w : Which) : Handle -> string -> State -> State :=
  match w with
  | start => startHandleDragMove
  | end_ => endHandleDragMove
  end.

(** A drag of one handle of the mounted component: [dragstart], one
    [dragmove] per reported position, [dragend].  Handles that are not
    rendered receive no events. *)
Definition dragHandle (w : Which) (positions : list Handle) (layerId : string)
                      (st : State) : State :=
  match LineEndpointHandles layerId st with
  | None => st
  | Some _ =>
    handleDragEnd
      (fold_left (fun s h => move_of w h layerId s) positions (handleDragStart w st))
  end.

(** [l] with a new points array and every other property as it was. *)
Definition with_points (pts : list (option JsNum.num)) (l : Layer) : Layer :=
  mkLayer (id l) (type l) (name l) (visible l) (locked l) (opacity l)
        (x l) (y l) (rotation l) (scaleX l) (scaleY l)
        (width l) (height l) (radius l) (numPoints l)
        (innerRadius l) (outerRadius l) (Some pts)
        (src l) (fillImageDataUrl l) (other l).

(** The state reached while a handle is being dragged: the layer differs
    from the original at most in its points array, whose other pair still
    reads as before. *)
Definition dragging_inv (w : Which) (i : string) (l : Layer) (st0 st : State) : Prop :=
  selectedLayerId st = selectedLayerId st0
  /\ (forall j, j <> i -> findLayer j (layers st) = findLayer j (layers st0))
  /\ exists l', findLayer i (layers st) = Some l'
       /\ (l' = l \/ exists pts, l' = with_points pts l)
       /\ match w with
          | start => at_index (currentPoints l') 2 = at_index (currentPoints l) 2
                     /\ at_index (currentPoints l') 3 = at_index (currentPoints l) 3
          | end_ => at_index (currentPoints l') 0 = at_index (currentPoints l) 0
                    /\ at_index (currentPoints l') 1 = at_index (currentPoints l) 1
          end.

End LineHandles.

(* ===================================================================== *)
(** * A monad for code that throws and mutates *)
(* ===================================================================== *)

Module JsM.

(** A JavaScript error value: what a collaborator reports or an exception
    carries. *)
Inductive JsError : Type := mkError (message : string).

(** Normal or abrupt completion. *)
Inductive Outcome (A : Type) : Type :=
  | Returns (a : A)
  | Throws (e : JsError).

Arguments Returns {A} a.
Arguments Throws {A} e.

(** A computation over a state [S] that may throw; the state keeps the
    effects performed before the exception. *)
Definition M (S A : Type) : Type := S -> Outcome A * S.

Definition ret {S A} (a : A) : M S A := fun s => (Returns a, s).

Definition throw {S A} (e : JsError) : M S A := fun s => (Throws e, s).

Definition bind {S A B} (c : M S A) (k : A -> M S B) : M S B :=
  fun s =>
  match c s with
  | (Returns a, s') => k a s'
  | (Throws e, s') => (Throws e, s')
  end.

(** [try { c } catch (err) { h err }]. *)
Definition try_catch {S A} (c : M S A) (h : JsError -> M S A) : M S A :=
  fun s =>
  match c s with
  | (Returns a, s') => (Returns a, s')
  | (Throws e, s') => h e s'
  end.

Definition get {S} : M S S := fun s => (Returns s, s).

Definition put {S} (s : S) : M S unit := fun _ => (Returns tt, s).

(** [for (const x of xs) body(x)] and [xs.map(f)] with effects. *)
Fixpoint mapM {S A B} (f : A -> M S B) (xs : list A) : M S (list B) :=
  match xs with
  | [] => ret []
  | x :: r => bind (f x) (fun y => bind (mapM f r) (fun ys => ret (y :: ys)))
  end.

Fixpoint forM_ {S A} (xs : list A) (f : A -> M S unit) : M S unit :=
  match xs with
  | [] => ret tt
  | x :: r => bind (f x) (fun _ => forM_ r f)
  end.

End JsM.

Declare Scope jsm_scope.
Delimit Scope jsm_scope with jsm.
Notation "x <- c ;; k" := (JsM.bind c (fun x => k))
  (at level 100, c at next level, right associativity) : jsm_scope.
Notation "c ;;; k" := (JsM.bind c (fun _ => k))
  (at level 100, right associativity) : jsm_scope.

(* ===================================================================== *)
(** * utils/publish: exportPngAsDataUrl *)
(* ===================================================================== *)

Module Exporter.

(** The identity of a Konva node object. *)
Definition ref : Type := positive.

(** Konva's containers, the transformer aside. *)
Inductive ContainerClass : Set := Stage | Layer | Group | Label.

Definition containerClassName (c : ContainerClass) : string :=
  match c with
  | Stage => "Stage"
  | Layer => "Layer"
  | Group => "Group"
  | Label => "Label"
  end.

(** A label is a group by node type. *)
Definition containerNodeType (c : ContainerClass) : string :=
  match c with
  | Stage => "Stage"
  | Layer => "Layer"
  | Group => "Group"
  | Label => "Group"
  end.

(** The node tree of a stage, as far as the export looks at it.  A shape
    carries its class name ("Rect", "Circle", ...), a container its class
    and its [listening] attribute; a transformer is a container of node
    type "Group" whose children are the anchor rectangles Konva builds
    for it. *)
#[warnings="-register-all"]
Inductive KNode : Type :=
  | KShape (r : ref) (className : string)
  | KContainer (r : ref) (class : ContainerClass) (listening : bool)
             (children : list KNode)
  | KTransformer (r : ref) (listening : bool) (anchors : list ref).

Definition ref_of (n : KNode) : ref :=
  match n with
  | KShape r _ => r
  | KContainer r _ _ _ => r
  | KTransformer r _ _ => r
  end.

(** [node.getClassName()]. *)
Definition className_of (n : KNode) : string :=
  match n with
  | KShape _ c => c
  | KContainer _ c _ _ => containerClassName c
  | KTransformer _ _ _ => "Transformer"
  end.

Definition nodeType_of (n : KNode) : string :=
  match n with
  | KShape _ _ => "Shape"
  | KContainer _ c _ _ => containerNodeType c
  | KTransformer _ _ _ => "Group"
  end.

(** [node.listening()]; shapes are not asked. *)
Definition listening_of (n : KNode) : bool :=
  match n with
  | KShape _ _ => true
  | KContainer _ _ l _ => l
  | KTransformer _ l _ => l
  end.

(** [node.getChildren()]. *)
Definition children_of (n : KNode) : list KNode :=
  match n with
  | KShape _ _ => []
  | KContainer _ _ _ cs => cs
  | KTransformer _ _ anchors => List.map (fun a => KShape a "Rect") anchors
  end.

(** The descendants of a node, depth first, in document order. *)
Fixpoint descendants (n : KNode) : list KNode :=
  match n with
  | KShape _ _ => []
  | KContainer _ _ _ cs => flat_map (fun c => c :: descendants c) cs
  | KTransformer _ _ anchors => List.map (fun a => KShape a "Rect") anchors
  end.

(** A type selector matches the class name or the node type. *)
Definition is_match (selector : string) (n : KNode) : bool :=
  String.eqb (className_of n) selector || String.eqb (nodeType_of n) selector.

(** [stage.find(selector)] and [stage.findOne(selector)]. *)
Definition find (selector : string) (stage : KNode) : list KNode :=
  List.filter (is_match selector) (descendants stage).

Definition findOne (selector : string) (stage : KNode) : option KNode :=
  List.find (is_match selector) (descendants stage).

(** The [visible] attribute of every node. *)
Definition Visibility : Type := ref -> bool.

(** [node.visible(b)]. *)
Definition set_visible (r : ref) (b : bool) (vis : Visibility) : Visibility :=
  fun r' => if Pos.eqb r' r then b else vis r'.

(** The nodes Konva draws, in drawing order: a node is drawn when it and
    all its ancestors are visible. *)
Fixpoint drawn (vis : Visibility) (n : KNode) : list ref :=
  match n with
  | KShape r _ => if vis r then [r] else []
  | KContainer r _ _ cs => if vis r then r :: flat_map (drawn vis) cs else []
  | KTransformer r _ anchors => if vis r then r :: List.filter vis anchors else []
  end.

(** The test of the group loop: a non-listening group with at least two
    children, one of them a circle, is taken for a brush cursor. *)
Definition isBrushCursorGroup (group : KNode) : bool :=
  negb (listening_of group)
  && (existsb (fun child => String.eqb (className_of child) "Circle") (children_of group)
    && (2 <=? length (children_of group))%nat).

(** The calls the export makes on the stage and on the promise. *)
Record Config : Type := mkConfig {
  pixelRatio : Z;
  mimeType : string
}.

Inductive Call : Type :=
  | CallVisible (r : ref) (b : bool)
  | CallBatchDraw
  | CallToDataURL (c : Config)
  | CallResolve (v : option string).

(** The export's working state: the visibility attributes, the local
    [elementsToHide] array and the calls made so far. *)
Record State : Type := mkState {
  vis : Visibility;
  elementsToHide : list (ref * bool);
  calls : list Call
}.

(** [elementsToHide.push({ node, wasVisible: node.visible() });
     node.visible(false)]. *)
Definition hide (n : KNode) (st : State) : State :=
  mkState (set_visible (ref_of n) false (vis st))
        (elementsToHide st ++ [(ref_of n, vis st (ref_of n))])
        (calls st ++ [CallVisible (ref_of n) false]).

(** [node.visible(wasVisible)]. *)
Definition restore (e : ref * bool) (st : State) : State :=
  mkState (set_visible e.1 e.2 (vis st)) (elementsToHide st)
        (calls st ++ [CallVisible e.1 e.2]).

Definition call (c : Call) (st : State) : State :=
  mkState (vis st) (elementsToHide st) (calls st ++ [c]).

Section ExportPng.

(** [stage.toDataURL(config)]: the raster of the nodes that are drawn. *)
Variable toDataURL : Config -> KNode -> list ref -> string.

Definition exportConfig : Config := mkConfig 1 "image/png".

(** The promise's value and the state left behind. *)
Definition exportPngAsDataUrl (stage : option KNode) (visible : Visibility)
  : option string * State :=
  match stage with
  | None => (None, call (CallResolve None) (mkState visible [] []))
  | Some stage =>
    let st0 := mkState visible [] [] in
    let transformer := findOne "Transformer" stage in
    let st1 := match transformer with
               | Some t => hide t st0
               | None => st0
               end in
    let allGroups := find "Group" stage in
    let st2 := fold_left (fun st group =>
                            if isBrushCursorGroup group then hide group st else st)
                         allGroups st1 in
    let st3 := call CallBatchDraw st2 in
    let dataURL := toDataURL exportConfig stage (drawn (vis st3) stage) in
    let st4 := call (CallToDataURL exportConfig) st3 in
    let st5 := fold_left (fun st e => restore e st) (elementsToHide st4) st4 in
    let st6 := call CallBatchDraw st5 in
    (Some dataURL, call (CallResolve (Some dataURL)) st6)
  end.

End ExportPng.

(** ** Statements about the export *)

(** Every reference in a subtree, anchors included. *)
Fixpoint refs_of (n : KNode) : list ref :=
  match n with
  | KShape r _ => [r]
  | KContainer r _ _ cs => r :: flat_map refs_of cs
  | KTransformer r _ anchors => r :: anchors
  end.

(** The nodes the export hides: the first transformer and every group
    taken for a brush cursor. *)
Definition hiddenNodes (stage : KNode) : list KNode :=
  match findOne "Transformer" stage with
  | Some t => [t]
  | None => []
  end ++ List.filter isBrushCursorGroup (find "Group" stage).

(** Hiding a list of nodes, one after the other. *)
Definition hideAll (H : list KNode) (st : State) : State :=
  fold_left (fun st n => hide n st) H st.

(** The visibility at the time of the capture: the hidden nodes are
    invisible, every other node is as it was. *)
Definition captureVisibility (stage : KNode) (visible : Visibility) : Visibility :=
  fun r => if bool_decide (r ∈ List.map ref_of (hiddenNodes stage)) then false
         else visible r.

End Exporter.

(* ===================================================================== *)
(** * utils/publish: projectToBlob *)
(* ===================================================================== *)

Module Serializer.
Import Model JsM.

(** Object references. *)
Definition loc : Type := positive.

(** [ProjectFile]; [layers] refers to the array of layer objects. *)
Record ProjectFile : Type := mkProjectFile {
  version : string;
  pf_name : string;
  createdAt : string;
  modelId : string;
  baseColor : string;
  layers : loc
}.

(** What lives in the JavaScript heap: layer objects, arrays of layer
    references, project objects. *)
Inductive Obj : Type :=
  | OLayer (l : Layer)
  | OArray (elems : list loc)
  | OProject (p : ProjectFile).

(** An entry of the local [images] array. *)
Inductive ImageKind : Set := k_src | k_fillImage.

Record ImageEntry : Type := mkImageEntry {
  layerId : string;
  kind : ImageKind;
  dataUrl : string;
  filename : string
}.

(** The manifest as [JSON.stringify] writes it: the layer array is
    written by value. *)
Record Manifest : Type := mkManifest {
  m_version : string;
  m_name : string;
  m_createdAt : string;
  m_modifiedAt : string;
  m_modelId : string;
  m_baseColor : string;
  m_layers : list Layer
}.

(** The files of a JSZip object, by path. *)
Inductive ZipEntry : Type :=
  | ZText (m : Manifest)
  | ZBinary (bytes : list Byte.byte)
  | ZFolder.

(** The state [projectToBlob] works on: the heap and its two local
    mutable objects, the [images] array and the [zip]. *)
Record State : Type := mkState {
  heap : gmap loc Obj;
  images : list ImageEntry;
  zip : gmap string ZipEntry
}.

Definition typeError : JsError := mkError "TypeError".
Definition invalidCharacterError : JsError := mkError "InvalidCharacterError".

(** ** Strings *)

(** [s.startsWith(p)]. *)
Fixpoint startsWith (p s : string) : bool :=
  match p with
  | EmptyString => true
  | String a p' =>
    match s with
    | String b s' => Ascii.eqb a b && startsWith p' s'
    | EmptyString => false
    end
  end.

(** The text before the first comma, and the text after it. *)
Fixpoint before_comma (s : string) : string :=
  match s with
  | String c r => if Ascii.eqb c "," then EmptyString else String c (before_comma r)
  | EmptyString => EmptyString
  end.

Fixpoint after_comma (s : string) : option string :=
  match s with
  | String c r => if Ascii.eqb c "," then Some r else after_comma r
  | EmptyString => None
  end.

(** [s.split(',')[1]]: the second comma-separated piece, [undefined]
    without a comma. *)
Definition split_comma_1 (s : string) : option string :=
  before_comma <$> after_comma s.

Fixpoint drop_chars (n : nat) (s : string) : string :=
  match n, s with
  | S n', String _ r => drop_chars n' r
  | _, _ => s
  end.

(** [s.replace(pat, rep)] for a string pattern: the first occurrence. *)
Fixpoint replace_first (pat rep s : string) : string :=
  if startsWith pat s then rep +:+ drop_chars (String.length pat) s
  else match s with
     | String c r => String c (replace_first pat rep r)
     | EmptyString => EmptyString
     end.

(** ** Heap operations *)

(** A new object. *)
Definition alloc (o : Obj) : M State loc :=
  fun st =>
  let r := fresh (dom (heap st)) in
  (Returns r, mkState (<[r := o]> (heap st)) (images st) (zip st)).

Definition readProject (r : loc) : M State ProjectFile :=
  fun st =>
  match heap st !! r with
  | Some (OProject p) => (Returns p, st)
  | _ => (Throws typeError, st)
  end.

Definition readArray (r : loc) : M State (list loc) :=
  fun st =>
  match heap st !! r with
  | Some (OArray a) => (Returns a, st)
  | _ => (Throws typeError, st)
  end.

Definition readLayer (r : loc) : M State Layer :=
  fun st =>
  match heap st !! r with
  | Some (OLayer l) => (Returns l, st)
  | _ => (Throws typeError, st)
  end.

Definition with_src (v : string) (l : Layer) : Layer :=
  mkLayer (id l) (type l) (name l) (visible l) (locked l) (opacity l)
        (x l) (y l) (rotation l) (scaleX l) (scaleY l)
        (width l) (height l) (radius l) (numPoints l)
        (innerRadius l) (outerRadius l) (points l)
        (Some v) (fillImageDataUrl l) (other l).

Definition with_fillImageDataUrl (v : string) (l : Layer) : Layer :=
  mkLayer (id l) (type l) (name l) (visible l) (locked l) (opacity l)
        (x l) (y l) (rotation l) (scaleX l) (scaleY l)
        (width l) (height l) (radius l) (numPoints l)
        (innerRadius l) (outerRadius l) (points l)
        (src l) (Some v) (other l).

(** An assignment to a property of the object at [r]. *)
Definition assign (r : loc) (f : Layer -> Layer) : M State unit :=
  fun st =>
  (Returns tt,
   mkState (alter (fun o => match o with OLayer l => OLayer (f l) | _ => o end)
                  r (heap st))
           (images st) (zip st)).

(** [images.push(entry)]. *)
Definition push (e : ImageEntry) : M State unit :=
  fun st => (Returns tt, mkState (heap st) (images st ++ [e]) (zip st)).

(** [zip.file(path, content)]: a later file of the same path replaces
    the earlier one. *)
Definition zip_file (path : string) (e : ZipEntry) : M State unit :=
  fun st => (Returns tt, mkState (heap st) (images st) (<[path := e]> (zip st))).

(** [zip.folder(name)]: the folder entry; files of the folder are added
    below its path. *)
Definition zip_folder (name : string) : M State string :=
  fun st => (Returns (name +:+ "/"),
           mkState (heap st) (images st) (<[name +:+ "/" := ZFolder]> (zip st))).

Section ProjectToBlob.

(** [atob]: base64 text to a binary string; [None] when it throws. *)
Variable atob : string -> option string.

(** [new Date().toISOString()]. *)
Variable now : string.

(** [zip.generateAsync({ type: 'blob', compression: 'DEFLATE', ... })]. *)
Variable generateAsync : gmap string ZipEntry -> list Byte.byte.

(** An [undefined] argument is converted to the text "undefined". *)
Definition dataUrlToUint8Array (dataUrl : string) : M State (list Byte.byte) :=
  let base64 := split_comma_1 dataUrl in
  match atob (default "undefined" base64) with
  | Some binary => ret (List.map byte_of_ascii (list_ascii_of_string binary))
  | None => throw invalidCharacterError
  end.

(** The callback of [project.layers.map]. *)
Definition cleanLayerOf (layerRef : loc) : M State loc :=
  (layer <- readLayer layerRef ;;
 cleanLayer <- alloc (OLayer layer) ;;
 (if (bool_decide (type layer = image) || bool_decide (type layer = texture))
      && truthy_str (src layer)
  then
    if startsWith "data:" (default "" (src layer))
    then
      let filename := "images/" +:+ id layer +:+ ".png" in
      push (mkImageEntry (id layer) k_src (default "" (src layer)) filename) ;;;
      assign cleanLayer (with_src filename)
    else ret tt
  else ret tt) ;;;
 (if bool_decide (type layer = fill) && truthy_str (fillImageDataUrl layer)
  then
    if startsWith "data:" (default "" (fillImageDataUrl layer))
    then
      let filename := "images/fill-" +:+ id layer +:+ ".png" in
      push (mkImageEntry (id layer) k_fillImage
                         (default "" (fillImageDataUrl layer)) filename) ;;;
      assign cleanLayer (with_fillImageDataUrl filename)
    else ret tt
  else ret tt) ;;;
 ret cleanLayer)%jsm.

(** [JSON.stringify] follows the references of the layer array. *)
Definition stringifyLayers (refs : list loc) : M State (list Layer) :=
  mapM readLayer refs.

(** The body of [projectToBlob] up to the generation of the blob. *)
Definition projectToZip (project : loc) : M State (gmap string ZipEntry) :=
  (p <- readProject project ;;
 layerRefs <- readArray (layers p) ;;
 cleanedRefs <- mapM cleanLayerOf layerRefs ;;
 cleanedLayers <- alloc (OArray cleanedRefs) ;;
 manifestLayers <- stringifyLayers cleanedRefs ;;
 zip_file "manifest.json"
          (ZText (mkManifest "2.0" (pf_name p) (createdAt p) now
                             (modelId p) (baseColor p) manifestLayers)) ;;;
 imgs <- (fun st => (Returns (images st), st)) ;;
 (if (0 <? length imgs)%nat
  then
    imagesFolder <- zip_folder "images" ;;
    forM_ imgs (fun img =>
      bytes <- dataUrlToUint8Array (dataUrl img) ;;
      let filename := replace_first "images/" "" (filename img) in
      zip_file (imagesFolder +:+ filename) (ZBinary bytes))
  else ret tt) ;;;
 (fun st => (Returns (zip st), st)))%jsm.

Definition projectToBlob (project : loc) : M State (list Byte.byte) :=
  (z <- projectToZip project ;; ret (generateAsync z))%jsm.

(** A call starts with an empty [images] array and a new [zip]. *)
Definition enter (h : gmap loc Obj) : State := mkState h [] ∅.

End ProjectToBlob.

End Serializer.

(* ===================================================================== *)
(** * Statements about serialization *)
(* ===================================================================== *)

Module SerializerSpec.
Import Model JsM Serializer.

(** A field holds embedded raster data when it is a data URL; anything
    else, an absent field included, is an external reference. *)
Definition embedded (field : option string) : bool :=
  match field with
  | Some s => startsWith "data:" s
  | None => false
  end.

Definition imagePath (layerId : string) : string := "images/" +:+ layerId +:+ ".png".
Definition fillPath (layerId : string) : string := "images/fill-" +:+ layerId +:+ ".png".

(** The raster a layer embeds: its archive path and its data URL. *)
Definition embeddedRaster (l : Layer) : option (string * string) :=
  match type l with
  | image | texture =>
    if embedded (src l) then Some (imagePath (id l), default "" (src l)) else None
  | fill =>
    if embedded (fillImageDataUrl l)
    then Some (fillPath (id l), default "" (fillImageDataUrl l)) else None
  | _ => None
  end.

(** The manifest entry of a layer: the raster-holding field is replaced
    by the archive path exactly when it holds embedded data; every other
    field is the layer's. *)
Definition manifestEntry (l : Layer) : Layer :=
  match type l with
  | image | texture =>
    if embedded (src l) then with_src (imagePath (id l)) l else l
  | fill =>
    if embedded (fillImageDataUrl l)
    then with_fillImageDataUrl (fillPath (id l)) l else l
  | _ => l
  end.

(** The entry the layer contributes to the [images] array. *)
Definition entriesOf (l : Layer) : list ImageEntry :=
  match type l with
  | image | texture =>
    if embedded (src l)
    then [mkImageEntry (id l) k_src (default "" (src l)) (imagePath (id l))] else []
  | fill =>
    if embedded (fillImageDataUrl l)
    then [mkImageEntry (id l) k_fillImage (default "" (fillImageDataUrl l))
                       (fillPath (id l))] else []
  | _ => []
  end.

(** The decoded raster of a data URL: the bytes of [atob] applied to the
    text after the comma. *)
Definition decoded (atob : string -> option string) (url : string)
  : option (list Byte.byte) :=
  (fun binary => List.map byte_of_ascii (list_ascii_of_string binary))
  <$> atob (default "undefined" (split_comma_1 url)).

(** The heap holds the project [p] at [project] with the layers [Ls], in
    this order, in its layer array. *)
Definition holdsProject (h : gmap loc Obj) (project : loc) (p : ProjectFile)
                        (Ls : list Layer) : Prop :=
  h !! project = Some (OProject p)
  /\ exists refs, h !! layers p = Some (OArray refs)
     /\ Forall2 (fun r l => h !! r = Some (OLayer l)) refs Ls.

(** Serialization produces an archive whose manifest lists the manifest
    entries of the layers in order, and which holds, at the path of every
    embedded raster, the decoded bytes of that raster. *)
Definition serializes (atob : string -> option string) (now : string)
    (h : gmap loc Obj) (project : loc) (p : ProjectFile) (Ls : list Layer) : Prop :=
  exists st',
  projectToZip atob now project (enter h) = (Returns (zip st'), st')
  /\ zip st' !! "manifest.json"
     = Some (ZText (mkManifest "2.0" (pf_name p) (createdAt p) now
                               (modelId p) (baseColor p) (List.map manifestEntry Ls)))
  /\ forall l path url,
       In l Ls -> embeddedRaster l = Some (path, url) ->
       exists bytes, decoded atob url = Some bytes
                     /\ zip st' !! path = Some (ZBinary bytes).

(** Every embedded raster of the layers can be decoded. *)
Definition allDecodable (atob : string -> option string) (Ls : list Layer) : Prop :=
  forall l path url, In l Ls -> embeddedRaster l = Some (path, url) ->
                   is_Some (decoded atob url).

(** No two embedded rasters of the layers are given the same path. *)
Definition distinctPaths (Ls : list Layer) : Prop :=
  NoDup (List.map fst (omap embeddedRaster Ls)).

Section ArchiveContents.

Variable atob : string -> option string.
Variable now : string.

(** The path under which the image loop stores an entry. *)
Definition storedPath (img : ImageEntry) : string :=
  ("images" +:+ "/") +:+ replace_first "images/" "" (filename img).

(** The bytes the image loop stores for an entry. *)
Definition storedBytes (img : ImageEntry) : list Byte.byte :=
  default [] (decoded atob (dataUrl img)).

(** The manifest of a project with the given layers. *)
Definition manifestOf (p : ProjectFile) (Ls : list Layer) : Manifest :=
  mkManifest "2.0" (pf_name p) (createdAt p) now (modelId p) (baseColor p)
             (List.map manifestEntry Ls).

(** The image loop, as [projectToZip] runs it. *)
Definition imageLoop (imgs : list ImageEntry) : M State unit :=
  (if (0 <? length imgs)%nat
   then
     imagesFolder <- zip_folder "images" ;;
     forM_ imgs (fun img =>
       bytes <- dataUrlToUint8Array atob (dataUrl img) ;;
       let filename := replace_first "images/" "" (filename img) in
       zip_file (imagesFolder +:+ filename) (ZBinary bytes))
   else ret tt)%jsm.

End ArchiveContents.

(** A computation that keeps every object of the heap as it is. *)
Definition grows {A} (c : M State A) : Prop :=
  forall st, heap st ⊆ heap (c st).2.

End SerializerSpec.

(* ===================================================================== *)
(** * utils/publish: publishDesign *)
(* ===================================================================== *)

Module Publish.
Import JsM.

(** Binary content: a [Blob] or a [Uint8Array]. *)
Definition Blob : Type := list Byte.byte.

(** ASCII white space, as [String.prototype.trim] removes it. *)
Definition is_space (c : ascii) : bool :=
  let n := nat_of_ascii c in
  (n =? 32)%nat || ((9 <=? n)%nat && (n <=? 13)%nat).

Fixpoint trim_start (s : string) : string :=
  match s with
  | String c r => if is_space c then trim_start r else s
  | EmptyString => EmptyString
  end.

Fixpoint trim_end (s : string) : string :=
  match s with
  | String c r =>
    match trim_end r with
    | EmptyString => if is_space c then EmptyString else String c EmptyString
    | r' => String c r'
    end
  | EmptyString => EmptyString
  end.

(** [s.trim()]. *)
Definition trim (s : string) : string := trim_end (trim_start s).

(** The record inserted into the [designs] table. *)
Record DesignRow : Type := mkDesignRow {
  row_id : string;
  user_id : string;
  title : string;
  description : option string;
  model_id : string;
  preview_image_url : string;
  project_file_url : string
}.

(** [{ designId, error }]. *)
Record PublishResult : Type := mkPublishResult {
  designId : string;
  error : option JsError
}.

Section PublishDesign.

(** Everything outside the editor: storage bucket, database, network and
    the random source. *)
Variable World : Type.

(** The Supabase client, as far as [publishDesign] uses it.  An upload or
    insert answers with [{ error }], [null] on success. *)
Record SupabaseClient : Type := mkSupabaseClient {
  storage_upload : string -> Blob -> M World (option JsError);
  storage_getPublicUrl : string -> M World string;
  designs_insert : DesignRow -> M World (option JsError)
}.

(** [supabase]: the client, or [null] when the credentials are missing. *)
Variable supabase : option SupabaseClient.

(** [crypto.randomUUID()]. *)
Variable randomUUID : M World string.

(** [fetch(url)] followed by [response.blob()]. *)
Variable fetch_blob : string -> M World Blob.

Definition failed (e : JsError) : PublishResult := mkPublishResult "" (Some e).

Definition notConfigured : JsError := mkError "Supabase not configured".

Definition publishDesign (title : string) (description : option string)
                         (modelId previewDataUrl : string) (projectBlob : Blob)
                         (userId : string) : M World PublishResult :=
  match supabase with
  | None => ret (failed notConfigured)
  | Some client =>
  try_catch
    (designId <- randomUUID ;;
     let previewPath := "preview/" +:+ designId +:+ ".png" in
     let projectPath := "projects/" +:+ designId +:+ ".twrap" in
     previewBlob <- fetch_blob previewDataUrl ;;
     previewError <- storage_upload client previewPath previewBlob ;;
     match previewError with
     | Some e => ret (failed e)
     | None =>
       projectError <- storage_upload client projectPath projectBlob ;;
       match projectError with
       | Some e => ret (failed e)
       | None =>
         publicUrl <- storage_getPublicUrl client previewPath ;;
         dbError <- designs_insert client
                      (mkDesignRow designId userId (trim title)
                         match description with
                         | Some d => if String.eqb (trim d) "" then None else Some (trim d)
                         | None => None
                         end
                         modelId publicUrl projectPath) ;;
         match dbError with
         | Some e => ret (failed e)
         | None => ret (mkPublishResult designId None)
         end
       end
     end)%jsm
    (fun err => ret (failed err))
  end.

(** ** The steps of a publish, as the interface describes them *)

(** The row a publish of these arguments inserts. *)
Definition designRow (title : string) (description : option string)
                     (modelId userId designId publicUrl : string) : DesignRow :=
  mkDesignRow designId userId (trim title)
  match description with
  | Some d => if String.eqb (trim d) "" then None else Some (trim d)
  | None => None
  end
  modelId publicUrl ("projects/" +:+ designId +:+ ".twrap").

(** A step ends the publish with an error: it throws, or it answers with
    an error value. *)
Inductive answers_error : Outcome (option JsError) -> JsError -> Prop :=
  | answers_thrown e : answers_error (Throws e) e
  | answers_reported e : answers_error (Returns (Some e)) e.

(** [publish_fails w e w']: from world [w], some step of the publish fails
    with [e], leaving the world [w']. *)
Inductive publish_fails (title : string) (description : option string)
    (modelId previewDataUrl : string) (projectBlob : Blob) (userId : string)
    (w : World) : JsError -> World -> Prop :=
  | fails_not_configured :
    supabase = None ->
    publish_fails title description modelId previewDataUrl projectBlob userId
                  w notConfigured w
  | fails_uuid client e w1 :
    supabase = Some client ->
    randomUUID w = (Throws e, w1) ->
    publish_fails title description modelId previewDataUrl projectBlob userId w e w1
  | fails_fetch client designId e w1 w2 :
    supabase = Some client ->
    randomUUID w = (Returns designId, w1) ->
    fetch_blob previewDataUrl w1 = (Throws e, w2) ->
    publish_fails title description modelId previewDataUrl projectBlob userId w e w2
  | fails_preview_upload client designId previewBlob o e w1 w2 w3 :
    supabase = Some client ->
    randomUUID w = (Returns designId, w1) ->
    fetch_blob previewDataUrl w1 = (Returns previewBlob, w2) ->
    storage_upload client ("preview/" +:+ designId +:+ ".png") previewBlob w2 = (o, w3) ->
    answers_error o e ->
    publish_fails title description modelId previewDataUrl projectBlob userId w e w3
  | fails_project_upload client designId previewBlob o e w1 w2 w3 w4 :
    supabase = Some client ->
    randomUUID w = (Returns designId, w1) ->
    fetch_blob previewDataUrl w1 = (Returns previewBlob, w2) ->
    storage_upload client ("preview/" +:+ designId +:+ ".png") previewBlob w2
    = (Returns None, w3) ->
    storage_upload client ("projects/" +:+ designId +:+ ".twrap") projectBlob w3 = (o, w4) ->
    answers_error o e ->
    publish_fails title description modelId previewDataUrl projectBlob userId w e w4
  | fails_public_url client designId previewBlob e w1 w2 w3 w4 w5 :
    supabase = Some client ->
    randomUUID w = (Returns designId, w1) ->
    fetch_blob previewDataUrl w1 = (Returns previewBlob, w2) ->
    storage_upload client ("preview/" +:+ designId +:+ ".png") previewBlob w2
    = (Returns None, w3) ->
    storage_upload client ("projects/" +:+ designId +:+ ".twrap") projectBlob w3
    = (Returns None, w4) ->
    storage_getPublicUrl client ("preview/" +:+ designId +:+ ".png") w4 = (Throws e, w5) ->
    publish_fails title description modelId previewDataUrl projectBlob userId w e w5
  | fails_insert client designId previewBlob publicUrl o e w1 w2 w3 w4 w5 w6 :
    supabase = Some client ->
    randomUUID w = (Returns designId, w1) ->
    fetch_blob previewDataUrl w1 = (Returns previewBlob, w2) ->
    storage_upload client ("preview/" +:+ designId +:+ ".png") previewBlob w2
    = (Returns None, w3) ->
    storage_upload client ("projects/" +:+ designId +:+ ".twrap") projectBlob w3
    = (Returns None, w4) ->
    storage_getPublicUrl client ("preview/" +:+ designId +:+ ".png") w4
    = (Returns publicUrl, w5) ->
    designs_insert client
      (designRow title description modelId userId designId publicUrl) w5 = (o, w6) ->
    answers_error o e ->
    publish_fails title description modelId previewDataUrl projectBlob userId w e w6.

(** [publish_succeeds w designId w']: every step succeeds, [designId]
    being the identifier the random source generated for this publish. *)
Inductive publish_succeeds (title : string) (description : option string)
    (modelId previewDataUrl : string) (projectBlob : Blob) (userId : string)
    (w : World) : string -> World -> Prop :=
  | succeeds_all client designId previewBlob publicUrl w1 w2 w3 w4 w5 w6 :
    supabase = Some client ->
    randomUUID w = (Returns designId, w1) ->
    fetch_blob previewDataUrl w1 = (Returns previewBlob, w2) ->
    storage_upload client ("preview/" +:+ designId +:+ ".png") previewBlob w2
    = (Returns None, w3) ->
    storage_upload client ("projects/" +:+ designId +:+ ".twrap") projectBlob w3
    = (Returns None, w4) ->
    storage_getPublicUrl client ("preview/" +:+ designId +:+ ".png") w4
    = (Returns publicUrl, w5) ->
    designs_insert client
      (designRow title description modelId userId designId publicUrl) w5
    = (Returns None, w6) ->
    publish_succeeds title description modelId previewDataUrl projectBlob userId
                     w designId w6.

(** A publish in an editing session: the session holds the in-memory
    editor state beside the outside world, and the collaborators act on
    the outside world. *)
Definition inSession {Editor A} (c : M World A) : M (Editor * World) A :=
  fun s => let '(r, w') := c s.2 in (r, (s.1, w')).

End PublishDesign.

End Publish.

(* ===================================================================== *)
(** * Statements about the gesture handlers *)
(* ===================================================================== *)

Module GestureSpec.
Import Model Canvas.

(** The intrinsic size of a layer: the properties a shape is defined by. *)
Definition intrinsicSize (l : Layer) :=
  (width l, height l, radius l, numPoints l, innerRadius l, outerRadius l, points l).

(** Ending a resize / rotate gesture on [layer], with the node reporting
    [n], persists the reported position, rotation and scale verbatim and
    keeps the intrinsic size. *)
Definition persists_transform_verbatim (st : State) (layer : Layer) (n : Node) : Prop :=
  let st' := (fire (onTransformEnd (commonProps st layer)) n st).2 in
  exists layer',
    findLayer (id layer) (layers st') = Some layer'
    /\ x layer' = node_x n /\ y layer' = node_y n
    /\ rotation layer' = node_rotation n
    /\ scaleX layer' = node_scaleX n /\ scaleY layer' = node_scaleY n
    /\ intrinsicSize layer' = intrinsicSize layer.

End GestureSpec.

(* ===================================================================== *)
(** * Sample data *)
(* ===================================================================== *)

Module Samples.
Import Model Canvas.

Definition f0 : JsNum.num := 0%float.
Definition f1 : JsNum.num := 1%float.
Definition f2 : JsNum.num := 2%float.
Definition f10 : JsNum.num := 10%float.
Definition f100 : JsNum.num := 100%float.
Definition f200 : JsNum.num := 200%float.

(** A layer of the given kind with the default transform. *)
Definition sampleLayer (i : string) (t : LayerType) : Layer :=
  mkLayer i t "layer" true false f1 f0 f0 f0 f1 f1
          None None None None None None None None None ∅.

(** The scenario rectangle: 200 x 100 at the origin, scale (1, 1). *)
Definition sampleRect : Layer :=
  mkLayer "r1" rect "Rectangle" true false f1 f0 f0 f0 f1 f1
          (Some f200) (Some f100) None None None None None None None ∅.

Definition sampleBrush : Layer := sampleLayer "b1" brush.
Definition sampleCircle : Layer :=
  mkLayer "c1" circle "Circle" true false f1 f0 f0 f0 f1 f1
          None None (Some f10) None None None None None None ∅.

Definition sampleLine : Layer :=
  mkLayer "l1" line "Line" true false f1 f10 f10 f0 f1 f1
          None None None None None None
  (Some [Some f0; Some f0; Some f100; Some f0]) None None ∅.

Definition sampleState (ls : list Layer) : State :=
  mkState ls "select" None "default".

(** A node dragged to (10, 10) and stretched to twice its width. *)
Definition sampleNode : Node := mkNode f10 f10 f0 f2 f1 f1 true.

Definition white : Rgba := mkRgba 255 255 255 255.
Definition red : Rgba := mkRgba 255 0 0 255.

(** A template that is opaque where x < 512 and transparent elsewhere. *)
Definition halfTemplate : Raster :=
  fun p => if (p.1 <? 512)%Z then white else transparent.

(** A drawing rule that paints every shape opaque red everywhere. *)
Definition paintRed : Shape -> Raster := fun _ _ => red.

(** ** A sample stage *)

(** Stage 1 > Layer 2 > design group 3 (a rectangle 4), template mask 5
    (image 6), transformer 7 (anchors 8 and 9), brush cursor 10 (circles
    11 and 12). *)
Definition sampleStage : Exporter.KNode :=
  Exporter.KContainer 1%positive Exporter.Stage true
  [Exporter.KContainer 2%positive Exporter.Layer true
     [Exporter.KContainer 3%positive Exporter.Group true
        [Exporter.KShape 4%positive "Rect"];
      Exporter.KContainer 5%positive Exporter.Group false
        [Exporter.KShape 6%positive "Image"];
      Exporter.KTransformer 7%positive true [8%positive; 9%positive];
      Exporter.KContainer 10%positive Exporter.Group false
        [Exporter.KShape 11%positive "Circle"; Exporter.KShape 12%positive "Circle"]]].

(** A stand-in for the rasteriser: it names the nodes that are drawn, "A"
    for node 1, "B" for node 2 and so on. *)
Definition sampleToDataURL (c : Exporter.Config) (stage : Exporter.KNode)
                           (drawn : list Exporter.ref) : string :=
  "data:" +:+ Exporter.mimeType c +:+ ";drawn="
  +:+ string_of_list_ascii (List.map (fun r => ascii_of_N (N.pos r + 64)) drawn).

(** ** Sample projects *)

(** Standard base64 decoding of an unpadded or padded text, used as the
    [atob] of the samples. *)
Definition b64_value (c : ascii) : option N :=
  let n := N_of_ascii c in
  if ((65 <=? n) && (n <=? 90))%N then Some (n - 65)%N
  else if ((97 <=? n) && (n <=? 122))%N then Some (n - 71)%N
  else if ((48 <=? n) && (n <=? 57))%N then Some (n + 4)%N
  else if (n =? 43)%N then Some 62%N
  else if (n =? 47)%N then Some 63%N
  else None.

Fixpoint b64_chunks (fuel : nat) (vs : list N) : option string :=
  match fuel with
  | O => None
  | S fuel' =>
    match vs with
    | [] => Some EmptyString
    | [a; b] =>
        Some (String (ascii_of_N ((a * 4 + b / 16) mod 256)) EmptyString)
    | [a; b; c] =>
        Some (String (ascii_of_N ((a * 4 + b / 16) mod 256))
             (String (ascii_of_N ((b * 16 + c / 4) mod 256)) EmptyString))
    | a :: b :: c :: d :: rest =>
        String (ascii_of_N ((a * 4 + b / 16) mod 256)) <$>
        (String (ascii_of_N ((b * 16 + c / 4) mod 256)) <$>
         (String (ascii_of_N ((c * 64 + d) mod 256)) <$> b64_chunks fuel' rest))
    | _ => None
    end
  end.

Definition strip_padding (s : string) : list ascii :=
  List.filter (fun c => negb (Ascii.eqb c "=")) (list_ascii_of_string s).

Definition sampleAtob (s : string) : option string :=
  match mapM b64_value (strip_padding s) with
  | Some vs => b64_chunks (S (length vs)) vs
  | None => None
  end.

Definition imageLayer (i : string) (url : string) : Layer :=
  mkLayer i image "Image" true false f1 f0 f0 f0 f1 f1
        None None None None None None None (Some url) None ∅.

Definition fillLayer (i : string) (url : string) : Layer :=
  mkLayer i fill "Fill" true false f1 f0 f0 f0 f1 f1
        None None None None None None None None (Some url) ∅.

Definition sampleProjectFile : Serializer.ProjectFile :=
  Serializer.mkProjectFile "2.0" "Demo" "2024-01-01T00:00:00.000Z" "modely" "#FF0000" 2%positive.

(** A heap holding the sample project with the two given layers. *)
Definition sampleHeap (l1 l2 : Layer) : gmap Serializer.loc Serializer.Obj :=
  <[1%positive := Serializer.OProject sampleProjectFile]>
  (<[2%positive := Serializer.OArray [3%positive; 4%positive]]>
    (<[3%positive := Serializer.OLayer l1]>
      (<[4%positive := Serializer.OLayer l2]> ∅))).

(** An image layer and a fill layer with unrelated identifiers. *)
Definition layerA : Layer := imageLayer "img1" "data:image/png;base64,AAAA".
Definition layerB : Layer := fillLayer "f1" "data:image/png;base64,BBBB".

(** An image layer named "fill-a" beside a fill layer named "a": both
    rasters are given the path images/fill-a.png. *)
Definition clashA : Layer := imageLayer "fill-a" "data:image/png;base64,AAAA".
Definition clashB : Layer := fillLayer "a" "data:image/png;base64,BBBB".

Definition sampleNow : string := "2024-06-01T12:00:00.000Z".

End Samples.
(* ===================================================================== *)
(** * JavaScript [Math] and comparisons *)
(* ===================================================================== *)

Module JsMath.

(** [a < b] and [a <= b]: false whenever an operand is NaN. *)
Definition lt (a b : JsNum.num) : bool := PrimFloat.ltb a b.
Definition le (a b : JsNum.num) : bool := PrimFloat.leb a b.

(** [Math.max(a, b)]: NaN when an argument is NaN; [+0] counts as larger
    than [-0]. *)
Definition max (a b : JsNum.num) : JsNum.num :=
  if PrimFloat.is_nan a || PrimFloat.is_nan b then JsNum.nan
  else if lt a b then b
  else if lt b a then a
  else if PrimFloat.get_sign a then b else a.

(** [Math.min(a, b)]: NaN when an argument is NaN; [-0] counts as smaller
    than [+0]. *)
Definition min (a b : JsNum.num) : JsNum.num :=
  if PrimFloat.is_nan a || PrimFloat.is_nan b then JsNum.nan
  else if lt a b then a
  else if lt b a then b
  else if PrimFloat.get_sign a then a else b.

(** [-a]. *)
Definition neg (a : JsNum.num) : JsNum.num := PrimFloat.opp a.

(** [lo <= v <= hi]. *)
Definition within (lo hi v : JsNum.num) : Prop :=
  le lo v = true /\ le v hi = true.

End JsMath.

(* ===================================================================== *)
(** * The number line *)
(* ===================================================================== *)

Module NumberLine.
Import SpecFloat.

(** The position of a number on the extended number line: a class, then
    exponent and mantissa, mirrored for negative numbers. *)
Definition rank (x : spec_float) : Z * (Z * Z) :=
  match x with
  | S754_nan => (0, (0, 0))
  | S754_infinity true => (-2, (0, 0))
  | S754_finite true m e => (-1, (- e, Z.neg m))
  | S754_zero _ => (0, (0, 0))
  | S754_finite false m e => (1, (e, Z.pos m))
  | S754_infinity false => (2, (0, 0))
  end%Z.

Definition lex (a b : Z * (Z * Z)) : comparison :=
  match (a.1 ?= b.1)%Z with
  | Eq => match (a.2.1 ?= b.2.1)%Z with
          | Eq => (a.2.2 ?= b.2.2)%Z
          | c => c
          end
  | c => c
  end.

(** The position of a JavaScript number. *)
Definition rank_of (a : JsNum.num) : Z * (Z * Z) := rank (Prim2SF a).

End NumberLine.

(* ===================================================================== *)
(** * EditorCanvas: zoom controls *)
(* ===================================================================== *)

Module Zoom.

Definition minZoom : JsNum.num := 0x1.999999999999ap-4%float.
Definition maxZoom : JsNum.num := 5%float.

Definition num_0 : JsNum.num := 0%float.
Definition num_1 : JsNum.num := 1%float.
Definition num_2 : JsNum.num := 2%float.
Definition num_20 : JsNum.num := 20%float.
Definition num_100 : JsNum.num := 100%float.
Definition num_1024 : JsNum.num := 1024%float.
Definition num_0_01 : JsNum.num := 0x1.47ae147ae147bp-7%float.

(** The props of the component the zoom code reads, defaults applied;
    a callback prop is either given or not. *)
Record Props : Type := mkProps {
  zoom : JsNum.num;
  onZoomChange : bool;
  autoFit : bool;
  onAutoFitChange : bool
}.

(** What a handler does: calls of the callback props and of the event. *)
Inductive Call : Type :=
  | PreventDefault
  | OnAutoFitChange (b : bool)
  | OnZoomChange (z : JsNum.num).

(** [if (onAutoFitChange) onAutoFitChange(false)]. *)
Definition disableAutoFit (p : Props) : list Call :=
  if onAutoFitChange p then [OnAutoFitChange false] else [].

(** [handleSliderChange]; [value] is [parseFloat(e.target.value)]. *)
Definition handleSliderChange (value : JsNum.num) (p : Props) : list Call :=
  if negb (PrimFloat.is_nan value) && onZoomChange p
  then
    let newZoom := JsMath.max minZoom (JsMath.min maxZoom (value / num_100)%js) in
    disableAutoFit p ++ [OnZoomChange newZoom]
  else [].

(** The part of a [WheelEvent] the handler reads. *)
Record WheelEvent : Type := mkWheelEvent {
  ctrlKey : bool;
  metaKey : bool;
  deltaY : JsNum.num
}.

Definition handleWheel (e : WheelEvent) (p : Props) : list Call :=
  if negb (ctrlKey e || metaKey e) || negb (onZoomChange p) then []
  else
    let zoomDelta := (JsMath.neg (deltaY e) * num_0_01)%js in
    let currentZoom := zoom p in
    let newZoom :=
      JsMath.max minZoom (JsMath.min maxZoom (currentZoom * (num_1 + zoomDelta))%js) in
    PreventDefault :: disableAutoFit p ++ [OnZoomChange newZoom].

(** [getBoundingClientRect()] of the canvas area. *)
Record Rect : Type := mkRect {
  rect_width : JsNum.num;
  rect_height : JsNum.num
}.

Definition padding : JsNum.num := num_20.

(** The space left for the canvas in one direction. *)
Definition available (extent : JsNum.num) : JsNum.num :=
  JsMath.max num_0 (extent - padding * num_2)%js.

(** The "Fit to Screen" button; [canvasArea] is [canvasAreaRef.current]. *)
Definition calculateMaxFitZoom (canvasArea : option Rect) (p : Props) : list Call :=
  match canvasArea with
  | None => []
  | Some areaRect =>
    if negb (onZoomChange p) then []
    else
      let maxWidth := available (rect_width areaRect) in
      let maxHeight := available (rect_height areaRect) in
      if JsMath.le maxWidth num_0 || JsMath.le maxHeight num_0 then []
      else
        let scaleX := (maxWidth / num_1024)%js in
        let scaleY := (maxHeight / num_1024)%js in
        let maxFitZoom := JsMath.min scaleX scaleY in
        if JsMath.lt num_0 maxFitZoom
        then
          let clampedZoom := JsMath.max minZoom (JsMath.min maxFitZoom maxZoom) in
          disableAutoFit p ++ [OnZoomChange clampedZoom]
        else []
  end.

(** [calculateAutoFitZoom], the callback of the auto-fit effect. *)
Definition calculateAutoFitZoom (canvasArea : option Rect) : list Call :=
  match canvasArea with
  | None => []
  | Some areaRect =>
    let maxWidth := available (rect_width areaRect) in
    let maxHeight := available (rect_height areaRect) in
    if JsMath.le maxWidth num_0 || JsMath.le maxHeight num_0 then []
    else
      let scaleX := (maxWidth / num_1024)%js in
      let scaleY := (maxHeight / num_1024)%js in
      let newZoom := JsMath.min scaleX scaleY in
      if JsMath.lt num_0 newZoom
      then
        let clampedZoom := JsMath.max minZoom (JsMath.min newZoom maxZoom) in
        [OnZoomChange clampedZoom]
      else []
  end.

(** The auto-fit effect: it schedules [calculateAutoFitZoom] for the next
    animation frame and for every window resize, unless auto-fit is off,
    the canvas area is not mounted or no zoom callback is given.
    [atMount] is the canvas area when the effect runs, [atCallback] the
    canvas area when a scheduled callback runs. *)
Definition autoFitEffect (p : Props) (atMount atCallback : option Rect) : list Call :=
  if negb (autoFit p) || negb (bool_decide (is_Some atMount)) || negb (onZoomChange p)
  then []
  else calculateAutoFitZoom atCallback.

(** The zoom values a list of calls passes to [onZoomChange]. *)
Definition requested (cs : list Call) : list JsNum.num :=
  omap (fun c => match c with OnZoomChange z => Some z | _ => None end) cs.

(** The scale at which a canvas of 1024 pixels fills the available space
    of an area of the given extent. *)
Definition fitScale (extent : JsNum.num) : JsNum.num :=
  (available extent / num_1024)%js.

End Zoom.

(* ===================================================================== *)
(** * components/layers/LineLayer *)
(* ===================================================================== *)

Module LineLayerComponent.
Import Model.

(** The kind-specific properties of a line layer live among the layer's
    remaining properties; each is read at its declared type. *)
Definition num_prop (k : string) (l : Layer) : option JsNum.num :=
  match other l !! k with
  | Some (VNum n) => Some n
  | _ => None
  end.

Definition bool_prop (k : string) (l : Layer) : option bool :=
  match other l !! k with
  | Some (VBool b) => Some b
  | _ => None
  end.

Definition str_prop (k : string) (l : Layer) : option string :=
  match other l !! k with
  | Some (VStr s) => Some s
  | _ => None
  end.

Definition num_4 : JsNum.num := 4%float.
Definition num_20 : JsNum.num := 20%float.
Definition num_3 : JsNum.num := 3%float.

(** [Math.max(layer.strokeWidth || 4, 20)]. *)
Definition hitStrokeWidth (layer : Layer) : JsNum.num :=
  JsMath.max (JsNum.or_opt (num_prop "strokeWidth" layer) num_4) num_20.

(** [s || d] for an optional string. *)
Definition or_str (s : option string) (d : string) : string :=
  if truthy_str s then default d s else d.

(** The props given to the Konva shape; [Handlers] stands for the event
    callbacks and the [draggable] flag, which are passed through. *)
Record ShapeProps (Handlers : Type) : Type := mkShapeProps {
  sp_id : string;
  sp_points : option (list (option JsNum.num));
  sp_x : JsNum.num;
  sp_y : JsNum.num;
  sp_rotation : JsNum.num;
  sp_scaleX : JsNum.num;
  sp_scaleY : JsNum.num;
  sp_opacity : JsNum.num;
  sp_visible : bool;
  sp_stroke : option string;
  sp_strokeWidth : option JsNum.num;
  sp_lineCap : string;
  sp_lineJoin : string;
  sp_dash : option JsVal;
  sp_listening : bool;
  sp_hitStrokeWidth : JsNum.num;
  sp_perfectDrawEnabled : bool;
  sp_handlers : Handlers
}.

Arguments mkShapeProps {Handlers}.
Arguments sp_id {Handlers}.
Arguments sp_listening {Handlers}.
Arguments sp_hitStrokeWidth {Handlers}.
Arguments sp_strokeWidth {Handlers}.
Arguments sp_handlers {Handlers}.

(** [w * 3] where [w] may be [undefined]. *)
Definition times_3 (w : option JsNum.num) : JsNum.num :=
  match w with
  | Some v => (v * num_3)%js
  | None => JsNum.nan
  end.

(** What the component returns. *)
Inductive Element (Handlers : Type) : Type :=
  | Line (props : ShapeProps Handlers)
  | Arrow (props : ShapeProps Handlers)
          (pointerAtBeginning pointerAtEnding : option bool)
          (pointerLength pointerWidth : JsNum.num) (fillColor : option string).

Arguments Line {Handlers}.
Arguments Arrow {Handlers}.

Definition props_of {Handlers} (e : Element Handlers) : ShapeProps Handlers :=
  match e with
  | Line p => p
  | Arrow p _ _ _ _ _ => p
  end.

Definition LineLayer {Handlers} (layer : Layer) (id_prop : option string)
                     (handlers : Handlers) : Element Handlers :=
  let hitStrokeWidth := hitStrokeWidth layer in
  let commonProps :=
    mkShapeProps (or_str id_prop (id layer)) (points layer) (x layer) (y layer)
                 (rotation layer) (scaleX layer) (scaleY layer)
                 (opacity layer) (visible layer)
                 (str_prop "stroke" layer) (num_prop "strokeWidth" layer)
                 (or_str (str_prop "lineCap" layer) "round")
                 (or_str (str_prop "lineJoin" layer) "round")
                 (other layer !! "dash")
                 (negb (locked layer)) hitStrokeWidth false handlers in
  if default false (bool_prop "arrowStart" layer)
     || default false (bool_prop "arrowEnd" layer)
  then Arrow commonProps (bool_prop "arrowStart" layer) (bool_prop "arrowEnd" layer)
             (times_3 (num_prop "strokeWidth" layer))
             (times_3 (num_prop "strokeWidth" layer))
             (str_prop "stroke" layer)
  else Line commonProps.

End LineLayerComponent.

(* ===================================================================== *)
(** * EditorCanvas: sequences of gesture events *)
(* ===================================================================== *)

Module Gestures.
Import Model Canvas.

(** A call of one of the four gesture handlers, with the event's target
    node and the layer identifier the handler was bound to. *)
Inductive Event : Type :=
  | DragStart (n : Node)
  | DragEnd (n : Node) (layerId : string)
  | TransformStart (n : Node) (layerId : string)
  | TransformEnd (n : Node) (layerId : string).

Definition handle (e : Event) (st : State) : Node * State :=
  match e with
  | DragStart n => handleDragStart n st
  | DragEnd n i => handleDragEnd n i st
  | TransformStart n i => handleTransformStart n i st
  | TransformEnd n i => handleTransformEnd n i st
  end.

(** The state after a sequence of handler calls. *)
Definition run (es : list Event) (st : State) : State :=
  fold_left (fun s e => (handle e s).2) es st.

(** Everything about a layer except its placement (position, rotation,
    scale) and its width and height. *)
Definition identity (l : Layer) :=
  (id l, type l, name l, visible l, locked l, opacity l,
   (radius l, numPoints l, innerRadius l, outerRadius l, points l),
   (src l, fillImageDataUrl l, other l)).

(** A whole resize gesture on the node of a layer, as the layer's props
    wire it: [transformstart], then [transformend] with the node as the
    transformer left it. *)
Definition resizeGesture (layer : Layer) (atStart atEnd : Node) (st : State) : State :=
  let st1 := (fire (onTransformStart (commonProps st layer)) atStart st).2 in
  (fire (onTransformEnd (commonProps st1 layer)) atEnd st1).2.

(** A whole drag of the node of a layer: [dragstart], then [dragend] with
    the node where it was dropped.  Konva moves the node in between; the
    handlers only touch its opacity. *)
Definition dragGesture (layer : Layer) (n : Node) (dropX dropY : JsNum.num)
                       (st : State) : Node * State :=
  let '(n1, st1) := fire (onDragStart (commonProps st layer)) n st in
  let dropped := mkNode dropX dropY (node_rotation n1) (node_scaleX n1)
                        (node_scaleY n1) (node_opacity n1) (node_onStage n1) in
  fire (onDragEnd (commonProps st1 layer)) dropped st1.

End Gestures.

(* ===================================================================== *)
(** * JSON values *)
(* ===================================================================== *)

Module JsonValue.

(** What [JSON.parse] returns. *)
#[warnings="-register-all"]
Inductive Json : Type :=
  | JNull
  | JBool (b : bool)
  | JNum (n : JsNum.num)
  | JStr (s : string)
  | JArr (elems : list Json)
  | JObj (fields : list (string * Json)).

(** The own property [k] of an object. *)
Fixpoint field (k : string) (fields : list (string * Json)) : option Json :=
  match fields with
  | [] => None
  | (k', v) :: r => if String.eqb k' k then Some v else field k r
  end.

(** [v.k] for a property name that no prototype defines: [undefined] on
    numbers, strings, booleans, arrays and on objects without the
    property; a TypeError on [null] ([None] here). *)
Definition get_prop (k : string) (v : Json) : option (option Json) :=
  match v with
  | JNull => None
  | JObj fields => Some (field k fields)
  | _ => Some None
  end.

(** ToBoolean; [None] is [undefined]. *)
Definition truthy (v : option Json) : bool :=
  match v with
  | None => false
  | Some JNull => false
  | Some (JBool b) => b
  | Some (JNum n) => JsNum.truthy n
  | Some (JStr s) => negb (String.eqb s "")
  | Some (JArr _) => true
  | Some (JObj _) => true
  end.

End JsonValue.

(* ===================================================================== *)
(** * utils/localStorageProject *)
(* ===================================================================== *)

Module LocalStorageProject.
Import JsM JsonValue.

Definition STORAGE_KEY : string := "tesla_wrap_unsaved_project".

(** A line written to the console. *)
Inductive Log : Type :=
  | ConsoleError (message : string) (error : JsError)
  | ConsoleWarn (message : string).

(** The browser as these functions see it: the items of [localStorage]
    and the console. *)
Record Browser : Type := mkBrowser {
  items : gmap string string;
  console : list Log
}.

Definition securityError : JsError := mkError "SecurityError".
Definition quotaExceededError : JsError := mkError "QuotaExceededError".
Definition syntaxError : JsError := mkError "SyntaxError".
Definition typeError : JsError := mkError "TypeError".

Section Storage.

(** The type of [ProjectFile] values and [JSON.stringify] on them, which
    throws on values it cannot serialize. *)
Variable Project : Type.
Variable JSON_stringify : Project -> option string.

(** [JSON.parse], which throws on malformed text. *)
Variable JSON_parse : string -> option Json.

(** Whether the browser denies access to [localStorage] (every access
    throws), and whether an item still fits into the quota. *)
Variable denied : bool.
Variable fits : gmap string string -> string -> string -> bool.

(** Reading the global [localStorage]. *)
Definition localStorage : M Browser unit :=
  if denied then throw securityError else ret tt.

Definition setItem (k v : string) : M Browser unit :=
  fun b =>
  if fits (items b) k v
  then (Returns tt, mkBrowser (<[k := v]> (items b)) (console b))
  else (Throws quotaExceededError, b).

Definition getItem (k : string) : M Browser (option string) :=
  fun b => (Returns (items b !! k), b).

Definition removeItem (k : string) : M Browser unit :=
  fun b => (Returns tt, mkBrowser (delete k (items b)) (console b)).

Definition console_error (message : string) (error : JsError) : M Browser unit :=
  fun b => (Returns tt, mkBrowser (items b) (console b ++ [ConsoleError message error])).

Definition console_warn (message : string) : M Browser unit :=
  fun b => (Returns tt, mkBrowser (items b) (console b ++ [ConsoleWarn message])).

Definition stringify (project : Project) : M Browser string :=
  match JSON_stringify project with
  | Some s => ret s
  | None => throw typeError
  end.

Definition parse (text : string) : M Browser Json :=
  match JSON_parse text with
  | Some v => ret v
  | None => throw syntaxError
  end.

(** [v.k] in a condition. *)
Definition prop (k : string) (v : Json) : M Browser (option Json) :=
  match get_prop k v with
  | Some r => ret r
  | None => throw typeError
  end.

Definition saveProjectToLocalStorage (project : Project) : M Browser unit :=
  try_catch
    (localStorage ;;;
     text <- stringify project ;;
     setItem STORAGE_KEY text)%jsm
    (fun error => console_error "Failed to save project to localStorage:" error).

Definition loadProjectFromLocalStorage : M Browser (option Json) :=
  try_catch
    (localStorage ;;;
     stored <- getItem STORAGE_KEY ;;
     if negb (truthy_str stored) then ret None
     else
       project <- parse (default "" stored) ;;
       version <- prop "version" project ;;
       if negb (truthy version)
       then console_warn "Invalid project data in localStorage" ;;; ret None
       else
         layers <- prop "layers" project ;;
         if negb (truthy layers)
         then console_warn "Invalid project data in localStorage" ;;; ret None
         else
           modelId <- prop "modelId" project ;;
           if negb (truthy modelId)
           then console_warn "Invalid project data in localStorage" ;;; ret None
           else ret (Some project))%jsm
    (fun error =>
       (console_error "Failed to load project from localStorage:" error ;;; ret None)%jsm).

Definition clearSavedProject : M Browser unit :=
  try_catch
    (localStorage ;;; removeItem STORAGE_KEY)%jsm
    (fun error => console_error "Failed to clear saved project from localStorage:" error).

(** ** Statements about the stored project *)

(** A parsed value passes the structure check of the loader: it is an
    object whose [version], [layers] and [modelId] are truthy. *)
Definition validProject (v : Json) : Prop :=
  exists fields,
    v = JObj fields
    /\ truthy (field "version" fields) = true
    /\ truthy (field "layers" fields) = true
    /\ truthy (field "modelId" fields) = true.

(** The functions leave every other item of the storage alone. *)
Definition otherItemsKept (b b' : Browser) : Prop :=
  forall k, k <> STORAGE_KEY -> items b' !! k = items b !! k.

End Storage.

End LocalStorageProject.

(* ===================================================================== *)
(** * utils/assets *)
(* ===================================================================== *)

Module Assets.

(** The value a glob import maps a path to: a URL string, or something
    else. *)
Inductive ModuleValue : Type :=
  | MString (s : string)
  | MOther.

(** A module table of [import.meta.glob], in the order of its keys. *)
Definition Glob : Type := list (string * ModuleValue).

(** [table[key]]. *)
Fixpoint lookup (key : string) (table : Glob) : option ModuleValue :=
  match table with
  | [] => None
  | (k, v) :: r => if String.eqb k key then Some v else lookup key r
  end.

(** [module && typeof module === 'string']: the URL, if the value is a
    non-empty string. *)
Definition url_of (m : option ModuleValue) : option string :=
  match m with
  | Some (MString s) => if String.eqb s "" then None else Some s
  | _ => None
  end.

(** [s.includes(p)]. *)
Fixpoint includes (p s : string) : bool :=
  Serializer.startsWith p s
  || match s with
     | String _ r => includes p r
     | EmptyString => false
     end.

(** [s.endsWith(p)]. *)
Fixpoint endsWith (p s : string) : bool :=
  String.eqb s p
  || match s with
     | String _ r => endsWith p r
     | EmptyString => false
     end.

(** The first element a loop returns from. *)
Fixpoint first_of {A B} (f : A -> option B) (xs : list A) : option B :=
  match xs with
  | [] => None
  | x :: r => match f x with
              | Some y => Some y
              | None => first_of f r
              end
  end.

Section Tables.

Variable templateModules : Glob.
Variable gltfModules : Glob.
Variable glbModules : Glob.
Variable vehicleImageModules : Glob.

(** [new URL(path, import.meta.url).href]. *)
Variable href : string -> string.

(** [modelyGlbUrl]: the URL built at module load, [null] if that failed. *)
Variable modelyGlbUrl : option string.

Definition getTemplateUrl (folderName : string) : string :=
  let path := "../assets/wraps/" +:+ folderName +:+ "/template.png" in
  match url_of (lookup path templateModules) with
  | Some module => module
  | None => href ("../assets/wraps/" +:+ folderName +:+ "/template.png")
  end.

Definition getVehicleImageUrl (folderName : string) : string :=
  let path := "../assets/wraps/" +:+ folderName +:+ "/vehicle_image.png" in
  match url_of (lookup path vehicleImageModules) with
  | Some module => module
  | None => href ("../assets/wraps/" +:+ folderName +:+ "/vehicle_image.png")
  end.

Definition fallbackFilenames : list string :=
  ["ModelY_High.glb"; "ModelY_High.gltf"; "vehicle.glb"; "vehicle.gltf";
   "model.glb"; "model.gltf"].

Definition fallbackFolders (folderName : string) : list string :=
  if String.eqb folderName "modely"
  then [folderName +:+ "/Y_High"; folderName]
  else [folderName].

(** The steps of [getGltfUrl], each returning from the function when it
    finds something. *)
Definition modelyStep (folderName : string) : option string :=
  if String.eqb folderName "modely"
  then
    match url_of (lookup "../assets/wraps/modely/Y_High/ModelY_High.glb" glbModules) with
    | Some globUrl => Some globUrl
    | None => if truthy_str modelyGlbUrl then modelyGlbUrl else None
    end
  else None.

Definition glbStep (folderName : string) : option string :=
  first_of (fun e : string * ModuleValue =>
              if includes ("/" +:+ folderName +:+ "/") e.1 && endsWith ".glb" e.1
              then url_of (Some e.2) else None)
           glbModules.

Definition gltfStep (folderName : string) : option string :=
  first_of (fun e : string * ModuleValue =>
              if includes ("/" +:+ folderName +:+ "/3D/") e.1
              then url_of (Some e.2) else None)
           gltfModules.

Definition fallbackStep (folderName : string) : option string :=
  first_of (fun fallbackFolder =>
              first_of (fun filename =>
                          Some ("/src/assets/wraps/" +:+ fallbackFolder +:+ "/" +:+ filename))
                       fallbackFilenames)
           (fallbackFolders folderName).

(** [getGltfUrl]; [None] is [null]. *)
Definition getGltfUrl (folderName : string) : option string :=
  match modelyStep folderName with
  | Some url => Some url
  | None =>
    match glbStep folderName with
    | Some url => Some url
    | None =>
      match gltfStep folderName with
      | Some url => Some url
      | None =>
        match fallbackStep folderName with
        | Some path => Some path
        | None => None
        end
      end
    end
  end.

End Tables.

End Assets.

(* ===================================================================== *)
(** * components/PublishDialog: handlePublish *)
(* ===================================================================== *)

Module PublishDialog.
Import JsM.

(** The signed-in user, as far as the dialog reads it. *)
Record User : Type := mkUser {
  user_id : string
}.

(** The React state of the dialog that [handlePublish] reads and
    writes. *)
Record Dialog : Type := mkDialog {
  title : string;
  description : string;
  uploading : bool;
  error : option string;
  success : option string
}.

(** A callback handed to [setTimeout]: here always "close the dialog and
    open the gallery page in a new tab". *)
Inductive Timer : Type :=
  | CloseAndOpen (delay : Z) (url : string).

Section HandlePublish.

(** The collaborators of [publishDesign]. *)
Variable World : Type.
Variable supabase : option (Publish.SupabaseClient World).
Variable randomUUID : M World string.
Variable fetch_blob : string -> M World Publish.Blob.

(** The collaborators of [projectToBlob] and of the export. *)
Variable atob : string -> option string.
Variable now : string.
Variable generateAsync : gmap string Serializer.ZipEntry -> list Byte.byte.
Variable toDataURL : Exporter.Config -> Exporter.KNode -> list Exporter.ref -> string.

(** The store's [getSerializedState], which builds the project object. *)
Variable getSerializedState : M (gmap Serializer.loc Serializer.Obj) Serializer.loc.

(** [import.meta.env.VITE_GALLERY_URL] and [window.location.origin]. *)
Variable VITE_GALLERY_URL : option string.
Variable origin : string.

(** Everything a publish can touch: the dialog, the visibility of the
    stage's nodes, the heap of project objects, the outside world and the
    pending timers. *)
Record Session : Type := mkSession {
  dialog : Dialog;
  visibility : Exporter.Visibility;
  heap : gmap Serializer.loc Serializer.Obj;
  world : World;
  timers : list Timer
}.

Definition with_dialog (f : Dialog -> Dialog) : M Session unit :=
  fun s => (Returns tt,
            mkSession (f (dialog s)) (visibility s) (heap s) (world s) (timers s)).

Definition setError (e : option string) : M Session unit :=
  with_dialog (fun d => mkDialog (title d) (description d) (uploading d) e (success d)).

Definition setUploading (b : bool) : M Session unit :=
  with_dialog (fun d => mkDialog (title d) (description d) b (error d) (success d)).

Definition setSuccess (m : option string) : M Session unit :=
  with_dialog (fun d => mkDialog (title d) (description d) (uploading d) (error d) m).

Definition setTimeout (t : Timer) : M Session unit :=
  fun s => (Returns tt,
            mkSession (dialog s) (visibility s) (heap s) (world s) (timers s ++ [t])).

(** [await exportPngAsDataUrl(stage)]. *)
Definition exportPng (stage : Exporter.KNode) : M Session (option string) :=
  fun s =>
  let out := Exporter.exportPngAsDataUrl toDataURL (Some stage) (visibility s) in
  (Returns out.1,
   mkSession (dialog s) (Exporter.vis out.2) (heap s) (world s) (timers s)).

(** [getSerializedState()]. *)
Definition serialized : M Session Serializer.loc :=
  fun s =>
  let '(r, h) := getSerializedState (heap s) in
  (r, mkSession (dialog s) (visibility s) h (world s) (timers s)).

(** [await projectToBlob(projectData)]. *)
Definition toBlob (projectData : Serializer.loc) : M Session Publish.Blob :=
  fun s =>
  let '(r, st) := Serializer.projectToBlob atob now generateAsync projectData
                    (Serializer.enter (heap s)) in
  (r, mkSession (dialog s) (visibility s) (Serializer.heap st) (world s) (timers s)).

(** [await publishDesign(...)]. *)
Definition publish (title : string) (description : option string)
                   (modelId previewDataUrl : string) (projectBlob : Publish.Blob)
                   (userId : string) : M Session Publish.PublishResult :=
  fun s =>
  let '(r, w) := Publish.publishDesign World supabase randomUUID fetch_blob
                   title description modelId previewDataUrl projectBlob userId
                   (world s) in
  (r, mkSession (dialog s) (visibility s) (heap s) w (timers s)).

Definition publishFallback : string := "Failed to publish design. Please try again.".
Definition publishedMessage : string := "Design published! View it in the gallery.".

(** [VITE_GALLERY_URL || origin.replace('studio', 'gallery') ||
    'https://gallery.tesla-wrap.com']. *)
Definition galleryBaseUrl : string :=
  LineLayerComponent.or_str VITE_GALLERY_URL
    (LineLayerComponent.or_str
       (Some (Serializer.replace_first "studio" "gallery" origin))
       "https://gallery.tesla-wrap.com").

(** [handlePublish]; [user], [stageRef.current] and [currentModelId] are
    what the component closed over. *)
Definition handlePublish (user : option User) (stageRef : option Exporter.KNode)
                         (currentModelId : string) : M Session unit :=
  (s <- get ;;
   let title := title (dialog s) in
   let description := description (dialog s) in
   match user with
   | None => setError (Some "Please log in first")
   | Some user =>
     if String.eqb (Publish.trim title) ""
     then setError (Some "Please enter a title")
     else
       match stageRef with
       | None => setError (Some "Canvas not available")
       | Some stage =>
         setUploading true ;;;
         setError None ;;;
         try_catch
           (previewDataUrl <- exportPng stage ;;
            if negb (truthy_str previewDataUrl)
            then throw (mkError "Failed to export preview image")
            else
              projectData <- serialized ;;
              projectBlob <- toBlob projectData ;;
              r <- publish title
                     (if String.eqb description "" then None else Some description)
                     currentModelId (default "" previewDataUrl) projectBlob
                     (user_id user) ;;
              match Publish.error r with
              | Some publishError => throw publishError
              | None =>
                let galleryUrl := galleryBaseUrl +:+ "/design/" +:+ Publish.designId r in
                setSuccess (Some publishedMessage) ;;;
                setTimeout (CloseAndOpen 2000 galleryUrl)
              end)
           (fun err =>
              let 'mkError message := err in
              setError (Some (LineLayerComponent.or_str (Some message) publishFallback)) ;;;
              setUploading false)
       end
   end)%jsm.

(** ** Statements about a publish *)

(** The session with another dialog and everything else as it was. *)
Definition same_but_dialog (s s' : Session) : Prop :=
  (forall r, visibility s' r = visibility s r)
  /\ heap s' = heap s /\ world s' = world s /\ timers s' = timers s.

(** The dialog showing the error [msg], everything else as it was. *)
Definition shows_error (msg : string) (d d' : Dialog) : Prop :=
  d' = mkDialog (title d) (description d) (uploading d) (Some msg) (success d).

End HandlePublish.

End PublishDialog.

(* ===================================================================== *)
(** * components/AIGeneratorDialog: talking to the prediction API *)
(* ===================================================================== *)

From Stdlib Require Import DecimalString.

Module Replicate.
Import JsM JsonValue.

(** An integer as a JavaScript number, rounded to the nearest double. *)
Definition num_of_Z (z : Z) : JsNum.num :=
  SF2Prim (SpecFloat.binary_normalize FloatOps.prec FloatOps.emax z 0 false).

Definition num_of_nat (n : nat) : JsNum.num := num_of_Z (Z.of_nat n).

(** The [RequestInit] of a [fetch]. *)
Record Request : Type := mkRequest {
  method : option string;
  headers : list (string * string);
  body : option string
}.

(** A [Response]: its status and what [response.json()] resolves to,
    [None] when that promise rejects. *)
Record Response : Type := mkResponse {
  status : nat;
  json : option Json
}.

(** [response.ok]: the status is in the range 200-299. *)
Definition ok (r : Response) : bool :=
  (200 <=? status r)%nat && (status r <=? 299)%nat.

(** The text of [state.error]: a plain message, or the notice
    "Rate limited. Retrying in <ceil(waitTime / 1000)>s...
    (<attempt + 1>/<maxRetries>)", kept by its parameters. *)
Inductive ErrorText : Type :=
  | Text (s : string)
  | RateLimitNotice (waitTime : JsNum.num) (attempt maxRetries : nat).

(** [text.includes('Rate limited')]. *)
Definition mentionsRateLimit (t : ErrorText) : bool :=
  match t with
  | Text s => Assets.includes "Rate limited" s
  | RateLimitNotice _ _ _ => true
  end.

(** [GenerationState]. *)
Record GenerationState : Type := mkGenerationState {
  loading : bool;
  error : option ErrorText;
  images : list string;
  selectedIndex : option nat
}.

(** ** The pattern [/resets in ~(\d+)s/] *)

Definition is_digit (c : ascii) : bool :=
  let n := nat_of_ascii c in (48 <=? n)%nat && (n <=? 57)%nat.

(** The longest run of digits a text starts with, and what follows. *)
Fixpoint digits_prefix (s : string) : string * string :=
  match s with
  | String c r =>
    if is_digit c
    then let '(d, rest) := digits_prefix r in (String c d, rest)
    else (EmptyString, s)
  | EmptyString => (EmptyString, EmptyString)
  end.

(** A match that starts at the first character: the captured digits. *)
Definition match_here (s : string) : option string :=
  if Serializer.startsWith "resets in ~" s
  then
    let '(d, rest) := digits_prefix (Serializer.drop_chars 11 s) in
    if String.eqb d "" then None
    else match rest with
         | String c _ => if Ascii.eqb c "s" then Some d else None
         | EmptyString => None
         end
  else None.

(** [text.match(/resets in ~(\d+)s/)]: the capture of the leftmost
    match. *)
Fixpoint match_resets (s : string) : option string :=
  match match_here s with
  | Some d => Some d
  | None =>
    match s with
    | String _ r => match_resets r
    | EmptyString => None
    end
  end.

(** [parseInt] on a run of digits. *)
Definition parseInt (digits : string) : JsNum.num :=
  num_of_Z (fold_left (fun acc c => (acc * 10 + Z.of_nat (nat_of_ascii c - 48))%Z)
                      (list_ascii_of_string digits) 0%Z).

Definition num_500 : JsNum.num := 500%float.
Definition num_1000 : JsNum.num := 1000%float.
Definition num_2000 : JsNum.num := 2000%float.

Definition typeError : JsError := mkError "TypeError".

(** [errorData.detail?.match(/resets in ~(\d+)s/)]: reading [detail] of
    [null] throws, and so does calling [match] on a [detail] that is
    neither a string nor missing. *)
Definition waitMatch (errorData : Json) : option (option string) :=
  match get_prop "detail" errorData with
  | None => None
  | Some None => Some None
  | Some (Some JNull) => Some None
  | Some (Some (JStr detail)) => Some (match_resets detail)
  | Some (Some _) => None
  end.

Section Network.

(** The network and everything behind it. *)
Variable World : Type.

(** [fetch(url, options)]; it throws when the request cannot be made. *)
Variable fetch : string -> Request -> M World Response.

(** ToString on a JSON value, as [new Error(value)] applies it. *)
Variable toString : Json -> string.

(** What the helpers act on: the network, the requests made and the
    pauses taken so far, and the dialog's generation state.  Console
    output is not kept. *)
Record Net : Type := mkNet {
  world : World;
  requests : list (string * Request);
  sleeps : list JsNum.num;
  state : GenerationState
}.

(** [await fetch(url, options)]. *)
Definition do_fetch (url : string) (options : Request) : M Net Response :=
  fun s =>
  let '(r, w) := fetch url options (world s) in
  (r, mkNet w (requests s ++ [(url, options)]) (sleeps s) (state s)).

(** [await sleep(ms)]. *)
Definition sleep (ms : JsNum.num) : M Net unit :=
  fun s => (Returns tt, mkNet (world s) (requests s) (sleeps s ++ [ms]) (state s)).

(** [setState(prev => ...)]. *)
Definition setState (f : GenerationState -> GenerationState) : M Net unit :=
  fun s => (Returns tt, mkNet (world s) (requests s) (sleeps s) (f (state s))).

Definition with_error (e : option ErrorText) (g : GenerationState) : GenerationState :=
  mkGenerationState (loading g) e (images g) (selectedIndex g).

(** The wait of a rate-limited attempt:
    [waitMatch ? parseInt(waitMatch[1]) * 1000 : (attempt + 1) * 2000]. *)
Definition rateLimitWait (waitMatch : option string) (attempt : nat) : JsNum.num :=
  match waitMatch with
  | Some digits => (parseInt digits * num_1000)%js
  | None => (num_of_nat (attempt + 1) * num_2000)%js
  end.

(** [prev => prev.error?.includes('Rate limited')
              ? { ...prev, error: null } : prev]. *)
Definition clearRateLimit (prev : GenerationState) : GenerationState :=
  if default false (mentionsRateLimit <$> error prev)
  then with_error None prev else prev.

(** [await response.json().catch(() => ({}))]. *)
Definition json_or_empty (r : Response) : Json := default (JObj []) (json r).

(** The [try] block of one attempt: [Some response] when it returns from
    the function, [None] when it continues with the next attempt. *)
Definition tryAttempt (url : string) (options : Request) (attempt maxRetries : nat)
  : M Net (option Response) :=
  (response <- do_fetch url options ;;
   if (status response =? 429)%nat
   then
     let errorData := json_or_empty response in
     match waitMatch errorData with
     | None => throw typeError
     | Some waitMatch =>
       let waitTime := rateLimitWait waitMatch attempt in
       setState (with_error (Some (RateLimitNotice waitTime attempt maxRetries))) ;;;
       sleep (waitTime + num_500)%js ;;;
       ret None
     end
   else
     setState clearRateLimit ;;;
     ret (Some response))%jsm.

(** The [for] loop from [attempt] on, with [remaining] attempts left. *)
Fixpoint attemptsFrom (remaining : nat) (url : string) (options : Request)
                      (attempt maxRetries : nat) (lastError : option JsError)
  : M Net Response :=
  match remaining with
  | O => throw (default (mkError "Max retries exceeded") lastError)
  | S remaining' =>
    fun s =>
    match tryAttempt url options attempt maxRetries s with
    | (Returns (Some response), s') => (Returns response, s')
    | (Returns None, s') =>
      attemptsFrom remaining' url options (attempt + 1) maxRetries lastError s'
    | (Throws error, s') =>
      ((if (attempt <? maxRetries - 1)%nat
        then sleep (num_of_nat (attempt + 1) * num_1000)%js
        else ret tt) ;;;
       attemptsFrom remaining' url options (attempt + 1) maxRetries (Some error))%jsm s'
    end
  end.

(** [fetchWithRetry(url, options, maxRetries)]; the counters are small
    integers. *)
Definition fetchWithRetry (url : string) (options : Request) (maxRetries : nat)
  : M Net Response :=
  attemptsFrom maxRetries url options 0 maxRetries None.

Definition REPLICATE_API_BASE : string := "/api/replicate".

(** [new Error(value || fallback)] for a JSON value or [undefined]. *)
Definition error_of (v : option Json) (fallback : string) : JsError :=
  if truthy v
  then mkError match v with
               | Some (JStr s) => s
               | Some j => toString j
               | None => fallback
               end
  else mkError fallback.

(** [response.status] in a template string. *)
Definition show_status (r : Response) : string :=
  NilEmpty.string_of_uint (Nat.to_uint (status r)).

(** [v.k] on a value that may be [null]. *)
Definition prop (k : string) (v : Json) : M Net (option Json) :=
  match get_prop k v with
  | Some r => ret r
  | None => throw typeError
  end.

(** [await response.json()]. *)
Definition read_json (r : Response) : M Net Json :=
  match json r with
  | Some v => ret v
  | None => throw (mkError "SyntaxError")
  end.

Definition is_str (s : string) (v : option Json) : bool :=
  match v with
  | Some (JStr t) => String.eqb t s
  | _ => false
  end.

(** The request of a poll. *)
Definition pollUrl (predictionId : string) : string :=
  REPLICATE_API_BASE +:+ "/v1/predictions/" +:+ predictionId.

Definition pollOptions (token : string) : Request :=
  mkRequest None [("Authorization", "Bearer " +:+ token)] None.

(** One round of the polling loop: [Some prediction] when the function
    returns, [None] when it goes on polling. *)
Definition pollOnce (predictionId token : string) : M Net (option Json) :=
  (response <- fetchWithRetry (pollUrl predictionId) (pollOptions token) 2 ;;
   if negb (ok response)
   then
     detail <- prop "detail" (json_or_empty response) ;;
     throw (error_of detail ("API error: " +:+ show_status response))
   else
     prediction <- read_json response ;;
     st <- prop "status" prediction ;;
     if is_str "succeeded" st then ret (Some prediction)
     else if is_str "failed" st || is_str "canceled" st
     then
       e <- prop "error" prediction ;;
       throw (error_of e "Prediction failed")
     else sleep num_2000 ;;; ret None)%jsm.

(** The [while] loop with [remaining] rounds left. *)
Fixpoint pollFrom (remaining : nat) (predictionId token : string) : M Net Json :=
  match remaining with
  | O => throw (mkError "Generation timed out. Please try again.")
  | S remaining' =>
    (r <- pollOnce predictionId token ;;
     match r with
     | Some prediction => ret prediction
     | None => pollFrom remaining' predictionId token
     end)%jsm
  end.

Definition maxAttempts : nat := 60.

Definition pollPrediction (predictionId token : string) : M Net Json :=
  pollFrom maxAttempts predictionId token.

(** The requests made and the pauses taken by a computation. *)
Definition made {A} (c : M Net A) (s : Net) : list (string * Request) :=
  drop (length (requests s)) (requests (c s).2).

Definition paused {A} (c : M Net A) (s : Net) : list JsNum.num :=
  drop (length (sleeps s)) (sleeps (c s).2).

End Network.

End Replicate.

(* ===================================================================== *)
(** * components/SaveDialog: handleSave *)
(* ===================================================================== *)

Module SaveDialog.
Import JsM.

(** The signed-in user, as far as the dialog reads it. *)
Record User : Type := mkUser {
  email : option string;
  email_confirmed_at : option string
}.

Inductive DesignVisibility : Set := public | private.

(** The React state of the dialog that [handleSave] reads and writes. *)
Record Dialog : Type := mkDialog {
  editingName : string;
  previewDataUrl : option string;
  saving : bool;
  error : option string;
  success : bool;
  description : string;
  visibility : DesignVisibility
}.

(** The last argument of [saveProjectToSupabase]. *)
Record SaveOptions : Type := mkSaveOptions {
  opt_description : option string;
  opt_visibility : DesignVisibility
}.

(** A call of [saveProjectToSupabase]: the project object as it is at the
    time of the call, the preview, the design to update and the
    options. *)
Record SaveCall : Type := mkSaveCall {
  call_project : option Serializer.Obj;
  call_preview : string;
  call_designId : option string;
  call_options : SaveOptions
}.

(** The calls of the store's setters. *)
Inductive StoreCall : Type :=
  | SetProjectName (name : string)
  | SetDesignId (id : string)
  | MarkAsSaved.

(** The callback handed to [setTimeout]: [onSuccess?.(); onClose()]. *)
Inductive Timer : Type :=
  | SuccessAndClose (delay : Z).

Section HandleSave.

Variable World : Type.

(** [saveProjectToSupabase] of utils/supabaseProjects: it resolves to the
    identifier of the saved design, or rejects. *)
Variable saveProjectToSupabase :
  Serializer.loc -> string -> option string -> SaveOptions ->
  M (gmap Serializer.loc Serializer.Obj * World) string.

Variable toDataURL : Exporter.Config -> Exporter.KNode -> list Exporter.ref -> string.

(** The store's [getSerializedState]. *)
Variable getSerializedState : M (gmap Serializer.loc Serializer.Obj) Serializer.loc.

Record Session : Type := mkSession {
  dialog : Dialog;
  nodes : Exporter.Visibility;
  heap : gmap Serializer.loc Serializer.Obj;
  world : World;
  storeCalls : list StoreCall;
  saveCalls : list SaveCall;
  timers : list Timer
}.

Definition with_dialog (f : Dialog -> Dialog) : M Session unit :=
  fun s => (Returns tt,
            mkSession (f (dialog s)) (nodes s) (heap s) (world s)
                      (storeCalls s) (saveCalls s) (timers s)).

Definition setError (e : option string) : M Session unit :=
  with_dialog (fun d => mkDialog (editingName d) (previewDataUrl d) (saving d) e
                                 (success d) (description d) (visibility d)).

Definition setSaving (b : bool) : M Session unit :=
  with_dialog (fun d => mkDialog (editingName d) (previewDataUrl d) b (error d)
                                 (success d) (description d) (visibility d)).

Definition setSuccess (b : bool) : M Session unit :=
  with_dialog (fun d => mkDialog (editingName d) (previewDataUrl d) (saving d) (error d)
                                 b (description d) (visibility d)).

Definition setPreviewDataUrl (p : option string) : M Session unit :=
  with_dialog (fun d => mkDialog (editingName d) p (saving d) (error d)
                                 (success d) (description d) (visibility d)).

Definition store (c : StoreCall) : M Session unit :=
  fun s => (Returns tt,
            mkSession (dialog s) (nodes s) (heap s) (world s)
                      (storeCalls s ++ [c]) (saveCalls s) (timers s)).

Definition setTimeout (t : Timer) : M Session unit :=
  fun s => (Returns tt,
            mkSession (dialog s) (nodes s) (heap s) (world s)
                      (storeCalls s) (saveCalls s) (timers s ++ [t])).

(** [await exportPngAsDataUrl(stage)]. *)
Definition exportPng (stage : Exporter.KNode) : M Session (option string) :=
  fun s =>
  let out := Exporter.exportPngAsDataUrl toDataURL (Some stage) (nodes s) in
  (Returns out.1,
   mkSession (dialog s) (Exporter.vis out.2) (heap s) (world s)
             (storeCalls s) (saveCalls s) (timers s)).

(** [getSerializedState()]. *)
Definition serialized : M Session Serializer.loc :=
  fun s =>
  let '(r, h) := getSerializedState (heap s) in
  (r, mkSession (dialog s) (nodes s) h (world s)
                (storeCalls s) (saveCalls s) (timers s)).

(** [project.name = name]. *)
Definition assignName (project : Serializer.loc) (name : string) : M Session unit :=
  fun s =>
  (Returns tt,
   mkSession (dialog s) (nodes s)
     (alter (fun o => match o with
                      | Serializer.OProject p =>
                        Serializer.OProject
                          (Serializer.mkProjectFile
                             (Serializer.version p) name (Serializer.createdAt p)
                             (Serializer.modelId p) (Serializer.baseColor p)
                             (Serializer.layers p))
                      | _ => o
                      end) project (heap s))
     (world s) (storeCalls s) (saveCalls s) (timers s)).

(** [await saveProjectToSupabase(project, preview, designId, options)]. *)
Definition save (project : Serializer.loc) (preview : string)
                (designId : option string) (options : SaveOptions) : M Session string :=
  fun s =>
  let '(r, (h, w)) := saveProjectToSupabase project preview designId options
                        (heap s, world s) in
  (r, mkSession (dialog s) (nodes s) h w (storeCalls s)
                (saveCalls s ++ [mkSaveCall (heap s !! project) preview designId options])
                (timers s)).

(** ** What a run passes on *)

(** The visibility [handleSave] asks for. *)
Definition finalVisibility (user : option User) (d : Dialog) : DesignVisibility :=
  match user with
  | Some u => if negb (truthy_str (email_confirmed_at u)) then private else visibility d
  | None => visibility d
  end.

(** The options [handleSave] passes on. *)
Definition optionsOf (user : option User) (d : Dialog) : SaveOptions :=
  mkSaveOptions (if String.eqb (Publish.trim (description d)) "" then None
                 else Some (Publish.trim (description d)))
                (finalVisibility user d).

(** The store calls for a changed name. *)
Definition renameCalls (projectName : string) (d : Dialog) : list StoreCall :=
  if negb (String.eqb (Publish.trim (editingName d)) projectName)
  then [SetProjectName (Publish.trim (editingName d))] else [].

Definition saveFallback : string := "Failed to save design".

(** [handleSave]; [user], [stageRef.current], [projectName] and
    [designId] are what the component closed over. *)
Definition handleSave (user : option User) (stageRef : option Exporter.KNode)
                      (projectName : string) (designId : option string)
  : M Session unit :=
  (s <- get ;;
   let d := dialog s in
   match stageRef with
   | None => setError (Some "Canvas not available")
   | Some stage =>
     setSaving true ;;;
     setError None ;;;
     try_catch
       (preview <-
          (if truthy_str (previewDataUrl d) then ret (previewDataUrl d)
           else
             preview <- exportPng stage ;;
             if negb (truthy_str preview)
             then throw (mkError "Failed to generate preview image")
             else setPreviewDataUrl preview ;;; ret preview) ;;
        project <- serialized ;;
        (if negb (String.eqb (Publish.trim (editingName d)) projectName)
         then
           store (SetProjectName (Publish.trim (editingName d))) ;;;
           assignName project (Publish.trim (editingName d))
         else ret tt) ;;;
        let finalVisibility :=
          match user with
          | Some u => if negb (truthy_str (email_confirmed_at u)) then private
                      else visibility d
          | None => visibility d
          end in
        savedDesign <- save project (default "" preview)
                         (if truthy_str designId then designId else None)
                         (mkSaveOptions
                            (if String.eqb (Publish.trim (description d)) "" then None
                             else Some (Publish.trim (description d)))
                            finalVisibility) ;;
        store (SetDesignId savedDesign) ;;;
        store MarkAsSaved ;;;
        setSuccess true ;;;
        setTimeout (SuccessAndClose 1000))
       (fun err =>
          let 'mkError message := err in
          setError (Some (LineLayerComponent.or_str (Some message) saveFallback)) ;;;
          setSaving false)
   end)%jsm.

(** The calls of [saveProjectToSupabase] a run makes. *)
Definition newSaveCalls (c : M Session unit) (s : Session) : list SaveCall :=
  drop (length (saveCalls s)) (saveCalls (c s).2).

(** The store calls a run makes. *)
Definition newStoreCalls (c : M Session unit) (s : Session) : list StoreCall :=
  drop (length (storeCalls s)) (storeCalls (c s).2).

(** The user's email address is not confirmed. *)
Definition unconfirmed (user : option User) : Prop :=
  exists u, user = Some u /\ truthy_str (email_confirmed_at u) = false.

End HandleSave.

End SaveDialog.

(* ===================================================================== *)
(** * components/AIGeneratorDialog: applyMask *)
(* ===================================================================== *)

Module MaskGenerated.
Import JsM Canvas.

(** [ctx.drawImage(image, 0, 0, 1024, 1024)] under a composite
    operation: the image, scaled to the canvas, is composited onto every
    pixel of the canvas.  An image is given by its raster at that
    scale. *)
Definition drawImage (op : CompositeOp) (canvas image : Raster) : Raster :=
  fun p => if inExtent p then blend op (canvas p) (image p) else canvas p.

(** The canvas of [applyMask] after both draws: the generated image
    first, then the template under [destination-in]. *)
Definition maskedCanvas (templateImage generated : Raster) : Raster :=
  drawImage destination_in (drawImage source_over blank generated) templateImage.

Section ApplyMask.

(** The store's [templateImage], [null] while it is loading. *)
Variable templateImage : option Raster.

(** Whether [canvas.getContext('2d')] gives a context. *)
Variable hasContext : bool.

(** Loading the image of a URL: its raster, [None] when [onerror]
    fires. *)
Variable loadImage : string -> option Raster.

(** [canvas.toDataURL('image/png')]. *)
Variable toDataURL : Raster -> string.

(** The promise [applyMask] returns: resolved or rejected. *)
Definition applyMask (imageUrl : string) : Outcome string :=
  match templateImage with
  | None => Returns imageUrl
  | Some template =>
    if negb hasContext then Throws (mkError "Could not get canvas context")
    else
      match loadImage imageUrl with
      | Some img => Returns (toDataURL (maskedCanvas template img))
      | None => Throws (mkError "Failed to load image")
      end
  end.

End ApplyMask.

(** A pixel whose channels are within 0..255. *)
Definition validPixel (c : Rgba) : Prop :=
  (0 <= red c <= 255 /\ 0 <= green c <= 255 /\ 0 <= blue c <= 255
   /\ 0 <= alpha c <= 255)%Z.

End MaskGenerated.

(* ===================================================================== *)
(** * viewer/GodotViewer: messages from the engine *)
(* ===================================================================== *)

Module GodotViewer.
Import JsonValue.

Inductive LoadingStage : Set := stage_loading | stage_initializing | stage_ready.

(** The callbacks handed to [setTimeout]. *)
Inductive Timer : Type :=
  | BecomeReady (delay : Z)
  | SendTexture (delay : Z).

(** The ref and the React state the message handler touches, and the
    pending timers. *)
Record Viewer : Type := mkViewer {
  godotReadyRef : bool;
  loading : bool;
  loadingProgress : JsNum.num;
  loadingStage : LoadingStage;
  error : option Json;
  carLoaded : bool;
  timers : list Timer
}.

(** A [MessageEvent]: whether its source is the iframe's window, and its
    data ([JNull] also stands for [undefined]). *)
Record MessageEvent : Type := mkMessageEvent {
  fromIframe : bool;
  data : Json
}.

Definition num_10 : JsNum.num := 10%float.
Definition num_85 : JsNum.num := 85%float.
Definition num_100 : JsNum.num := 100%float.
Definition num_0_9 : JsNum.num := 0x1.ccccccccccccdp-1%float.
Definition num_5 : JsNum.num := 5%float.
Definition num_50 : JsNum.num := 50%float.
Definition num_90 : JsNum.num := 90%float.

Section HandleMessage.

(** Whether the iframe is mounted ([iframeRef.current] is set). *)
Variable mounted : bool.

(** ToNumber on a value that is not a number, and [Math.round]. *)
Variable toNumber : Json -> JsNum.num.
Variable Math_round : JsNum.num -> JsNum.num.

Definition number_of (v : Json) : JsNum.num :=
  match v with
  | JNum n => n
  | _ => toNumber v
  end.

Definition set_progress (p : JsNum.num) (v : Viewer) : Viewer :=
  mkViewer (godotReadyRef v) (loading v) p (loadingStage v) (error v) (carLoaded v)
           (timers v).

Definition set_stage (s : LoadingStage) (v : Viewer) : Viewer :=
  mkViewer (godotReadyRef v) (loading v) (loadingProgress v) s (error v) (carLoaded v)
           (timers v).

Definition add_timer (t : Timer) (v : Viewer) : Viewer :=
  mkViewer (godotReadyRef v) (loading v) (loadingProgress v) (loadingStage v) (error v)
           (carLoaded v) (timers v ++ [t]).

(** The cases of the [switch]. *)
Definition onReady (v : Viewer) : Viewer :=
  if godotReadyRef v then v
  else
    add_timer (BecomeReady 200)
      (set_stage stage_ready
         (set_progress num_100
            (mkViewer true (loading v) (loadingProgress v) (loadingStage v) (error v)
                      (carLoaded v) (timers v)))).

Definition onProgress (fields : list (string * Json)) (v : Viewer) : Viewer :=
  match field "progress" fields with
  | Some progress =>
    if negb (godotReadyRef v)
    then
      let mappedProgress :=
        (num_10 + Math_round (number_of progress * num_85))%js in
      let v1 := set_progress mappedProgress v in
      if JsMath.le num_0_9 (number_of progress) then set_stage stage_initializing v1
      else v1
    else v
  | None => v
  end.

Definition onCarLoaded (v : Viewer) : Viewer :=
  add_timer (SendTexture 200)
    (mkViewer (godotReadyRef v) (loading v) (loadingProgress v) (loadingStage v)
              (error v) true (timers v)).

Definition onError (fields : list (string * Json)) (v : Viewer) : Viewer :=
  let message := if truthy (field "message" fields)
                 then default (JStr "Unknown Godot error") (field "message" fields)
                 else JStr "Unknown Godot error" in
  mkViewer (godotReadyRef v) false (loadingProgress v) (loadingStage v) (Some message)
           (carLoaded v) (timers v).

Definition handleMessage (event : MessageEvent) (v : Viewer) : Viewer :=
  if mounted && negb (fromIframe event) then v
  else
    match data event with
    | JObj fields =>
      if negb (truthy (field "type" fields)) then v
      else
        match field "type" fields with
        | Some (JStr type) =>
          if String.eqb type "godot_ready" then onReady v
          else if String.eqb type "godot_progress" then onProgress fields v
          else if String.eqb type "car_loaded" then onCarLoaded v
          else if String.eqb type "godot_error" then onError fields v
          else v
        | _ => v
        end
    | _ => v
    end.

(** One run of the interval callback of [handleIframeLoad]: [random] is
    the draw of [Math.random()], [progress] the callback's own counter.
    The result is the counter afterwards, [None] once the interval is
    cleared, and the viewer. *)
Definition tick (random progress : JsNum.num) (v : Viewer) : option JsNum.num * Viewer :=
  if godotReadyRef v then (None, v)
  else
    let progress := (progress + random * num_5)%js in
    if JsMath.lt num_90 progress
    then (None, set_stage stage_initializing (set_progress num_90 v))
    else
      let v1 := set_progress (Math_round progress) v in
      (Some progress,
       if JsMath.lt num_50 progress then set_stage stage_initializing v1 else v1).

(** What reaches the viewer while it loads: a message, or a run of the
    interval callback at some value of its counter. *)
Inductive Event : Type :=
  | Message (event : MessageEvent)
  | Tick (random progress : JsNum.num).

Definition handle (e : Event) (v : Viewer) : Viewer :=
  match e with
  | Message event => handleMessage event v
  | Tick random progress => (tick random progress v).2
  end.

(** The viewer after a sequence of events. *)
Definition receive (events : list Event) (v : Viewer) : Viewer :=
  fold_left (fun v e => handle e v) events v.

End HandleMessage.

(** The "engine is ready" message. *)
Definition readyMessage : MessageEvent :=
  mkMessageEvent true (JObj [("type", JStr "godot_ready")]).

(** The number of pending "become ready" timers. *)
Definition readyTimers (v : Viewer) : nat :=
  length (List.filter (fun t => match t with BecomeReady _ => true | _ => false end)
                      (timers v)).

End GodotViewer.

(* ===================================================================== *)
(** * More sample data *)
(* ===================================================================== *)

Module MoreSamples.
Import JsonValue.

(** A stand-in for JSON: the text "P1" parses to a project object, every
    other text is malformed. *)
Definition sampleParsed : Json :=
  JObj [("version", JStr "2.0"); ("layers", JArr []); ("modelId", JStr "modely")].

Definition sampleParse (s : string) : option Json :=
  if String.eqb s "P1" then Some sampleParsed else None.

(** ** Stand-ins for the network *)

(** Every request is throttled, with a hint of seven seconds. *)
Definition throttledFetch : string -> Replicate.Request -> JsM.M unit Replicate.Response :=
  fun _ _ w =>
  (JsM.Returns
     (Replicate.mkResponse 429
        (Some (JObj [("detail",
                      JStr "Request was throttled. Your rate limit resets in ~7s.")]))),
   w).

(** Every request fails in the network. *)
Definition offlineFetch : string -> Replicate.Request -> JsM.M unit Replicate.Response :=
  fun _ _ w => (JsM.Throws (JsM.mkError "Failed to fetch"), w).

(** Every request finds the prediction in progress. *)
Definition pendingFetch : string -> Replicate.Request -> JsM.M unit Replicate.Response :=
  fun _ _ w =>
  (JsM.Returns
     (Replicate.mkResponse 200
        (Some (JObj [("id", JStr "p1"); ("status", JStr "processing")]))),
   w).

Definition emptyNet : Replicate.Net unit :=
  Replicate.mkNet unit tt [] [] (Replicate.mkGenerationState true None [] None).

Definition sampleRequest : Replicate.Request :=
  Replicate.mkRequest (Some "POST") [("Content-Type", "application/json")] (Some "{}").

End MoreSamples.


(* ===================================================================== *)
(** * Facts about the store operations *)
(* ===================================================================== *)

Section StoreFacts.
Import Model.

Lemma spread_emptyPatch l : spread l emptyPatch = l.
Proof. destruct l; unfold spread; simpl. f_equal. apply (left_id_L ∅ (∪)). Qed.

Lemma findLayer_Some_id i ls l : findLayer i ls = Some l -> id l = i.
Proof.
  unfold findLayer. intros H. apply List.find_some in H as [_ H].
  by apply String.eqb_eq.
Qed.

Lemma findLayer_In i ls l : findLayer i ls = Some l -> In l ls.
Proof. unfold findLayer. intros H. by apply List.find_some in H as [H _]. Qed.

(** Updating keeps the identifiers when the patch carries none, so the
    layer found under an identifier is the patched one. *)
Lemma findLayer_updateLayer i j u ls :
  p_id u = None ->
  findLayer i (updateLayer j u ls)
  = (fun l => if String.eqb (id l) j then spread l u else l) <$> findLayer i ls.
Proof.
  intros Hid. unfold findLayer, updateLayer.
  induction ls as [|a ls IH]; simpl; [done|].
  destruct (String.eqb (id a) j) eqn:Ej; simpl.
  - rewrite Hid. simpl. destruct (String.eqb (id a) i) eqn:Ei; simpl.
    + by rewrite Ej.
    + apply IH.
  - destruct (String.eqb (id a) i) eqn:Ei; simpl.
    + by rewrite Ej.
    + apply IH.
Qed.

Lemma updateLayer_length j u ls : length (updateLayer j u ls) = length ls.
Proof. unfold updateLayer. apply List.length_map. Qed.

Lemma updateLayer_ids j u ls :
  p_id u = None -> List.map id (updateLayer j u ls) = List.map id ls.
Proof.
  intros Hid. unfold updateLayer. rewrite List.map_map.
  apply List.map_ext. intros a. destruct (String.eqb (id a) j); [|done].
  simpl. by rewrite Hid.
Qed.

Lemma findLayer_at_id i f ls :
  (forall l, id (f l) = id l) ->
  findLayer i (at_id i f ls) = f <$> findLayer i ls.
Proof.
  intros Hf. unfold findLayer, at_id.
  induction ls as [|a ls IH]; simpl; [done|].
  destruct (String.eqb (id a) i) eqn:E; simpl.
  - by rewrite Hf, E.
  - by rewrite E.
Qed.

Lemma findLayer_at_id_ne i j f ls :
  (forall l, id (f l) = id l) -> i <> j ->
  findLayer i (at_id j f ls) = findLayer i ls.
Proof.
  intros Hf Hij. unfold findLayer, at_id.
  induction ls as [|a ls IH]; simpl; [done|].
  destruct (String.eqb (id a) j) eqn:E; simpl.
  - rewrite Hf. apply String.eqb_eq in E.
    destruct (String.eqb (id a) i) eqn:E'; [|apply IH].
    apply String.eqb_eq in E'. congruence.
  - destruct (String.eqb (id a) i); [done|apply IH].
Qed.

Lemma updateLayer_at_id i u ls :
  updateLayer i u ls = at_id i (fun l => spread l u) ls.
Proof. reflexivity. Qed.

Lemma at_id_at_id i f g ls :
  (forall l, id (g l) = id l) ->
  at_id i f (at_id i g ls) = at_id i (fun l => f (g l)) ls.
Proof.
  intros Hg. unfold at_id. rewrite List.map_map. apply List.map_ext.
  intros l. destruct (String.eqb (id l) i) eqn:E; [|by rewrite E].
  by rewrite Hg, E.
Qed.

End StoreFacts.

(* ===================================================================== *)
(** * JavaScript number facts *)
(* ===================================================================== *)

Section NumFacts.

Lemma float_neq (a b : JsNum.num) : PrimFloat.Leibniz.eqb a b = false -> a <> b.
Proof.
  intros H E. apply FloatAxioms.Leibniz.eqb_spec in E. congruence.
Qed.

Lemma or_num_truthy v d : JsNum.truthy v = true -> JsNum.or_num v d = v.
Proof. unfold JsNum.or_num. by intros ->. Qed.

(** A number that is falsy and not NaN is one of the two zeros. *)
Lemma falsy_number_is_zero v :
  JsNum.truthy v = false -> PrimFloat.is_nan v = false ->
  v = PrimFloat.zero \/ v = PrimFloat.neg_zero.
Proof.
  unfold JsNum.truthy. intros Ht Hn. rewrite Hn, orb_false_r in Ht.
  apply negb_false_iff in Ht. unfold PrimFloat.is_zero in Ht.
  rewrite FloatAxioms.eqb_spec in Ht.
  change (Prim2SF PrimFloat.zero) with (SpecFloat.S754_zero false) in Ht.
  rewrite <- (FloatAxioms.SF2Prim_Prim2SF v).
  destruct (Prim2SF v) as [[|]|[|]| |[|] m e]; cbn in Ht; try discriminate.
  - by right.
  - by left.
Qed.

(** The sign of a zero factor does not survive [Math.abs]. *)
Lemma abs_mul_zero_sign r :
  JsNum.abs (JsNum.mul PrimFloat.neg_zero r) = JsNum.abs (JsNum.mul PrimFloat.zero r).
Proof.
  unfold JsNum.abs, JsNum.mul. apply FloatAxioms.Prim2SF_inj.
  rewrite !FloatAxioms.abs_spec, !FloatAxioms.mul_spec.
  change (Prim2SF PrimFloat.neg_zero) with (SpecFloat.S754_zero true).
  change (Prim2SF PrimFloat.zero) with (SpecFloat.S754_zero false).
  destruct (Prim2SF r) as [s| s | | s m e]; try destruct s; reflexivity.
Qed.

(** For a width that is a number, the [|| 0] default of the resize
    computation is invisible in the result. *)
Lemma abs_mul_or_zero w r :
  PrimFloat.is_nan w = false ->
  JsNum.abs (JsNum.mul (JsNum.or_num w Canvas.num_0) r) = JsNum.abs (JsNum.mul w r).
Proof.
  intros Hn. unfold JsNum.or_num. destruct (JsNum.truthy w) eqn:Ht; [done|].
  destruct (falsy_number_is_zero w Ht Hn) as [-> | ->]; [done|].
  symmetry. apply abs_mul_zero_sign.
Qed.

End NumFacts.

(* ===================================================================== *)
(** * Transform synchronizer: drag, resize, rotate *)
(* ===================================================================== *)

Section GestureTheorems.
Import Model Canvas.

Lemma spread_dragPatch n l :
  spread l (dragPatch n) = moved (node_x n) (node_y n) l.
Proof. unfold spread, moved; simpl. f_equal. apply (left_id_L ∅ (∪)). Qed.

Lemma spread_scalePatch n l :
  spread l (scalePatch n)
  = transformed (node_x n) (node_y n) (node_rotation n)
                (node_scaleX n) (node_scaleY n) l.
Proof. unfold spread, transformed; simpl. f_equal. apply (left_id_L ∅ (∪)). Qed.

Lemma layers_set_cursor n c st : layers (set_cursor n c st) = layers st.
Proof. unfold set_cursor. by destruct (node_onStage n). Qed.

Lemma ref_set_cursor n c st :
  transformStartDataRef (set_cursor n c st) = transformStartDataRef st.
Proof. unfold set_cursor. by destruct (node_onStage n). Qed.

Lemma activeTool_set_cursor n c st : activeTool (set_cursor n c st) = activeTool st.
Proof. unfold set_cursor. by destruct (node_onStage n). Qed.

Lemma draggable_not_brush st layer :
  draggable (commonProps st layer) = true -> type layer <> brush.
Proof.
  unfold commonProps; simpl. intros H Hb.
  rewrite (bool_decide_eq_true_2 _ Hb) in H. simpl in H.
  by rewrite andb_false_r in H.
Qed.

(** What [handleDragEnd] leaves in the store. *)
Lemma handleDragEnd_layers n i st :
  layers (handleDragEnd n i st).2
  = at_id i (moved (node_x n) (node_y n)) (layers st).
Proof.
  unfold handleDragEnd; simpl. rewrite layers_set_cursor.
  unfold updateLayer, at_id. apply List.map_ext. intros l.
  destruct (String.eqb (id l) i); [|done]. apply spread_dragPatch.
Qed.

(** C7. Ending a drag on a draggable layer writes the node's final
    position into the layer's [x] and [y]; rotation, scale, width,
    height, opacity, points and every other property of the layer, every
    other layer, the order of the sequence and the pending transform
    snapshot are as before. *)
Theorem drag_end_persists_only_position (st : State) (layer : Layer) (n : Node) :
  findLayer (id layer) (layers st) = Some layer ->
  draggable (commonProps st layer) = true ->
  let st' := (fire (onDragEnd (commonProps st layer)) n st).2 in
  let layer' := moved (node_x n) (node_y n) layer in
  findLayer (id layer) (layers st') = Some layer'
  /\ x layer' = node_x n /\ y layer' = node_y n
  /\ (rotation layer', scaleX layer', scaleY layer', opacity layer')
     = (rotation layer, scaleX layer, scaleY layer, opacity layer)
  /\ (width layer', height layer', radius layer', points layer')
     = (width layer, height layer, radius layer, points layer)
  /\ layers st' = at_id (id layer) (moved (node_x n) (node_y n)) (layers st)
  /\ (forall j, j <> id layer -> findLayer j (layers st') = findLayer j (layers st))
  /\ transformStartDataRef st' = transformStartDataRef st.
Proof.
  intros Hfind Hdrag st' layer'.
  pose proof (draggable_not_brush _ _ Hdrag) as Hnb.
  assert (Hst : st' = (handleDragEnd n (id layer) st).2).
  { subst st'. unfold commonProps; simpl.
    by rewrite (bool_decide_eq_false_2 _ Hnb). }
  assert (Hl : layers st' = at_id (id layer) (moved (node_x n) (node_y n)) (layers st)).
  { rewrite Hst. apply handleDragEnd_layers. }
  repeat split; try done.
  - rewrite Hl, findLayer_at_id by done. by rewrite Hfind.
  - intros j Hj. rewrite Hl. by apply findLayer_at_id_ne.
  - rewrite Hst. unfold handleDragEnd; simpl. apply ref_set_cursor.
Qed.

(** Starting a transform snapshots the layer's width and height and its
    scale read through [|| 1]. *)
Lemma transform_start_snapshots (st : State) (layer : Layer) (n : Node) :
  findLayer (id layer) (layers st) = Some layer ->
  type layer <> brush ->
  let st1 := (fire (onTransformStart (commonProps st layer)) n st).2 in
  transformStartDataRef st1
  = Some (mkStartData (id layer) (width layer) (height layer)
                      (JsNum.or_num (scaleX layer) num_1)
                      (JsNum.or_num (scaleY layer) num_1))
  /\ layers st1 = layers st.
Proof.
  intros Hfind Hnb st1. subst st1. unfold commonProps; simpl.
  rewrite (bool_decide_eq_false_2 _ Hnb). simpl.
  unfold handleTransformStart. rewrite layers_set_cursor, Hfind. simpl.
  split; [done|]. apply layers_set_cursor.
Qed.

(** The store after [handleTransformEnd] found the layer. *)
Lemma handleTransformEnd_layers n i st layer :
  findLayer i (layers st) = Some layer ->
  layers (handleTransformEnd n i st).2
  = updateLayer i
      match type layer, transformStartDataRef st with
      | rect, Some startData => rectPatch n startData
      | _, _ => scalePatch n
      end (layers st)
  /\ transformStartDataRef (handleTransformEnd n i st).2 = None.
Proof.
  intros Hfind. unfold handleTransformEnd.
  rewrite layers_set_cursor, Hfind, ref_set_cursor. simpl.
  by rewrite ?layers_set_cursor.
Qed.

(** C1. A resize gesture on a rectangle layer that started with the
    snapshot (width W, height H, scaleX sx, scaleY sy), W and H being
    numbers, and ends with the node reporting scale (sx', sy') persists
    width = |W * (sx' / sx)| and height = |H * (sy' / sy)| and resets
    scaleX and scaleY to 1; the snapshot is cleared. *)
Theorem rect_resize_persists_dimensions
    (st : State) (layer : Layer) (startId : string) (W H sx sy : JsNum.num)
    (n : Node) :
  findLayer (id layer) (layers st) = Some layer ->
  type layer = rect ->
  transformStartDataRef st = Some (mkStartData startId (Some W) (Some H) sx sy) ->
  PrimFloat.is_nan W = false ->
  PrimFloat.is_nan H = false ->
  let st' := (fire (onTransformEnd (commonProps st layer)) n st).2 in
  let w' := JsNum.abs (W * (node_scaleX n / sx))%js in
  let h' := JsNum.abs (H * (node_scaleY n / sy))%js in
  exists layer',
    findLayer (id layer) (layers st') = Some layer'
    /\ width layer' = Some w' /\ height layer' = Some h'
    /\ scaleX layer' = num_1 /\ scaleY layer' = num_1
    /\ layer' = resized (node_x n) (node_y n) (node_rotation n) w' h' layer
    /\ transformStartDataRef st' = None.
Proof.
  intros Hfind Hrect Href HW HH st' w' h'.
  assert (Hnb : type layer <> brush) by (rewrite Hrect; discriminate).
  assert (Hst : st' = (handleTransformEnd n (id layer) st).2).
  { subst st'. unfold commonProps; simpl.
    by rewrite (bool_decide_eq_false_2 _ Hnb). }
  destruct (handleTransformEnd_layers n (id layer) st layer Hfind) as [Hl Hr].
  rewrite Hrect, Href in Hl.
  assert (Hsp : spread layer (rectPatch n (mkStartData startId (Some W) (Some H) sx sy))
                = resized (node_x n) (node_y n) (node_rotation n) w' h' layer).
  { unfold spread, resized, rectPatch; simpl. subst w' h'.
    rewrite !abs_mul_or_zero by done. f_equal. apply (left_id_L ∅ (∪)). }
  exists (resized (node_x n) (node_y n) (node_rotation n) w' h' layer).
  repeat split; try done.
  - rewrite Hst, Hl, updateLayer_at_id, findLayer_at_id by done.
    rewrite Hfind. simpl. by rewrite Hsp.
  - by rewrite Hst.
Qed.


(** C7 at the sample circle, dragged to (10, 10) beside a rectangle. *)
Lemma drag_end_persists_only_position_witness :
  let st := Samples.sampleState [Samples.sampleRect; Samples.sampleCircle] in
  let st' := (fire (onDragEnd (commonProps st Samples.sampleCircle)) Samples.sampleNode st).2 in
  findLayer "c1" (layers st) = Some Samples.sampleCircle
  /\ draggable (commonProps st Samples.sampleCircle) = true
  /\ findLayer "c1" (layers st')
     = Some (moved Samples.f10 Samples.f10 Samples.sampleCircle)
  /\ findLayer "r1" (layers st') = Some Samples.sampleRect.
Proof.
  intros st st'.
  split; [reflexivity|]. split; [reflexivity|].
  pose proof (drag_end_persists_only_position st Samples.sampleCircle
                Samples.sampleNode eq_refl eq_refl) as (H1 & _ & _ & _ & _ & _ & H2 & _).
  split; [exact H1|]. exact (H2 "r1" ltac:(discriminate)).
Defined.

(** C1 at the scenario rectangle (200 x 100, scale 1): the gesture is
    started by the start handler and ends at scale (2, 1); the persisted
    width is 400 and the height stays 100. *)
Lemma rect_resize_persists_dimensions_witness :
  let st0 := Samples.sampleState [Samples.sampleRect; Samples.sampleCircle] in
  let st := (fire (onTransformStart (commonProps st0 Samples.sampleRect))
                  Samples.sampleNode st0).2 in
  let st' := (fire (onTransformEnd (commonProps st Samples.sampleRect))
                   Samples.sampleNode st).2 in
  transformStartDataRef st
  = Some (mkStartData "r1" (Some Samples.f200) (Some Samples.f100) Samples.f1 Samples.f1)
  /\ exists layer',
       findLayer "r1" (layers st') = Some layer'
       /\ width layer' = Some 400%float /\ height layer' = Some 100%float
       /\ scaleX layer' = 1%float /\ scaleY layer' = 1%float.
Proof.
  intros st0 st st'.
  split; [reflexivity|].
  destruct (rect_resize_persists_dimensions st Samples.sampleRect "r1"
              Samples.f200 Samples.f100 Samples.f1 Samples.f1 Samples.sampleNode
              eq_refl eq_refl eq_refl eq_refl eq_refl)
    as (layer' & Hf & Hw & Hh & Hsx & Hsy & _).
  exists layer'. repeat split; assumption.
Defined.



End GestureTheorems.

(* ===================================================================== *)
(** * Line endpoint editing *)
(* ===================================================================== *)

Section LineHandleTheorems.
Import Model LineHandles.

Lemma spread_pointsPatch pts l : spread l (pointsPatch pts) = with_points pts l.
Proof. unfold spread, with_points; simpl. f_equal. apply (left_id_L ∅ (∪)). Qed.

Lemma with_points_with_points p q l : with_points p (with_points q l) = with_points p l.
Proof. reflexivity. Qed.

(** The position the component reads is the layer's own position, unless
    that is NaN or the negative zero, which [|| 0] turns into 0. *)
Lemma layerX_layerY_position l :
  (JsNum.truthy (x l) = true \/ x l = zero -> layerX l = x l)
  /\ (JsNum.truthy (y l) = true \/ y l = zero -> layerY l = y l).
Proof.
  unfold layerX, layerY, JsNum.or_num. split.
  - intros [->|E]; [done|]. rewrite E. reflexivity.
  - intros [->|E]; [done|]. rewrite E. reflexivity.
Qed.

(** For a four-number point pair the entries read back as they are. *)
Lemma currentPoints_four l p0 p1 p2 p3 :
  points l = Some [Some p0; Some p1; Some p2; Some p3] ->
  at_index (currentPoints l) 0 = Some p0 /\ at_index (currentPoints l) 1 = Some p1
  /\ at_index (currentPoints l) 2 = Some p2 /\ at_index (currentPoints l) 3 = Some p3.
Proof. unfold currentPoints. by intros ->. Qed.

(** One [dragmove] of the start handle. *)
Lemma startHandleDragMove_layers h i st l :
  findLayer i (layers st) = Some l -> type l = line ->
  startHandleDragMove h i st
  = set_layers
      (at_id i (with_points [Some (h_x h - layerX l)%js; Some (h_y h - layerY l)%js;
                             at_index (currentPoints l) 2; at_index (currentPoints l) 3])
             (layers st)) st.
Proof.
  intros Hf Ht. unfold startHandleDragMove. rewrite Hf.
  rewrite (bool_decide_eq_true_2 _ Ht). simpl.
  f_equal. rewrite updateLayer_at_id. unfold at_id. apply List.map_ext.
  intros a. destruct (String.eqb (id a) i); [|done]. apply spread_pointsPatch.
Qed.

(** One [dragmove] of the end handle. *)
Lemma endHandleDragMove_layers h i st l :
  findLayer i (layers st) = Some l -> type l = line ->
  endHandleDragMove h i st
  = set_layers
      (at_id i (with_points [at_index (currentPoints l) 0; at_index (currentPoints l) 1;
                             Some (h_x h - layerX l)%js; Some (h_y h - layerY l)%js])
             (layers st)) st.
Proof.
  intros Hf Ht. unfold endHandleDragMove. rewrite Hf.
  rewrite (bool_decide_eq_true_2 _ Ht). simpl.
  f_equal. rewrite updateLayer_at_id. unfold at_id. apply List.map_ext.
  intros a. destruct (String.eqb (id a) i); [|done]. apply spread_pointsPatch.
Qed.

Lemma dragging_inv_step w i l st0 st h :
  id l = i -> type l = line ->
  dragging_inv w i l st0 st ->
  dragging_inv w i l st0 (move_of w h i st)
  /\ findLayer i (layers (move_of w h i st))
     = Some (with_points
               match w with
               | start => [Some (h_x h - layerX l)%js; Some (h_y h - layerY l)%js;
                           at_index (currentPoints l) 2; at_index (currentPoints l) 3]
               | end_ => [at_index (currentPoints l) 0; at_index (currentPoints l) 1;
                          Some (h_x h - layerX l)%js; Some (h_y h - layerY l)%js]
               end l).
Proof.
  intros Hid Hline (Hsel & Hoth & l' & Hf & Hl' & Hpts).
  assert (Hxy : layerX l' = layerX l /\ layerY l' = layerY l /\ type l' = line
                /\ forall p, with_points p l' = with_points p l).
  { destruct Hl' as [-> | [pts ->]]; done. }
  destruct Hxy as (Hx & Hy & Ht & Hwp).
  destruct w; simpl.
  - rewrite (startHandleDragMove_layers h i st l' Hf Ht).
    destruct Hpts as [-> ->]. rewrite Hx, Hy.
    split.
    + split; [done|]. split.
      { intros j Hj. simpl. rewrite findLayer_at_id_ne by done. by apply Hoth. }
      eexists. split.
      { simpl. rewrite findLayer_at_id by done. rewrite Hf. simpl. by rewrite Hwp. }
      split; [right; by eexists|done].
    + simpl. rewrite findLayer_at_id by done. rewrite Hf. simpl. by rewrite Hwp.
  - rewrite (endHandleDragMove_layers h i st l' Hf Ht).
    destruct Hpts as [-> ->]. rewrite Hx, Hy.
    split.
    + split; [done|]. split.
      { intros j Hj. simpl. rewrite findLayer_at_id_ne by done. by apply Hoth. }
      eexists. split.
      { simpl. rewrite findLayer_at_id by done. rewrite Hf. simpl. by rewrite Hwp. }
      split; [right; by eexists|done].
    + simpl. rewrite findLayer_at_id by done. rewrite Hf. simpl. by rewrite Hwp.
Qed.

Lemma dragging_inv_moves w i l st0 ps :
  id l = i -> type l = line ->
  forall st, dragging_inv w i l st0 st ->
  dragging_inv w i l st0 (fold_left (fun s h => move_of w h i s) ps st).
Proof.
  intros Hid Hline. induction ps as [|h ps IH]; intros st Hinv; simpl; [done|].
  apply IH. by apply dragging_inv_step.
Qed.

(** C5. On a selected line layer, a drag of the start handle that ends at
    position h leaves points = [h.x - layerX, h.y - layerY, p2, p3], where
    (layerX, layerY) is the layer's position as the component reads it and
    p2, p3 are the prior entries; a drag of the end handle leaves
    points = [p0, p1, h.x - layerX, h.y - layerY]. Every other property of
    the layer and every other layer are as before. *)
Theorem endpoint_drag_changes_only_its_pair
    (st : State) (layer : Layer) (ps : list Handle) (h : Handle) :
  findLayer (id layer) (layers st) = Some layer ->
  type layer = line ->
  selectedLayerId st = Some (id layer) ->
  let cp := currentPoints layer in
  let px := (h_x h - layerX layer)%js in
  let py := (h_y h - layerY layer)%js in
  let after w := dragHandle w (ps ++ [h]) (id layer) st in
  findLayer (id layer) (layers (after start))
  = Some (with_points [Some px; Some py; at_index cp 2; at_index cp 3] layer)
  /\ findLayer (id layer) (layers (after end_))
     = Some (with_points [at_index cp 0; at_index cp 1; Some px; Some py] layer)
  /\ (forall w j, j <> id layer ->
        findLayer j (layers (after w)) = findLayer j (layers st))
  /\ (forall w, isDraggingHandleRef (after w) = None).
Proof.
  intros Hf Hline Hsel cp px py after.
  assert (Hview : exists v, LineEndpointHandles (id layer) st = Some v).
  { unfold LineEndpointHandles. rewrite Hf.
    rewrite (bool_decide_eq_true_2 _ Hline), (bool_decide_eq_true_2 _ Hsel).
    simpl. by eexists. }
  destruct Hview as [v Hv].
  assert (Hafter : forall w,
    after w = handleDragEnd
                (move_of w h (id layer)
                   (fold_left (fun s h => move_of w h (id layer) s) ps
                              (handleDragStart w st)))).
  { intros w. subst after. unfold dragHandle. rewrite Hv.
    rewrite fold_left_app. simpl. by destruct w. }
  assert (Hinv0 : forall w, dragging_inv w (id layer) layer st (handleDragStart w st)).
  { intros w. split; [done|]. split; [done|]. exists layer.
    split; [done|]. split; [by left|]. by destruct w. }
  assert (Hstep : forall w,
    let s := move_of w h (id layer)
               (fold_left (fun s h => move_of w h (id layer) s) ps
                          (handleDragStart w st)) in
    dragging_inv w (id layer) layer st s
    /\ findLayer (id layer) (layers s)
       = Some (with_points
                 match w with
                 | start => [Some px; Some py; at_index cp 2; at_index cp 3]
                 | end_ => [at_index cp 0; at_index cp 1; Some px; Some py]
                 end layer)).
  { intros w. apply dragging_inv_step; [done|done|].
    apply dragging_inv_moves; done. }
  split; [|split; [|split]].
  - rewrite Hafter. exact (proj2 (Hstep start)).
  - rewrite Hafter. exact (proj2 (Hstep end_)).
  - intros w j Hj. rewrite Hafter.
    destruct (Hstep w) as [(_ & Hoth & _) _]. simpl. by apply Hoth.
  - intros w. by rewrite Hafter.
Qed.

(** C5 at the sample line (position (10, 10), points [0, 0, 100, 0]): the
    start handle dragged through (2, 2) to (1, 2) gives points
    [-9, -8, 100, 0]; the end handle gives [0, 0, -9, -8]. *)
Lemma endpoint_drag_changes_only_its_pair_witness :
  let st := mkState [Samples.sampleLine; Samples.sampleRect] (Some "l1") None in
  let ps := [mkHandle 2%float 2%float; mkHandle 1%float 2%float] in
  findLayer "l1" (layers st) = Some Samples.sampleLine
  /\ type Samples.sampleLine = line
  /\ selectedLayerId st = Some "l1"
  /\ findLayer "l1" (layers (dragHandle start ps "l1" st))
     = Some (with_points [Some (-9)%float; Some (-8)%float; Some 100%float; Some 0%float]
                         Samples.sampleLine)
  /\ findLayer "l1" (layers (dragHandle end_ ps "l1" st))
     = Some (with_points [Some 0%float; Some 0%float; Some (-9)%float; Some (-8)%float]
                         Samples.sampleLine).
Proof.
  intros st ps.
  split; [reflexivity|]. split; [reflexivity|]. split; [reflexivity|].
  pose proof (endpoint_drag_changes_only_its_pair st Samples.sampleLine
                [mkHandle 2%float 2%float] (mkHandle 1%float 2%float)
                eq_refl eq_refl eq_refl) as (H1 & H2 & _).
  split; [exact H1 | exact H2].
Defined.

End LineHandleTheorems.

(* ===================================================================== *)
(** * Canvas compositor: render order and template masks *)
(* ===================================================================== *)

Section CompositorTheorems.
Import Model Canvas.

Lemma layerElement_leaf st l :
  exists c, layerElement st l = Some (Leaf (LayerShape c l (commonProps st l))).
Proof. unfold layerElement. destruct (type l); by eexists. Qed.

Lemma paintedLayers_app a b :
  paintedLayers (a ++ b) = paintedLayers a ++ paintedLayers b.
Proof. unfold paintedLayers. apply omap_app. Qed.

(** The commands of the layer elements paint exactly the given layers, in
    the given order, each with [source-over]. *)
Lemma commands_layerElements st ls :
  paintedLayers (flat_map (commands source_over) (omap (layerElement st) ls)) = ls
  /\ Forall (fun c => c.1 = source_over)
            (flat_map (commands source_over) (omap (layerElement st) ls)).
Proof.
  induction ls as [|l ls [IH1 IH2]]; simpl; [by split|].
  destruct (layerElement_leaf st l) as [c ->]. simpl. split.
  - unfold paintedLayers in *. simpl. f_equal. exact IH1.
  - by constructor.
Qed.

Lemma sceneCommands_masked st baseColor :
  sceneCommands [baseGroup baseColor; layersGroup st]
  = [(source_over, BaseRect baseColor); (destination_in, TemplateImage)]
    ++ layerCommands st ++ [(destination_in, TemplateImage)].
Proof.
  unfold sceneCommands, baseGroup, layersGroup, layerCommands. simpl.
  rewrite flat_map_app. simpl. by rewrite !app_nil_r.
Qed.

Lemma sceneCommands_EditorCanvas st baseColor sel :
  sceneCommands (EditorCanvas st baseColor sel)
  = sceneCommands [baseGroup baseColor; layersGroup st]
    ++ [(source_over, TransformerWrapper sel); (source_over, BrushCursor)].
Proof.
  unfold sceneCommands, EditorCanvas. simpl. by rewrite !app_nil_r.
Qed.

Lemma paintedLayers_EditorCanvas st baseColor sel :
  paintedLayers (sceneCommands (EditorCanvas st baseColor sel)) = rev (layers st).
Proof.
  rewrite sceneCommands_EditorCanvas, sceneCommands_masked.
  rewrite !paintedLayers_app. simpl. rewrite !app_nil_r.
  unfold layerCommands. apply commands_layerElements.
Qed.

(** C3. The compositor paints the layers in the reverse of the stored
    order: the last stored layer is painted first, at the back, and the
    head of the stored sequence, the most recently added layer, is painted
    last, in front. *)
Theorem layers_painted_in_reverse_order
    (st : State) (baseColor : Rgba) (selectedLayerId : option string) :
  let painted := paintedLayers (sceneCommands (EditorCanvas st baseColor selectedLayerId)) in
  painted = rev (layers st)
  /\ head painted = last (layers st)
  /\ last painted = head (layers st)
  /\ (forall newest older, layers st = newest :: older -> painted = rev older ++ [newest]).
Proof.
  intros painted.
  assert (H : painted = rev (layers st)) by apply paintedLayers_EditorCanvas.
  split; [done|]. rewrite H. split; [|split].
  - by rewrite rev_alt, <- head_reverse.
  - by rewrite rev_alt, <- last_reverse.
  - by intros newest older ->.
Qed.

(** With the store's [addLayer], a new layer is painted after, and so in
    front of, every layer that was there. *)
Lemma added_layer_painted_last st baseColor sel l :
  paintedLayers (sceneCommands
                   (EditorCanvas (set_layers (addLayer l (layers st)) st) baseColor sel))
  = paintedLayers (sceneCommands (EditorCanvas st baseColor sel)) ++ [l].
Proof.
  by rewrite !paintedLayers_EditorCanvas.
Qed.

Lemma blend_destination_in_clear d s :
  alpha s = 0%Z -> blend destination_in d s = transparent.
Proof.
  intros H. unfold blend, transparent. rewrite H.
  by rewrite !Z.mul_0_r.
Qed.

Lemma runCommands_app t paint a b canvas :
  runCommands t paint (a ++ b) canvas = runCommands t paint b (runCommands t paint a canvas).
Proof. unfold runCommands. apply fold_left_app. Qed.

(** C4. Whatever the layers and their transforms draw, the composite of
    base colour and layer stack is fully transparent at every pixel where
    the template's alpha is zero: the base fill is masked by the template
    with destination-in, the layers are painted over it, and the whole is
    masked by the same template a second time. The overlays are drawn on
    top of that composite. *)
Theorem composite_clipped_to_template
    (templateImage : Raster) (paint : Shape -> Raster)
    (st : State) (baseColor : Rgba) (selectedLayerId : option string) (p : Z * Z) :
  alpha (templateImage p) = 0%Z ->
  let mask := maskAt templateImage in
  let maskedBase : Raster :=
    fun q => blend destination_in
                   (blend source_over transparent (rasterOf templateImage paint (BaseRect baseColor) q))
                   (mask q) in
  let stack := runCommands templateImage paint (layerCommands st) maskedBase in
  maskedComposite templateImage paint st baseColor p = transparent
  /\ (forall q, maskedComposite templateImage paint st baseColor q
                = blend destination_in (stack q) (mask q))
  /\ stageImage templateImage paint st baseColor selectedLayerId
     = runCommands templateImage paint
         [(source_over, TransformerWrapper selectedLayerId); (source_over, BrushCursor)]
         (maskedComposite templateImage paint st baseColor).
Proof.
  intros Hp mask maskedBase stack.
  assert (Hq : forall q, maskedComposite templateImage paint st baseColor q
                         = blend destination_in (stack q) (mask q)).
  { intros q. unfold maskedComposite. rewrite sceneCommands_masked.
    rewrite !runCommands_app. reflexivity. }
  split; [|split; [exact Hq|]].
  - rewrite Hq. apply blend_destination_in_clear.
    unfold mask, maskAt, rasterOf. destruct (inExtent p); [exact Hp|reflexivity].
  - unfold stageImage, maskedComposite.
    by rewrite sceneCommands_EditorCanvas, runCommands_app.
Qed.

Lemma blend_alphaValid op d s :
  alphaValid d -> alphaValid s -> alphaValid (blend op d s).
Proof.
  unfold alphaValid. intros Hd Hs. destruct op; simpl.
  - assert (0 <= alpha d * (255 - alpha s) / 255 <= 255 - alpha s)%Z; [|lia].
    split; [apply Z.div_pos; nia|]. apply Z.div_le_upper_bound; nia.
  - split; [apply Z.div_pos; nia|]. apply Z.div_le_upper_bound; nia.
Qed.

Lemma runCommands_alphaValid t paint cmds :
  (forall cmd q, In cmd cmds -> alphaValid (rasterOf t paint cmd.2 q)) ->
  forall canvas, (forall q, alphaValid (canvas q)) ->
  forall q, alphaValid (runCommands t paint cmds canvas q).
Proof.
  unfold runCommands.
  induction cmds as [|cmd cmds IH]; intros Hsrc canvas Hc q; simpl; [apply Hc|].
  apply IH; [intros; apply Hsrc; by right|].
  intros q'. apply blend_alphaValid; [apply Hc|apply Hsrc; by left].
Qed.

(** With pixels in range, the composite is nowhere more opaque than the
    template: a partly transparent template pixel lets the artwork through
    in proportion only. *)
Lemma composite_alpha_at_most_template
    (templateImage : Raster) (paint : Shape -> Raster)
    (st : State) (baseColor : Rgba) (q : Z * Z) :
  (forall p, alphaValid (templateImage p)) ->
  (forall s p, alphaValid (paint s p)) ->
  alphaValid baseColor ->
  (0 <= alpha (maskedComposite templateImage paint st baseColor q)
     <= alpha (maskAt templateImage q))%Z.
Proof.
  intros Ht Hp Hb.
  assert (Hclear : alphaValid transparent) by (unfold alphaValid; simpl; lia).
  assert (Hmask : forall p, alphaValid (maskAt templateImage p)).
  { intros p. unfold maskAt, rasterOf. destruct (inExtent p); [apply Ht|done]. }
  unfold maskedComposite. rewrite sceneCommands_masked.
  rewrite app_assoc, runCommands_app.
  set (stack := runCommands templateImage paint _ blank).
  assert (Hstack : alphaValid (stack q)).
  { apply runCommands_alphaValid; [|done].
    intros cmd p [Hin|Hin]%in_app_or.
    - destruct Hin as [<-|[<-|[]]]; simpl; [|apply Hmask].
      by destruct (inExtent p).
    - unfold layerCommands in Hin. apply in_flat_map in Hin as (e & He & Hin).
      apply list_elem_of_In, list_elem_of_omap in He as (l & _ & Hl).
      destruct (layerElement_leaf st l) as [c Hc]. rewrite Hc in Hl.
      injection Hl as <-. destruct Hin as [<-|[]]. apply Hp. }
  change (runCommands templateImage paint [(destination_in, TemplateImage)] stack q)
    with (blend destination_in (stack q) (maskAt templateImage q)).
  specialize (Hmask q). unfold alphaValid in *. simpl.
  split; [apply Z.div_pos; nia|]. apply Z.div_le_upper_bound; nia.
Qed.

(** C4 with a template that is opaque on the left half of the canvas and
    a drawing rule that paints every shape opaque red over the whole
    canvas: at (600, 10) the composite is transparent, at (10, 10) it
    shows the layer. *)
Lemma composite_clipped_to_template_witness :
  let st := Samples.sampleState [Samples.sampleRect] in
  alpha (Samples.halfTemplate (600, 10)%Z) = 0%Z
  /\ maskedComposite Samples.halfTemplate Samples.paintRed st Samples.white (600, 10)%Z
     = transparent
  /\ maskedComposite Samples.halfTemplate Samples.paintRed st Samples.white (10, 10)%Z
     = Samples.red.
Proof.
  intros st.
  split; [reflexivity|].
  split; [|reflexivity].
  apply (composite_clipped_to_template Samples.halfTemplate Samples.paintRed st
           Samples.white None (600, 10)%Z eq_refl).
Defined.

End CompositorTheorems.

(* ===================================================================== *)
(** * Publishing *)
(* ===================================================================== *)

Section PublishTheorems.
Import JsM Publish.

Variable World : Type.
Variable supabase : option (SupabaseClient World).
Variable randomUUID : M World string.
Variable fetch_blob : string -> M World Blob.

Variables (title : string) (description : option string)
          (modelId previewDataUrl : string) (projectBlob : Blob) (userId : string).

Local Abbreviation publish :=
  (publishDesign World supabase randomUUID fetch_blob
                 title description modelId previewDataUrl projectBlob userId).
Local Abbreviation fails :=
  (publish_fails World supabase randomUUID fetch_blob
                 title description modelId previewDataUrl projectBlob userId).
Local Abbreviation succeeds :=
  (publish_succeeds World supabase randomUUID fetch_blob
                    title description modelId previewDataUrl projectBlob userId).

(** Every run of [publishDesign] returns, and what it returns is the
    error of a failing step with an empty identifier, or the generated
    identifier with no error. *)
Lemma publishDesign_runs w :
  exists r w', publish w = (Returns r, w')
    /\ ((exists e, r = failed e /\ fails w e w')
        \/ (exists i, r = mkPublishResult i None /\ succeeds w i w')).
Proof.
  unfold publishDesign.
  destruct supabase as [client|] eqn:Hs.
  2:{ eexists _, _. split; [reflexivity|]. left. eexists. split; [reflexivity|].
      by constructor. }
  unfold try_catch, bind.
  destruct (randomUUID w) as [[i|e] w1] eqn:E1.
  2:{ eexists _, _. split; [reflexivity|]. left. eexists. split; [reflexivity|].
      by eapply fails_uuid. }
  destruct (fetch_blob previewDataUrl w1) as [[pb|e] w2] eqn:E2.
  2:{ eexists _, _. split; [reflexivity|]. left. eexists. split; [reflexivity|].
      by eapply fails_fetch. }
  destruct (storage_upload World client ("preview/" +:+ i +:+ ".png") pb w2)
    as [[[e|]|e] w3] eqn:E3.
  1,3:(eexists _, _; split; [reflexivity|]; left; eexists; split; [reflexivity|];
       eapply fails_preview_upload; eauto; constructor).
  destruct (storage_upload World client ("projects/" +:+ i +:+ ".twrap") projectBlob w3)
    as [[[e|]|e] w4] eqn:E4.
  1,3:(eexists _, _; split; [reflexivity|]; left; eexists; split; [reflexivity|];
       eapply fails_project_upload; eauto; constructor).
  destruct (storage_getPublicUrl World client ("preview/" +:+ i +:+ ".png") w4)
    as [[url|e] w5] eqn:E5.
  2:{ eexists _, _. split; [reflexivity|]. left. eexists. split; [reflexivity|].
      by eapply fails_public_url. }
  destruct (designs_insert World client
              (designRow title description modelId userId i url) w5)
    as [[[e|]|e] w6] eqn:E6.
  1,3:(unfold designRow in E6; rewrite E6;
       eexists _, _; split; [reflexivity|]; left; eexists; split; [reflexivity|];
       eapply fails_insert; eauto; constructor).
  unfold designRow in E6. rewrite E6.
  eexists _, _. split; [reflexivity|]. right. eexists. split; [reflexivity|].
  by eapply succeeds_all.
Qed.

(** A failing step determines the result: its error, with an empty
    identifier. *)
Lemma publishDesign_failure w e w' :
  fails w e w' -> publish w = (Returns (failed e), w').
Proof.
  intros H. unfold publishDesign.
  destruct H as [Hs | c e w1 Hs E1 | c i e w1 w2 Hs E1 E2
                 | c i pb o e w1 w2 w3 Hs E1 E2 E3 Ho
                 | c i pb o e w1 w2 w3 w4 Hs E1 E2 E3 E4 Ho
                 | c i pb e w1 w2 w3 w4 w5 Hs E1 E2 E3 E4 E5
                 | c i pb url o e w1 w2 w3 w4 w5 w6 Hs E1 E2 E3 E4 E5 E6 Ho];
    rewrite Hs; [done|..]; unfold try_catch, bind; rewrite E1; try done;
    rewrite E2; try done; rewrite E3.
  - by destruct Ho.
  - rewrite E4. by destruct Ho.
  - by rewrite E4, E5.
  - rewrite E4, E5. unfold designRow in E6. rewrite E6. by destruct Ho.
Qed.

(** When every step succeeds the result is the generated identifier. *)
Lemma publishDesign_success w i w' :
  succeeds w i w' -> publish w = (Returns (mkPublishResult i None), w').
Proof.
  intros [c i' pb url w1 w2 w3 w4 w5 w6 Hs E1 E2 E3 E4 E5 E6].
  unfold publishDesign. rewrite Hs. unfold try_catch, bind.
  rewrite E1, E2, E3, E4, E5. unfold designRow in E6. by rewrite E6.
Qed.


End PublishTheorems.

(* ===================================================================== *)
(** * Project serializer *)
(* ===================================================================== *)

Section SerializerTheorems.
Import Model JsM Serializer SerializerSpec.

Lemma bind_run {S A B} (c : M S A) (k : A -> M S B) st a st' :
  c st = (Returns a, st') -> bind c k st = k a st'.
Proof. intros H. unfold bind. by rewrite H. Qed.

Variable atob : string -> option string.
Variable now : string.

Lemma fresh_not_allocated (h : gmap loc Obj) : h !! fresh (dom h) = None.
Proof. apply not_elem_of_dom. apply is_fresh. Qed.

(** The guard of the source, a truthy field that starts with "data:", is
    the embedded test. *)
Lemma guard_embedded (f : option string) :
  truthy_str f && startsWith "data:" (default "" f) = embedded f.
Proof.
  destruct f as [s|]; simpl; [|done].
  destruct s as [|c s]; simpl; [done|]. reflexivity.
Qed.

(** The map callback allocates one new object, the manifest entry of the
    layer, and pushes the layer's image entry; nothing else changes. *)
Lemma cleanLayerOf_run st r l :
  heap st !! r = Some (OLayer l) ->
  cleanLayerOf r st
  = (Returns (fresh (dom (heap st))),
     mkState (<[fresh (dom (heap st)) := OLayer (manifestEntry l)]> (heap st))
             (images st ++ entriesOf l) (zip st)).
Proof.
  intros Hr. unfold cleanLayerOf, bind, readLayer. rewrite Hr.
  unfold alloc. cbn [heap images zip].
  set (r' := fresh (dom (heap st))).
  unfold manifestEntry, entriesOf.
  pose proof (guard_embedded (src l)) as Gs.
  pose proof (guard_embedded (fillImageDataUrl l)) as Gf.
  destruct (type l) eqn:Ht; repeat case_bool_decide; try done; cbn [orb andb].
  all: try (unfold ret; cbn; by rewrite app_nil_r).
  all: rewrite <- ?Gs, <- ?Gf; clear Gs Gf.
  all: destruct (truthy_str _); cbn [andb];
    [destruct (startsWith _ _)|]; unfold ret, push, assign; cbn;
    rewrite ?app_nil_r, ?alter_insert_eq; reflexivity.
Qed.

(** ** The heap only grows *)

Lemma grows_ret {A} (a : A) : grows (ret a).
Proof. by intros st. Qed.

Lemma grows_throw {A} e : grows (@throw State A e).
Proof. by intros st. Qed.

Lemma grows_bind {A B} (c : M State A) (k : A -> M State B) :
  grows c -> (forall a, grows (k a)) -> grows (bind c k).
Proof.
  intros Hc Hk st. unfold bind. specialize (Hc st).
  destruct (c st) as [[a|e] st1]; simpl in *; [|done].
  etrans; [exact Hc|apply Hk].
Qed.

Lemma grows_readProject r : grows (readProject r).
Proof. intros st. unfold readProject. by destruct (heap st !! r) as [[]|]. Qed.

Lemma grows_readArray r : grows (readArray r).
Proof. intros st. unfold readArray. by destruct (heap st !! r) as [[]|]. Qed.

Lemma grows_readLayer r : grows (readLayer r).
Proof. intros st. unfold readLayer. by destruct (heap st !! r) as [[]|]. Qed.

Lemma grows_alloc o : grows (alloc o).
Proof. intros st. simpl. apply insert_subseteq, fresh_not_allocated. Qed.

Lemma grows_zip_file path e : grows (zip_file path e).
Proof. by intros st. Qed.

Lemma grows_zip_folder n : grows (zip_folder n).
Proof. by intros st. Qed.

Lemma grows_cleanLayerOf r : grows (cleanLayerOf r).
Proof.
  intros st. destruct (heap st !! r) as [[l| |]|] eqn:Hr.
  - rewrite (cleanLayerOf_run st r l Hr). simpl.
    apply insert_subseteq, fresh_not_allocated.
  - unfold cleanLayerOf, bind, readLayer. by rewrite Hr.
  - unfold cleanLayerOf, bind, readLayer. by rewrite Hr.
  - unfold cleanLayerOf, bind, readLayer. by rewrite Hr.
Qed.

Lemma grows_mapM {A B} (f : A -> M State B) xs :
  (forall a, grows (f a)) -> grows (mapM f xs).
Proof.
  intros Hf. induction xs as [|a xs IH]; simpl; [apply grows_ret|].
  apply grows_bind; [apply Hf|]. intros b.
  apply grows_bind; [apply IH|]. intros bs. apply grows_ret.
Qed.

Lemma grows_forM_ {A} (f : A -> M State unit) xs :
  (forall a, grows (f a)) -> grows (forM_ xs f).
Proof.
  intros Hf. induction xs as [|a xs IH]; simpl; [apply grows_ret|].
  apply grows_bind; [apply Hf|]. intros _. apply IH.
Qed.

Lemma grows_dataUrlToUint8Array url : grows (dataUrlToUint8Array atob url).
Proof.
  unfold dataUrlToUint8Array. destruct (atob _); [apply grows_ret|apply grows_throw].
Qed.

Lemma grows_projectToZip project : grows (projectToZip atob now project).
Proof.
  unfold projectToZip.
  apply grows_bind; [apply grows_readProject|]. intros p.
  apply grows_bind; [apply grows_readArray|]. intros refs.
  apply grows_bind; [apply grows_mapM, grows_cleanLayerOf|]. intros cleaned.
  apply grows_bind; [apply grows_alloc|]. intros arr.
  apply grows_bind; [apply grows_mapM, grows_readLayer|]. intros ls.
  apply grows_bind; [apply grows_zip_file|]. intros _.
  apply grows_bind; [by intros st|]. intros imgs.
  apply grows_bind; [|intros a st; reflexivity].
  destruct (0 <? length imgs)%nat; [|apply grows_ret].
  apply grows_bind; [apply grows_zip_folder|]. intros folder.
  apply grows_forM_. intros img.
  apply grows_bind; [apply grows_dataUrlToUint8Array|]. intros bytes.
  apply grows_zip_file.
Qed.

Lemma holdsProject_weaken h h' project p Ls :
  h ⊆ h' -> holdsProject h project p Ls -> holdsProject h' project p Ls.
Proof.
  intros Hsub (Hp & refs & Ha & Hl). split; [by apply (lookup_weaken h h')|].
  exists refs. split; [by apply (lookup_weaken h h')|].
  eapply Forall2_impl; [exact Hl|]. intros r l Hr. by apply (lookup_weaken h h').
Qed.

(** C10. Serialization leaves its input as it was: whether
    [projectToBlob] returns or throws, every object that was in the heap
    before the call (the project object, its layer array and every layer
    object, with all their properties) is there unchanged afterwards; the
    path substitution is done on newly allocated copies. *)
Theorem projectToBlob_leaves_input_untouched
    (generateAsync : gmap string ZipEntry -> list Byte.byte)
    (project : loc) (st : State) :
  let st' := (projectToBlob atob now generateAsync project st).2 in
  heap st ⊆ heap st'
  /\ (forall r o, heap st !! r = Some o -> heap st' !! r = Some o)
  /\ (forall p Ls, holdsProject (heap st) project p Ls ->
                   holdsProject (heap st') project p Ls).
Proof.
  intros st'.
  assert (H : heap st ⊆ heap st').
  { subst st'. unfold projectToBlob.
    apply (grows_bind _ _ (grows_projectToZip project)). intros z. apply grows_ret. }
  split; [exact H|]. split.
  - intros r o Hr. by apply (lookup_weaken (heap st) (heap st')).
  - intros p Ls. by apply holdsProject_weaken.
Qed.

(** ** What the archive holds *)

Lemma mapM_cleanLayerOf_run refs Ls :
  forall st,
  Forall2 (fun r l => heap st !! r = Some (OLayer l)) refs Ls ->
  exists refs' st',
    mapM cleanLayerOf refs st = (Returns refs', st')
    /\ heap st ⊆ heap st'
    /\ Forall2 (fun r l => heap st' !! r = Some (OLayer (manifestEntry l))) refs' Ls
    /\ images st' = images st ++ flat_map entriesOf Ls
    /\ zip st' = zip st.
Proof.
  intros st H. revert st H.
  induction Ls as [|l Ls IH] in refs |- *; intros st H.
  - apply Forall2_nil_inv_r in H as ->. exists [], st. simpl.
    by rewrite app_nil_r.
  - apply Forall2_cons_inv_r in H as (r & refs0 & Hr & Hrest & ->).
    simpl. unfold bind at 1. rewrite (cleanLayerOf_run st r l Hr).
    set (r' := fresh (dom (heap st))).
    set (st1 := mkState (<[r' := OLayer (manifestEntry l)]> (heap st))
                        (images st ++ entriesOf l) (zip st)).
    assert (Hsub : heap st ⊆ heap st1).
    { apply insert_subseteq, fresh_not_allocated. }
    destruct (IH refs0 st1) as (refs' & st' & Hrun & Hsub' & Hall & Himg & Hzip).
    { eapply Forall2_impl; [exact Hrest|]. intros r0 l0 H0.
      by apply (lookup_weaken (heap st) (heap st1)). }
    exists (r' :: refs'), st'. unfold bind. rewrite Hrun. simpl.
    split; [done|]. split; [by etrans|]. split; [|split].
    + constructor; [|done].
      apply (lookup_weaken (heap st1) (heap st')); [|done].
      apply lookup_insert_eq.
    + rewrite Himg. simpl. by rewrite <- app_assoc.
    + by rewrite Hzip.
Qed.

Lemma mapM_readLayer_run refs Ls st :
  Forall2 (fun r l => heap st !! r = Some (OLayer l)) refs Ls ->
  mapM readLayer refs st = (Returns Ls, st).
Proof.
  induction 1 as [|r l refs Ls Hr _ IH]; simpl; [done|].
  unfold bind at 1. unfold readLayer at 1. rewrite Hr.
  unfold bind. by rewrite IH.
Qed.

Lemma Forall2_map_r {A B C} (P : A -> C -> Prop) (f : B -> C) xs ys :
  Forall2 (fun a b => P a (f b)) xs ys -> Forall2 P xs (List.map f ys).
Proof. induction 1; simpl; by constructor. Qed.

Lemma entriesOf_embeddedRaster Ls :
  List.map (fun e => (filename e, dataUrl e)) (flat_map entriesOf Ls)
  = omap embeddedRaster Ls.
Proof.
  induction Ls as [|l Ls IH]; simpl; [done|].
  rewrite List.map_app, IH. unfold entriesOf, embeddedRaster.
  destruct (type l); try done.
  all: by destruct (embedded _).
Qed.

Lemma storedPath_entriesOf l e : In e (entriesOf l) -> storedPath e = filename e.
Proof.
  unfold entriesOf. destruct (type l); simpl; try done.
  all: destruct (embedded _); simpl; try done.
  all: intros [<-|[]]; reflexivity.
Qed.

Lemma image_loop_run imgs :
  forall st,
  (forall img, In img imgs -> is_Some (decoded atob (dataUrl img))) ->
  forM_ imgs (fun img =>
      bytes <- dataUrlToUint8Array atob (dataUrl img) ;;
      let filename := replace_first "images/" "" (filename img) in
      zip_file (("images" +:+ "/") +:+ filename) (ZBinary bytes))%jsm st
  = (Returns tt,
     mkState (heap st) (images st)
             (fold_left (fun z img => <[storedPath img := ZBinary (storedBytes atob img)]> z)
                        imgs (zip st))).
Proof.
  induction imgs as [|img imgs IH]; intros st Hdec; simpl.
  - by destruct st.
  - destruct (Hdec img (or_introl eq_refl)) as [bytes Hb].
    unfold bind at 1. unfold bind at 1. unfold dataUrlToUint8Array.
    unfold decoded in Hb. destruct (atob _) as [binary|] eqn:Ha; [|done].
    simpl in Hb. injection Hb as <-. simpl.
    rewrite IH by (intros; apply Hdec; by right). simpl.
    unfold storedBytes, decoded, storedPath. by rewrite Ha.
Qed.

Lemma fold_insert_lookup_ne (imgs : list ImageEntry) (z : gmap string ZipEntry) k :
  ~ In k (List.map storedPath imgs) ->
  fold_left (fun z img => <[storedPath img := ZBinary (storedBytes atob img)]> z) imgs z !! k
  = z !! k.
Proof.
  revert z. induction imgs as [|img imgs IH]; intros z Hk; simpl; [done|].
  rewrite IH by (intros ?; apply Hk; by right).
  apply lookup_insert_ne. intros E. apply Hk. by left.
Qed.

Lemma fold_insert_lookup (imgs : list ImageEntry) (z : gmap string ZipEntry) img :
  List.NoDup (List.map storedPath imgs) ->
  In img imgs ->
  fold_left (fun z img => <[storedPath img := ZBinary (storedBytes atob img)]> z) imgs z
    !! storedPath img
  = Some (ZBinary (storedBytes atob img)).
Proof.
  revert z. induction imgs as [|a imgs IH]; intros z Hnd Hin; simpl; [done|].
  inversion Hnd as [|? ? Hna Hnd']; subst.
  destruct Hin as [->|Hin].
  - rewrite fold_insert_lookup_ne by done. apply lookup_insert_eq.
  - by apply IH.
Qed.

Lemma entriesOf_of_embeddedRaster l path url :
  embeddedRaster l = Some (path, url) ->
  exists e, In e (entriesOf l) /\ filename e = path /\ dataUrl e = url.
Proof.
  unfold embeddedRaster, entriesOf. destruct (type l); try done.
  all: destruct (embedded _); try done.
  all: intros [= <- <-]; eexists; split; [by left|done].
Qed.

Lemma embeddedRaster_of_entriesOf l e :
  In e (entriesOf l) -> embeddedRaster l = Some (filename e, dataUrl e).
Proof.
  unfold embeddedRaster, entriesOf. destruct (type l); try done.
  all: destruct (embedded _); try done.
  all: by intros [<-|[]].
Qed.

Lemma storedPath_not_manifest Ls :
  ~ In "manifest.json" (List.map storedPath (flat_map entriesOf Ls)).
Proof.
  intros H. apply in_map_iff in H as (e & He & Hin).
  apply in_flat_map in Hin as (l & _ & Hl).
  rewrite (storedPath_entriesOf l e Hl) in He.
  revert He. clear -Hl. unfold entriesOf in Hl.
  destruct (type l); try done.
  all: destruct (embedded _); try done.
  all: by destruct Hl as [<-|[]].
Qed.

Lemma storedPath_flat_entries Ls :
  List.map storedPath (flat_map entriesOf Ls) = List.map fst (omap embeddedRaster Ls).
Proof.
  rewrite <- entriesOf_embeddedRaster, List.map_map. apply List.map_ext_in.
  intros e Hin. apply in_flat_map in Hin as (l & _ & Hl). simpl.
  by apply (storedPath_entriesOf l).
Qed.

(** Up to the image loop nothing can fail on a well-formed project: the
    manifest entries are allocated, the manifest is written and the
    [images] array holds the entry of every embedded raster. *)
Lemma projectToZip_prefix h project p Ls :
  holdsProject h project p Ls ->
  exists hp,
    projectToZip atob now project (enter h)
    = bind (imageLoop atob (flat_map entriesOf Ls))
           (fun _ st => (Returns (zip st), st))
           (mkState hp (flat_map entriesOf Ls)
                    (<["manifest.json" := ZText (manifestOf now p Ls)]> ∅)).
Proof.
  intros (Hp & refs & Ha & Hl).
  destruct (mapM_cleanLayerOf_run refs Ls (enter h) Hl)
    as (refs' & st1 & Hrun & Hsub & Hall & Himg & Hzip).
  simpl in Himg, Hzip.
  set (arr := fresh (dom (heap st1))).
  set (st2 := mkState (<[arr := OArray refs']> (heap st1)) (images st1) (zip st1)).
  assert (Hall2 : Forall2 (fun r l => heap st2 !! r = Some (OLayer (manifestEntry l)))
                          refs' Ls).
  { eapply Forall2_impl; [exact Hall|]. intros r l Hr.
    apply (lookup_weaken (heap st1)); [done|].
    apply insert_subseteq, fresh_not_allocated. }
  exists (heap st2). unfold projectToZip.
  erewrite bind_run; [|unfold readProject; cbn [enter heap]; by rewrite Hp].
  erewrite bind_run; [|unfold readArray; cbn [enter heap]; by rewrite Ha].
  erewrite bind_run; [|exact Hrun].
  erewrite bind_run; [|reflexivity]. fold arr. fold st2.
  erewrite bind_run; [|apply (mapM_readLayer_run refs' (List.map manifestEntry Ls) st2);
                       by apply Forall2_map_r].
  erewrite bind_run; [|reflexivity].
  erewrite bind_run; [|reflexivity].
  cbn [heap images zip].
  change (images st2) with (images st1). change (zip st2) with (zip st1).
  rewrite Himg, Hzip. reflexivity.
Qed.

(** The image loop returns when every entry decodes ... *)
Lemma imageLoop_run imgs st :
  (forall img, In img imgs -> is_Some (decoded atob (dataUrl img))) ->
  imageLoop atob imgs st
  = (Returns tt,
     mkState (heap st) (images st)
       (if (0 <? length imgs)%nat
        then fold_left (fun z img => <[storedPath img := ZBinary (storedBytes atob img)]> z)
                       imgs (<["images" +:+ "/" := ZFolder]> (zip st))
        else zip st)).
Proof.
  intros Hdec. unfold imageLoop. destruct (0 <? length imgs)%nat.
  - erewrite bind_run; [|reflexivity].
    rewrite (image_loop_run imgs _ Hdec). reflexivity.
  - by destruct st.
Qed.

(** ... and throws at the first entry that does not. *)
Lemma imageLoop_throws imgs st :
  (exists img, In img imgs /\ decoded atob (dataUrl img) = None) ->
  exists st', imageLoop atob imgs st = (Throws invalidCharacterError, st').
Proof.
  intros (bad & Hin & Hbad). unfold imageLoop.
  destruct imgs as [|i0 imgs0] eqn:E; [destruct Hin|]. rewrite <- E in *.
  assert (Hpos : (0 <? length imgs)%nat = true) by (by rewrite E).
  rewrite Hpos. erewrite bind_run; [|reflexivity].
  generalize (mkState (heap st) (images st) (<["images" +:+ "/" := ZFolder]> (zip st))).
  clear E Hpos st i0 imgs0. induction imgs as [|img imgs IH]; intros st; [destruct Hin|].
  simpl. unfold bind at 1. unfold bind at 1. unfold dataUrlToUint8Array.
  destruct (atob (default "undefined" (split_comma_1 (dataUrl img)))) as [binary|] eqn:Ha.
  - simpl. destruct Hin as [->|Hin].
    + unfold decoded in Hbad. by rewrite Ha in Hbad.
    + by apply IH.
  - simpl. by eexists.
Qed.

Lemma decodable_or_not imgs :
  (forall img, In img imgs -> is_Some (decoded atob (dataUrl img)))
  \/ (exists img, In img imgs /\ decoded atob (dataUrl img) = None).
Proof.
  induction imgs as [|img imgs [IH|(bad & Hin & Hbad)]].
  - left. intros img [].
  - destruct (decoded atob (dataUrl img)) eqn:E.
    + left. intros i [<-|Hi]; [by rewrite E|by apply IH].
    + right. exists img. split; [by left|done].
  - right. exists bad. split; [by right|done].
Qed.

(** C2, as amended. For a project whose embedded rasters are given
    pairwise distinct archive paths: serialization produces an archive
    exactly when every embedded raster decodes (it throws otherwise); the
    manifest of the archive lists, in the layers' order, each layer with
    its raster-holding field replaced by images/<id>.png (image and
    texture layers) or images/fill-<id>.png (fill layers) exactly when
    that field holds a data URL, every other field being the layer's; and
    the archive holds at each such path the decoded bytes of the embedded
    data. *)
Theorem serialization_externalizes_rasters
    (h : gmap loc Obj) (project : loc) (p : ProjectFile) (Ls : list Layer) :
  holdsProject h project p Ls ->
  distinctPaths Ls ->
  (allDecodable atob Ls /\ serializes atob now h project p Ls)
  \/ (~ allDecodable atob Ls
      /\ exists e st', projectToZip atob now project (enter h) = (Throws e, st')).
Proof.
  intros Hwf Hnd.
  destruct (projectToZip_prefix h project p Ls Hwf) as (hp & Hrun).
  set (imgs := flat_map entriesOf Ls) in *.
  set (z0 := <["manifest.json" := ZText (manifestOf now p Ls)]> (∅ : gmap string ZipEntry)) in *.
  destruct (decodable_or_not imgs) as [Hdec'|Hbad].
  - left.
    assert (Hdec : allDecodable atob Ls).
    { intros l path url HlL Hr.
      destruct (entriesOf_of_embeddedRaster l path url Hr) as (e & He & <- & <-).
      apply Hdec'. apply in_flat_map. eauto. }
    split; [exact Hdec|].
    set (zfinal := if (0 <? length imgs)%nat
                   then fold_left (fun z img => <[storedPath img := ZBinary (storedBytes atob img)]> z)
                                  imgs (<["images" +:+ "/" := ZFolder]> z0)
                   else z0).
    exists (mkState hp imgs zfinal).
    split.
    { rewrite Hrun. erewrite bind_run; [|by apply imageLoop_run]. reflexivity. }
    cbn [zip]. split.
    + unfold zfinal. destruct (0 <? length imgs)%nat.
      * rewrite fold_insert_lookup_ne by apply storedPath_not_manifest.
        rewrite lookup_insert_ne by done. apply lookup_insert_eq.
      * apply lookup_insert_eq.
    + intros l path url HlL Hr.
      destruct (entriesOf_of_embeddedRaster l path url Hr) as (e & He & <- & <-).
      assert (Hin : In e imgs) by (apply in_flat_map; eauto).
      destruct (Hdec' e Hin) as [bytes Hb]. exists bytes. split; [exact Hb|].
      assert (Hnd' : List.NoDup (List.map storedPath imgs)).
      { unfold imgs. rewrite storedPath_flat_entries. by apply NoDup_ListNoDup. }
      assert (Hpos : (0 <? length imgs)%nat = true).
      { clear -Hin. destruct imgs; [destruct Hin|reflexivity]. }
      unfold zfinal. rewrite Hpos.
      rewrite <- (storedPath_entriesOf l e He).
      rewrite fold_insert_lookup by done.
      unfold storedBytes. by rewrite Hb.
  - right. split.
    + intros Hdec. destruct Hbad as (bad & Hin & Hbad).
      apply in_flat_map in Hin as (l & HlL & He).
      destruct (Hdec l (filename bad) (dataUrl bad) HlL
                     (embeddedRaster_of_entriesOf l bad He)) as [b Hb].
      congruence.
    + destruct (imageLoop_throws imgs (mkState hp imgs z0) Hbad) as [st' Hthrow].
      exists invalidCharacterError, st'. rewrite Hrun. unfold bind. by rewrite Hthrow.
Qed.

End SerializerTheorems.

Section SerializerExamples.
Import Model JsM Serializer SerializerSpec.

Example sampleAtob_AAAA : Samples.sampleAtob "AAAA" = Some (String "000" (String "000" (String "000" ""))).
Proof. reflexivity. Qed.

Example sampleAtob_hello : Samples.sampleAtob "aGVsbG8=" = Some "hello".
Proof. reflexivity. Qed.

(** C2 as stated fails. An image layer named "fill-a" and a fill layer
    named "a" both embed a raster that decodes, and both rasters are given
    the path images/fill-a.png: the archive holds one file there, the fill
    layer's raster, so the file at the image layer's path is not the
    decoded raster of the image layer. *)
Lemma raster_paths_collide :
  let h := Samples.sampleHeap Samples.clashA Samples.clashB in
  let Ls := [Samples.clashA; Samples.clashB] in
  holdsProject h 1%positive Samples.sampleProjectFile Ls
  /\ allDecodable Samples.sampleAtob Ls
  /\ embeddedRaster Samples.clashA
     = Some ("images/fill-a.png", "data:image/png;base64,AAAA")
  /\ embeddedRaster Samples.clashB
     = Some ("images/fill-a.png", "data:image/png;base64,BBBB")
  /\ ~ serializes Samples.sampleAtob Samples.sampleNow h 1%positive
                  Samples.sampleProjectFile Ls.
Proof.
  intros h Ls.
  split. { split; [reflexivity|]. exists [3%positive; 4%positive].
           split; [reflexivity|]. repeat constructor. }
  split. { intros l path url [<-|[<-|[]]] [= <- <-]; by eexists. }
  split; [reflexivity|]. split; [reflexivity|].
  intros (st' & Hrun & _ & Hras).
  destruct (Hras Samples.clashA "images/fill-a.png" "data:image/png;base64,AAAA"
                 (or_introl eq_refl) eq_refl) as (bytes & Hb & Hz).
  vm_compute in Hb. injection Hb as <-.
  vm_compute in Hrun. injection Hrun as _ <-.
  vm_compute in Hz. discriminate Hz.
Qed.

(** C2 as amended, at a project with an image layer "img1" and a fill
    layer "f1": the archive holds the two decoded rasters at
    images/img1.png and images/fill-f1.png. *)
Lemma serialization_externalizes_rasters_witness :
  let h := Samples.sampleHeap Samples.layerA Samples.layerB in
  let Ls := [Samples.layerA; Samples.layerB] in
  holdsProject h 1%positive Samples.sampleProjectFile Ls
  /\ allDecodable Samples.sampleAtob Ls
  /\ distinctPaths Ls
  /\ serializes Samples.sampleAtob Samples.sampleNow h 1%positive
                Samples.sampleProjectFile Ls.
Proof.
  intros h Ls.
  assert (H1 : holdsProject h 1%positive Samples.sampleProjectFile Ls).
  { split; [reflexivity|]. exists [3%positive; 4%positive].
    split; [reflexivity|]. repeat constructor. }
  assert (H2 : allDecodable Samples.sampleAtob Ls).
  { intros l path url [<-|[<-|[]]] [= <- <-]; by eexists. }
  assert (H3 : distinctPaths Ls).
  { unfold distinctPaths. apply (bool_decide_unpack _). vm_compute. exact I. }
  split; [exact H1|]. split; [exact H2|]. split; [exact H3|].
  destruct (serialization_externalizes_rasters Samples.sampleAtob Samples.sampleNow
              h 1%positive Samples.sampleProjectFile Ls H1 H3) as [[_ H]|[H _]].
  - exact H.
  - destruct (H H2).
Defined.

(** The archive of that project, file by file. *)
Example sample_archive_files :
  let z := zip (projectToZip Samples.sampleAtob Samples.sampleNow 1%positive
                  (enter (Samples.sampleHeap Samples.layerA Samples.layerB))).2 in
  z !! "images/img1.png" = Some (ZBinary [Byte.x00; Byte.x00; Byte.x00])
  /\ z !! "images/fill-f1.png" = Some (ZBinary [Byte.x04; Byte.x10; Byte.x41])
  /\ z !! "images/" = Some ZFolder
  /\ (m_layers <$> match z !! "manifest.json" with
                    | Some (ZText m) => Some m
                    | _ => None
                    end)
     = Some [with_src "images/img1.png" Samples.layerA;
             with_fillImageDataUrl "images/fill-f1.png" Samples.layerB].
Proof. vm_compute. repeat split; reflexivity. Qed.

End SerializerExamples.

(* ===================================================================== *)
(** * Export capture *)
(* ===================================================================== *)

Section ExportTheorems.
Import Exporter.

Variable toDataURL : Config -> KNode -> list ref -> string.

(** Induction on node trees. *)
Lemma KNode_tree_ind (P : KNode -> Prop) :
  (forall r c, P (KShape r c)) ->
  (forall r c l cs, List.Forall P cs -> P (KContainer r c l cs)) ->
  (forall r l a, P (KTransformer r l a)) ->
  forall n, P n.
Proof.
  intros Hs Hc Ht. fix IH 1. intros [r c|r c l cs|r l a].
  - apply Hs.
  - apply Hc. induction cs as [|c0 cs IHcs]; constructor; [apply IH|apply IHcs].
  - apply Ht.
Qed.

Lemma NoDup_app_inv {A} (l1 l2 : list A) :
  List.NoDup (l1 ++ l2) ->
  List.NoDup l1 /\ List.NoDup l2 /\ (forall a, In a l1 -> ~ In a l2).
Proof.
  intros H. split; [by apply NoDup_app_remove_r in H|].
  split; [by apply NoDup_app_remove_l in H|].
  induction l1 as [|x l1 IH]; simpl in *; [tauto|].
  apply NoDup_cons_iff in H as [Hx Hnd]. intros a [<-|Ha].
  - intros Hin. apply Hx. apply in_or_app. by right.
  - by apply IH.
Qed.

Lemma refs_of_descendants n :
  refs_of n = ref_of n :: List.map ref_of (descendants n).
Proof.
  induction n as [r c|r c l cs IH|r l a] using KNode_tree_ind; simpl; [done| |].
  - f_equal. induction IH as [|c0 cs Hc0 _ IHcs]; simpl; [done|].
    rewrite List.map_app, <- IHcs, Hc0. reflexivity.
  - f_equal. rewrite List.map_map. simpl. by rewrite List.map_id.
Qed.

Lemma drawn_refs_of v n r : In r (drawn v n) -> In r (refs_of n).
Proof.
  revert r. induction n as [r0 c|r0 c l cs IH|r0 l a] using KNode_tree_ind;
    intros r; simpl.
  - destruct (v r0); simpl; tauto.
  - destruct (v r0); simpl; [|tauto]. intros [->|Hin]; [by left|right].
    apply in_flat_map in Hin as (c0 & Hc0 & Hr). apply in_flat_map.
    exists c0. split; [done|]. rewrite List.Forall_forall in IH. by apply IH.
  - destruct (v r0); simpl; [|tauto]. intros [->|Hin]; [by left|right].
    by apply filter_In in Hin as [Hin _].
Qed.

Lemma drawn_ext v v' n : (forall r, v r = v' r) -> drawn v n = drawn v' n.
Proof.
  intros Hvv. induction n as [r c|r c l cs IH|r l a] using KNode_tree_ind; simpl.
  - by rewrite Hvv.
  - rewrite Hvv. destruct (v' r); [|done]. f_equal.
    induction IH as [|c0 cs Hc0 _ IHcs]; simpl; [done|]. by rewrite Hc0, IHcs.
  - rewrite Hvv. destruct (v' r); [|done]. f_equal.
    apply filter_ext. intros a0. apply Hvv.
Qed.

Lemma descendant_refs_of n m r :
  In m (descendants n) -> In r (refs_of m) -> In r (List.map ref_of (descendants n)).
Proof.
  revert m r. induction n as [r0 c|r0 c l cs IH|r0 l a] using KNode_tree_ind;
    intros m r; simpl; [tauto| |].
  - intros Hm Hr. apply in_flat_map in Hm as (c0 & Hc0 & Hm).
    rewrite flat_map_concat_map, concat_map, List.map_map, <- flat_map_concat_map.
    apply in_flat_map. exists c0. split; [done|].
    change (In r (ref_of c0 :: List.map ref_of (descendants c0))).
    rewrite <- refs_of_descendants.
    destruct Hm as [<-|Hm]; [done|].
    rewrite refs_of_descendants. right.
    rewrite List.Forall_forall in IH. by apply (IH c0 Hc0 m r).
  - intros Hm Hr. apply in_map_iff in Hm as (a0 & <- & Ha0).
    simpl in Hr. destruct Hr as [<-|[]]. rewrite List.map_map. simpl.
    by rewrite List.map_id.
Qed.

(** With distinct node identities, nothing inside an invisible node is
    drawn. *)
Lemma invisible_subtree_not_drawn v n :
  List.NoDup (refs_of n) ->
  forall m, In m (n :: descendants n) -> v (ref_of m) = false ->
  forall r, In r (refs_of m) -> ~ In r (drawn v n).
Proof.
  induction n as [r0 c|r0 c l cs IH|r0 l a] using KNode_tree_ind;
    intros Hnd m Hm Hv r Hr.
  - destruct Hm as [<-|[]]. simpl in *. rewrite Hv. tauto.
  - destruct Hm as [<-|Hm]; [simpl in *; rewrite Hv; tauto|].
    simpl. destruct (v r0); [|tauto].
    simpl in Hnd. apply NoDup_cons_iff in Hnd as [Hr0 Hnd].
    simpl in Hm. apply in_flat_map in Hm as (c0 & Hc0 & Hm).
    assert (Hrc0 : In r (refs_of c0)).
    { destruct Hm as [<-|Hm]; [done|].
      rewrite refs_of_descendants. right. by apply (descendant_refs_of c0 m). }
    intros [<-|Hin].
    { apply Hr0. apply in_flat_map. by exists c0. }
    apply in_split in Hc0 as (l1 & l2 & ->).
    rewrite flat_map_app in Hnd, Hin. simpl in Hnd, Hin.
    apply NoDup_app_inv in Hnd as (_ & Hnd2 & Hd1).
    apply NoDup_app_inv in Hnd2 as (Hndc & _ & Hd2).
    apply in_app_or in Hin as [Hin|Hin]; [|apply in_app_or in Hin as [Hin|Hin]].
    + apply (Hd1 r); [|apply in_or_app; by left].
      apply in_flat_map in Hin as (c1 & Hc1 & Hin). apply in_flat_map.
      exists c1. split; [done|]. by apply (drawn_refs_of v).
    + rewrite List.Forall_forall in IH.
      by apply (IH c0 ltac:(apply in_or_app; right; by left) Hndc m Hm Hv r Hr).
    + apply (Hd2 r Hrc0).
      apply in_flat_map in Hin as (c1 & Hc1 & Hin). apply in_flat_map.
      exists c1. split; [done|]. by apply (drawn_refs_of v).
  - destruct Hm as [<-|Hm]; [simpl in *; rewrite Hv; tauto|].
    simpl in Hm. apply in_map_iff in Hm as (a0 & <- & Ha0).
    simpl in Hr, Hv. destruct Hr as [<-|[]].
    simpl. destruct (v r0); [|tauto].
    simpl in Hnd. apply NoDup_cons_iff in Hnd as [Hr0 _].
    intros [<-|Hin]; [done|].
    apply filter_In in Hin as [_ Hin]. congruence.
Qed.

Lemma NoDup_map_filter {A B} (f : A -> B) (p : A -> bool) l :
  List.NoDup (List.map f l) -> List.NoDup (List.map f (List.filter p l)).
Proof.
  induction l as [|a l IH]; simpl; [done|].
  intros [Ha Hnd]%NoDup_cons_iff. destruct (p a); simpl; [|by apply IH].
  constructor; [|by apply IH]. intros Hin. apply Ha.
  apply in_map_iff in Hin as (b & Hb & Hin). apply filter_In in Hin as [Hin _].
  apply in_map_iff. by exists b.
Qed.

Lemma NoDup_map_inj_on {A B} (f : A -> B) l a b :
  List.NoDup (List.map f l) -> In a l -> In b l -> f a = f b -> a = b.
Proof.
  induction l as [|c l IH]; simpl; [tauto|].
  intros [Hc Hnd]%NoDup_cons_iff [<-|Ha] [<-|Hb] Hf; try done.
  - exfalso. apply Hc. rewrite Hf. by apply in_map.
  - exfalso. apply Hc. rewrite <- Hf. by apply in_map.
  - by apply IH.
Qed.

(** A node found by the selector "Transformer" is never taken for a brush
    cursor: its children are anchor rectangles. *)
Lemma transformer_not_brush_cursor t :
  is_match "Transformer" t = true -> isBrushCursorGroup t = false.
Proof.
  unfold is_match, isBrushCursorGroup. destruct t as [r c|r c l cs|r l a]; simpl.
  - by intros _.
  - by destruct c.
  - intros _. apply andb_false_iff. right. apply andb_false_iff. left.
    induction a as [|a0 a IH]; simpl; [done|exact IH].
Qed.

Lemma hiddenNodes_distinct stage :
  List.NoDup (refs_of stage) -> List.NoDup (List.map ref_of (hiddenNodes stage)).
Proof.
  intros Hnd. rewrite refs_of_descendants in Hnd.
  apply NoDup_cons_iff in Hnd as [_ Hnd].
  assert (Hg : List.NoDup (List.map ref_of
                 (List.filter isBrushCursorGroup (find "Group" stage)))).
  { unfold find. by do 2 apply NoDup_map_filter. }
  unfold hiddenNodes. destruct (findOne "Transformer" stage) as [t|] eqn:Ht; [|done].
  simpl. constructor; [|done].
  apply find_some in Ht as [Ht Hm].
  intros Hin. apply in_map_iff in Hin as (g & Hg' & Hin).
  apply filter_In in Hin as [Hin Hbc]. apply filter_In in Hin as [Hin _].
  assert (g = t) by (by apply (NoDup_map_inj_on ref_of (descendants stage))).
  subst g. rewrite (transformer_not_brush_cursor t Hm) in Hbc. done.
Qed.

Lemma fold_hide_filter (p : KNode -> bool) gs st :
  fold_left (fun st g => if p g then hide g st else st) gs st
  = hideAll (List.filter p gs) st.
Proof.
  revert st. induction gs as [|g gs IH]; intros st; simpl; [done|].
  destruct (p g); simpl; apply IH.
Qed.

Lemma hideAll_app H1 H2 st : hideAll (H1 ++ H2) st = hideAll H2 (hideAll H1 st).
Proof. apply fold_left_app. Qed.

Lemma hideAll_spec H :
  forall st, List.NoDup (List.map ref_of H) ->
  (forall r, vis (hideAll H st) r
             = if bool_decide (r ∈ List.map ref_of H) then false else vis st r)
  /\ elementsToHide (hideAll H st)
     = elementsToHide st ++ List.map (fun n => (ref_of n, vis st (ref_of n))) H
  /\ calls (hideAll H st)
     = calls st ++ List.map (fun n => CallVisible (ref_of n) false) H.
Proof.
  induction H as [|n H IH]; intros st Hnd; simpl.
  - by rewrite !app_nil_r.
  - apply NoDup_cons_iff in Hnd as [Hn Hnd].
    destruct (IH (hide n st) Hnd) as (Hv & He & Hc). split; [|split].
    + intros r. rewrite Hv. simpl. unfold set_visible.
      destruct (Pos.eqb_spec r (ref_of n)) as [->|Hne].
      * rewrite (bool_decide_eq_true_2 (ref_of n ∈ ref_of n :: _)) by apply list_elem_of_here.
        by destruct (bool_decide _).
      * destruct (bool_decide (r ∈ List.map ref_of H)) eqn:E.
        -- apply bool_decide_eq_true_1 in E.
           by rewrite (bool_decide_eq_true_2 _ (list_elem_of_further _ _ _ E)).
        -- apply bool_decide_eq_false_1 in E. rewrite bool_decide_eq_false_2; [done|].
           intros [?|?]%elem_of_cons; done.
    + rewrite He. simpl. rewrite <- app_assoc. simpl. do 2 f_equal.
      apply List.map_ext_in. intros m Hm. f_equal. unfold set_visible.
      destruct (Pos.eqb_spec (ref_of m) (ref_of n)) as [E|]; [|done].
      exfalso. apply Hn. rewrite <- E. by apply in_map.
    + rewrite Hc. simpl. by rewrite <- app_assoc.
Qed.

Lemma restoreAll_spec (w : ref -> bool) H :
  forall st,
  let st' := fold_left (fun st e => restore e st)
                       (List.map (fun n => (ref_of n, w (ref_of n))) H) st in
  (forall r, vis st' r = if bool_decide (r ∈ List.map ref_of H) then w r else vis st r)
  /\ elementsToHide st' = elementsToHide st
  /\ calls st' = calls st ++ List.map (fun n => CallVisible (ref_of n) (w (ref_of n))) H.
Proof.
  induction H as [|n H IH]; intros st; simpl.
  - by rewrite app_nil_r.
  - destruct (IH (restore (ref_of n, w (ref_of n)) st)) as (Hv & He & Hc).
    split; [|split].
    + intros r. rewrite Hv. simpl. unfold set_visible.
      destruct (bool_decide (r ∈ List.map ref_of H)) eqn:E.
      * apply bool_decide_eq_true_1 in E.
        by rewrite (bool_decide_eq_true_2 _ (list_elem_of_further _ _ _ E)).
      * apply bool_decide_eq_false_1 in E.
        destruct (Pos.eqb_spec r (ref_of n)) as [->|Hne].
        -- by rewrite (bool_decide_eq_true_2 (ref_of n ∈ ref_of n :: _))
             by apply list_elem_of_here.
        -- rewrite bool_decide_eq_false_2; [done|].
           intros [?|?]%elem_of_cons; done.
    + by rewrite He.
    + rewrite Hc. simpl. by rewrite <- app_assoc.
Qed.


End ExportTheorems.

Section ExportExamples.
Import Exporter.


End ExportExamples.
(* ===================================================================== *)
(** * The order of JavaScript numbers *)
(* ===================================================================== *)

Section NumOrder.
Import SpecFloat NumberLine.

Lemma SFcompare_rank x y :
  x <> S754_nan -> y <> S754_nan ->
  SFcompare x y = Some (lex (rank x) (rank y)).
Proof.
  intros Hx Hy.
  destruct x as [sx|sx| |sx mx ex], y as [sy|sy| |sy my ey]; try done;
    try destruct sx; try destruct sy; try reflexivity.
  unfold lex; cbn [SFcompare rank fst snd].
  change (-1 ?= -1)%Z with Eq. cbv iota.
  rewrite Z.compare_opp, (Z.compare_antisym ex ey).
  destruct (ex ?= ey)%Z; reflexivity.
Qed.

Lemma lex_le a b :
  lex a b <> Gt <->
  (a.1 < b.1 \/ (a.1 = b.1 /\ (a.2.1 < b.2.1 \/ (a.2.1 = b.2.1 /\ a.2.2 <= b.2.2))))%Z.
Proof.
  unfold lex.
  destruct (Z.compare_spec a.1 b.1); [|split; [lia|done]|split; [done|lia]].
  destruct (Z.compare_spec a.2.1 b.2.1); [|split; [lia|done]|split; [done|lia]].
  destruct (Z.compare_spec a.2.2 b.2.2); split; try done; lia.
Qed.

Lemma lex_lt a b :
  lex a b = Lt <->
  (a.1 < b.1 \/ (a.1 = b.1 /\ (a.2.1 < b.2.1 \/ (a.2.1 = b.2.1 /\ a.2.2 < b.2.2))))%Z.
Proof.
  unfold lex.
  destruct (Z.compare_spec a.1 b.1); [|split; [lia|done]|split; [done|lia]].
  destruct (Z.compare_spec a.2.1 b.2.1); [|split; [lia|done]|split; [done|lia]].
  destruct (Z.compare_spec a.2.2 b.2.2); split; try done; lia.
Qed.

Lemma is_nan_Prim2SF a : PrimFloat.is_nan a = false <-> Prim2SF a <> S754_nan.
Proof.
  unfold PrimFloat.is_nan. rewrite FloatAxioms.eqb_spec, negb_false_iff.
  unfold SFeqb. destruct (Prim2SF a) as [s|s| |s m e] eqn:E.
  - by destruct s.
  - by destruct s.
  - done.
  - rewrite SFcompare_rank by done.
    assert (lex (rank (S754_finite s m e)) (rank (S754_finite s m e)) = Eq) as ->; [|done].
    unfold lex. by rewrite !Z.compare_refl.
Qed.

Lemma is_nan_true_Prim2SF a : PrimFloat.is_nan a = true <-> Prim2SF a = S754_nan.
Proof.
  pose proof (is_nan_Prim2SF a) as H.
  destruct (PrimFloat.is_nan a); split; intros E; try done.
  - destruct (Prim2SF a); try done; by destruct H as [_ H]; exfalso; discriminate H.
  - exfalso. by apply H.
Qed.

(** [a <= b] in terms of the ranks. *)
Lemma le_rank a b :
  JsMath.le a b = true <->
  PrimFloat.is_nan a = false /\ PrimFloat.is_nan b = false
  /\ lex (rank_of a) (rank_of b) <> Gt.
Proof.
  unfold JsMath.le. rewrite FloatAxioms.leb_spec. unfold SFleb, rank_of.
  rewrite !is_nan_Prim2SF.
  destruct (Prim2SF a) as [sa|sa| |sa ma ea] eqn:Ea;
    try (split; [done|by intros (? & ? & ?)]);
    (destruct (Prim2SF b) as [sb|sb| |sb mb eb] eqn:Eb;
     [| |by (split; [try destruct sa; done|by intros (? & ? & ?)])|]);
    rewrite SFcompare_rank by done;
    (destruct (lex _ _); split; [by repeat split|done|by repeat split|done
                                |done|by intros (_ & _ & ?)]).
Qed.

Lemma lt_rank a b :
  JsMath.lt a b = true <->
  PrimFloat.is_nan a = false /\ PrimFloat.is_nan b = false
  /\ lex (rank_of a) (rank_of b) = Lt.
Proof.
  unfold JsMath.lt. rewrite FloatAxioms.ltb_spec. unfold SFltb, rank_of.
  rewrite !is_nan_Prim2SF.
  destruct (Prim2SF a) as [sa|sa| |sa ma ea] eqn:Ea;
    try (split; [done|by intros (? & ? & ?)]);
    (destruct (Prim2SF b) as [sb|sb| |sb mb eb] eqn:Eb;
     [| |by (split; [try destruct sa; done|by intros (? & ? & ?)])|]);
    rewrite SFcompare_rank by done;
    (destruct (lex _ _); split; [done|by intros (_ & _ & ?)|by repeat split|done
                                |done|by intros (_ & _ & ?)]).
Qed.

Lemma le_not_nan a b :
  JsMath.le a b = true -> PrimFloat.is_nan a = false /\ PrimFloat.is_nan b = false.
Proof. rewrite le_rank. tauto. Qed.

Lemma le_refl a : PrimFloat.is_nan a = false -> JsMath.le a a = true.
Proof.
  intros H. apply le_rank. repeat split; try done. apply lex_le. lia.
Qed.

Lemma le_trans a b c :
  JsMath.le a b = true -> JsMath.le b c = true -> JsMath.le a c = true.
Proof.
  rewrite !le_rank, !lex_le. intros (Ha & Hb & H1) (_ & Hc & H2).
  repeat split; try done. lia.
Qed.

(** Two numbers are comparable: when [a < b] fails, [b <= a] holds. *)
Lemma not_lt_le a b :
  PrimFloat.is_nan a = false -> PrimFloat.is_nan b = false ->
  JsMath.lt a b = false -> JsMath.le b a = true.
Proof.
  intros Ha Hb Hlt. apply le_rank. repeat split; try done.
  apply lex_le.
  assert (~ lex (rank_of a) (rank_of b) = Lt) as Hn.
  { intros E. assert (JsMath.lt a b = true) by (by apply lt_rank). congruence. }
  rewrite lex_lt in Hn. lia.
Qed.

Lemma lt_le a b : JsMath.lt a b = true -> JsMath.le a b = true.
Proof.
  rewrite lt_rank, le_rank, lex_lt, lex_le. intros (? & ? & ?). repeat split; try done. lia.
Qed.

Lemma lt_le_trans a b c :
  JsMath.lt a b = true -> JsMath.le b c = true -> JsMath.lt a c = true.
Proof.
  rewrite !lt_rank, le_rank, !lex_lt, lex_le. intros (Ha & Hb & H1) (_ & Hc & H2).
  repeat split; try done. lia.
Qed.

Lemma le_lt_false a b : JsMath.le a b = true -> JsMath.lt b a = false.
Proof.
  rewrite le_rank, lex_le. intros (Ha & Hb & H).
  destruct (JsMath.lt b a) eqn:E; [|done].
  apply lt_rank in E as (_ & _ & E). apply lex_lt in E. lia.
Qed.

(** [Math.max] of two numbers is one of them and bounds both. *)
Lemma max_spec a b :
  PrimFloat.is_nan a = false -> PrimFloat.is_nan b = false ->
  (JsMath.max a b = a \/ JsMath.max a b = b)
  /\ JsMath.le a (JsMath.max a b) = true
  /\ JsMath.le b (JsMath.max a b) = true.
Proof.
  intros Ha Hb. unfold JsMath.max. rewrite Ha, Hb. cbn [orb].
  destruct (JsMath.lt a b) eqn:E1.
  { split; [by right|]. split; [by apply lt_le|by apply le_refl]. }
  destruct (JsMath.lt b a) eqn:E2.
  { split; [by left|]. split; [by apply le_refl|by apply lt_le]. }
  pose proof (not_lt_le a b Ha Hb E1). pose proof (not_lt_le b a Hb Ha E2).
  destruct (PrimFloat.get_sign a).
  - split; [by right|]. split; [done|by apply le_refl].
  - split; [by left|]. split; [by apply le_refl|done].
Qed.

(** [Math.min] of two numbers is one of them and is bounded by both. *)
Lemma min_spec a b :
  PrimFloat.is_nan a = false -> PrimFloat.is_nan b = false ->
  (JsMath.min a b = a \/ JsMath.min a b = b)
  /\ JsMath.le (JsMath.min a b) a = true
  /\ JsMath.le (JsMath.min a b) b = true.
Proof.
  intros Ha Hb. unfold JsMath.min. rewrite Ha, Hb. cbn [orb].
  destruct (JsMath.lt a b) eqn:E1.
  { split; [by left|]. split; [by apply le_refl|by apply lt_le]. }
  destruct (JsMath.lt b a) eqn:E2.
  { split; [by right|]. split; [by apply lt_le|by apply le_refl]. }
  pose proof (not_lt_le a b Ha Hb E1). pose proof (not_lt_le b a Hb Ha E2).
  destruct (PrimFloat.get_sign a).
  - split; [by left|]. split; [by apply le_refl|done].
  - split; [by right|]. split; [done|by apply le_refl].
Qed.

Lemma max_nan a b :
  PrimFloat.is_nan (JsMath.max a b) = PrimFloat.is_nan a || PrimFloat.is_nan b.
Proof.
  destruct (PrimFloat.is_nan a) eqn:Ha, (PrimFloat.is_nan b) eqn:Hb;
    try (unfold JsMath.max; rewrite Ha, Hb; reflexivity).
  destruct (max_spec a b Ha Hb) as ([-> | ->] & _); done.
Qed.

Lemma min_nan a b :
  PrimFloat.is_nan (JsMath.min a b) = PrimFloat.is_nan a || PrimFloat.is_nan b.
Proof.
  destruct (PrimFloat.is_nan a) eqn:Ha, (PrimFloat.is_nan b) eqn:Hb;
    try (unfold JsMath.min; rewrite Ha, Hb; reflexivity).
  destruct (min_spec a b Ha Hb) as ([-> | ->] & _); done.
Qed.

End NumOrder.

(* ===================================================================== *)
(** * Division never invents a NaN *)
(* ===================================================================== *)

Section DivisionFacts.
Import SpecFloat.

Variables prec emax : Z.

Lemma shr_1_nonneg mrs : (0 <= shr_m mrs -> 0 <= shr_m (shr_1 mrs))%Z.
Proof. destruct mrs as [[|[p|p|]|p] r s]; cbn; lia. Qed.

Lemma iter_pos_shr_1_nonneg p :
  forall mrs, (0 <= shr_m mrs -> 0 <= shr_m (iter_pos shr_1 p mrs))%Z.
Proof.
  induction p as [p IH|p IH|]; intros mrs H; cbn.
  - apply IH, IH. by apply shr_1_nonneg.
  - by apply IH, IH.
  - by apply shr_1_nonneg.
Qed.

Lemma shr_fexp_nonneg m e l :
  (0 <= m -> 0 <= shr_m (shr_fexp prec emax m e l).1)%Z.
Proof.
  intros H. unfold shr_fexp, shr.
  assert (0 <= shr_m (shr_record_of_loc m l))%Z.
  { by destruct l as [|[]]. }
  destruct (_ - e)%Z; cbn [fst]; try done.
  by apply iter_pos_shr_1_nonneg.
Qed.

Lemma round_nearest_even_nonneg m l :
  (0 <= m -> 0 <= round_nearest_even m l)%Z.
Proof.
  intros H. destruct l as [|[]]; cbn; try lia. destruct (Z.even m); lia.
Qed.

Lemma binary_round_aux_not_nan s m e l :
  (0 <= m)%Z -> binary_round_aux prec emax s m e l <> S754_nan.
Proof.
  intros H. unfold binary_round_aux.
  pose proof (shr_fexp_nonneg m e l H) as H1.
  destruct (shr_fexp prec emax m e l) as [mrs' e'].
  pose proof (shr_fexp_nonneg
                (round_nearest_even (shr_m mrs') (loc_of_shr_record mrs')) e' loc_Exact
                (round_nearest_even_nonneg _ _ H1)) as H2.
  destruct (shr_fexp prec emax _ e' loc_Exact) as [mrs'' e''].
  cbn [fst] in H2. destruct (shr_m mrs''); try done; try lia.
  by destruct (_ <=? _)%Z.
Qed.

(** Dividing a number by a finite non-zero number gives a number. *)
Lemma SFdiv_finite_not_nan x sy my ey :
  x <> S754_nan -> SFdiv prec emax x (S754_finite sy my ey) <> S754_nan.
Proof.
  intros Hx. destruct x as [sx|sx| |sx mx ex]; try done.
  cbn [SFdiv]. unfold SFdiv_core_binary.
  set (m' := match (_ - _ - _)%Z with Z.pos _ => _ | Z0 => _ | Z.neg _ => _ end).
  assert (0 <= m')%Z as Hm.
  { subst m'. destruct (_ - _ - _)%Z; try lia.
    rewrite Z.shiftl_mul_pow2 by lia. apply Z.mul_nonneg_nonneg; lia. }
  pose proof (Z_div_mod m' (Z.pos my) ltac:(lia)) as Hd.
  destruct (Z.div_eucl m' (Z.pos my)) as [q r].
  apply binary_round_aux_not_nan. nia.
Qed.

End DivisionFacts.

Section ZoomFacts.
Import Zoom.

Lemma div_by_finite_not_nan a d sy my ey :
  Prim2SF d = SpecFloat.S754_finite sy my ey ->
  PrimFloat.is_nan a = false -> PrimFloat.is_nan (a / d)%js = false.
Proof.
  intros Hd Ha. apply is_nan_Prim2SF. unfold JsNum.div.
  rewrite FloatAxioms.div_spec, Hd. apply SFdiv_finite_not_nan.
  by apply is_nan_Prim2SF.
Qed.

(** The clamp of the slider and of the wheel: NaN for NaN, otherwise a
    value between the zoom limits. *)
Lemma clamp_within v :
  PrimFloat.is_nan v = false ->
  JsMath.within minZoom maxZoom (JsMath.max minZoom (JsMath.min maxZoom v)).
Proof.
  intros Hv.
  assert (Hlo : PrimFloat.is_nan minZoom = false) by reflexivity.
  assert (Hhi : PrimFloat.is_nan maxZoom = false) by reflexivity.
  destruct (min_spec maxZoom v Hhi Hv) as (Hm & Hm1 & Hm2).
  assert (Hmn : PrimFloat.is_nan (JsMath.min maxZoom v) = false).
  { by rewrite min_nan, Hhi, Hv. }
  destruct (max_spec minZoom (JsMath.min maxZoom v) Hlo Hmn) as (Hx & Hx1 & Hx2).
  split; [done|]. destruct Hx as [-> | ->]; [reflexivity|done].
Qed.

(** The clamp of the fit computations. *)
Lemma fit_clamp_within v :
  PrimFloat.is_nan v = false ->
  JsMath.within minZoom maxZoom (JsMath.max minZoom (JsMath.min v maxZoom)).
Proof.
  intros Hv.
  assert (Hlo : PrimFloat.is_nan minZoom = false) by reflexivity.
  assert (Hhi : PrimFloat.is_nan maxZoom = false) by reflexivity.
  destruct (min_spec v maxZoom Hv Hhi) as (Hm & Hm1 & Hm2).
  assert (Hmn : PrimFloat.is_nan (JsMath.min v maxZoom) = false).
  { by rewrite min_nan, Hhi, Hv. }
  destruct (max_spec minZoom (JsMath.min v maxZoom) Hlo Hmn) as (Hx & Hx1 & Hx2).
  split; [done|]. destruct Hx as [-> | ->]; [reflexivity|done].
Qed.

Lemma requested_app a b : requested (a ++ b) = requested a ++ requested b.
Proof. unfold requested. by rewrite omap_app. Qed.

Lemma requested_disableAutoFit p : requested (disableAutoFit p) = [].
Proof. unfold disableAutoFit. by destruct (onAutoFitChange p). Qed.

Lemma lt_not_nan a b :
  JsMath.lt a b = true -> PrimFloat.is_nan a = false /\ PrimFloat.is_nan b = false.
Proof. intros H. by apply le_not_nan, lt_le. Qed.

End ZoomFacts.

Section ZoomTheorems.
Import Zoom.

Lemma fit_requested (area : Rect) :
  let sx := fitScale (rect_width area) in
  let sy := fitScale (rect_height area) in
  forall z,
  In z (requested (calculateAutoFitZoom (Some area))) ->
  JsMath.lt num_0 (JsMath.min sx sy) = true
  /\ z = JsMath.max minZoom (JsMath.min (JsMath.min sx sy) maxZoom).
Proof.
  intros sx sy z. unfold calculateAutoFitZoom. fold (fitScale (rect_width area)).
  fold (fitScale (rect_height area)). fold sx sy.
  destruct (_ || _); [done|].
  destruct (JsMath.lt num_0 (JsMath.min sx sy)); [|done].
  cbn. by intros [<-|[]].
Qed.

Lemma calculateMaxFitZoom_requested area p :
  requested (calculateMaxFitZoom area p)
  = if onZoomChange p then requested (calculateAutoFitZoom area) else [].
Proof.
  unfold calculateMaxFitZoom, calculateAutoFitZoom.
  destruct area as [r|]; [|by destruct (onZoomChange p)].
  destruct (onZoomChange p); [|done]. cbn [negb].
  destruct (_ || _); [done|]. destruct (JsMath.lt _ _); [|done].
  by rewrite requested_app, requested_disableAutoFit.
Qed.

Lemma autoFit_within area :
  Forall (JsMath.within minZoom maxZoom) (requested (calculateAutoFitZoom area)).
Proof.
  apply List.Forall_forall. intros z Hz. destruct area as [r|]; [|done].
  apply fit_requested in Hz as (Hlt & ->).
  apply fit_clamp_within. by apply lt_not_nan in Hlt as [_ ?].
Qed.

(** X1. Every zoom the slider, the "Fit to Screen" button and the
    auto-fit effect pass to [onZoomChange] lies between the zoom limits
    (10% and 500%), whatever the slider value and the size of the canvas
    area; the slider passes exactly one zoom for every value that is a
    number, and none for NaN. *)
Theorem zoom_requests_within_limits
    (p : Props) (value : JsNum.num) (area area' : option Rect) :
  Forall (JsMath.within minZoom maxZoom) (requested (handleSliderChange value p))
  /\ Forall (JsMath.within minZoom maxZoom) (requested (calculateMaxFitZoom area p))
  /\ Forall (JsMath.within minZoom maxZoom) (requested (autoFitEffect p area area'))
  /\ length (requested (handleSliderChange value p))
     = (if negb (PrimFloat.is_nan value) && onZoomChange p then 1 else 0)%nat.
Proof.
  split; [|split; [|split]].
  - unfold handleSliderChange.
    destruct (PrimFloat.is_nan value) eqn:Hv; [done|].
    destruct (onZoomChange p); [|done]. cbn [negb andb].
    rewrite requested_app, requested_disableAutoFit. cbn.
    constructor; [|done]. apply clamp_within.
    by apply (div_by_finite_not_nan value num_100 false 7036874417766400%positive (-46)%Z).
  - rewrite calculateMaxFitZoom_requested.
    destruct (onZoomChange p); [apply autoFit_within|done].
  - unfold autoFitEffect. destruct (_ || _); [done|apply autoFit_within].
  - unfold handleSliderChange.
    destruct (negb (PrimFloat.is_nan value) && onZoomChange p); [|done].
    by rewrite requested_app, requested_disableAutoFit.
Qed.


(** X3. The zoom requested by "Fit to Screen" and by auto-fit makes the
    1024-pixel canvas fit the available space (the canvas area less 20
    pixels of padding on each side) in both directions, unless it had to
    be raised to the minimum zoom. *)
Theorem fit_zoom_fits_canvas (p : Props) (area : Rect) (z : JsNum.num) :
  In z (requested (calculateMaxFitZoom (Some area) p)
        ++ requested (autoFitEffect p (Some area) (Some area))) ->
  z = minZoom
  \/ (JsMath.le z (fitScale (rect_width area)) = true
      /\ JsMath.le z (fitScale (rect_height area)) = true).
Proof.
  intros Hz.
  assert (In z (requested (calculateAutoFitZoom (Some area)))) as H.
  { apply in_app_or in Hz as [Hz|Hz].
    - rewrite calculateMaxFitZoom_requested in Hz. by destruct (onZoomChange p).
    - unfold autoFitEffect in Hz. by destruct (_ || _). }
  clear Hz. apply fit_requested in H as (Hlt & ->).
  set (sx := fitScale (rect_width area)) in *.
  set (sy := fitScale (rect_height area)) in *.
  apply lt_not_nan in Hlt as [_ Hm].
  assert (PrimFloat.is_nan sx = false /\ PrimFloat.is_nan sy = false) as [Hsx Hsy].
  { rewrite min_nan in Hm. by apply orb_false_elim in Hm. }
  destruct (min_spec sx sy Hsx Hsy) as (_ & H1 & H2).
  destruct (min_spec (JsMath.min sx sy) maxZoom Hm ltac:(reflexivity)) as (_ & H3 & _).
  assert (Hmn : PrimFloat.is_nan (JsMath.min (JsMath.min sx sy) maxZoom) = false).
  { by rewrite min_nan, Hm. }
  destruct (max_spec minZoom _ ltac:(reflexivity) Hmn) as ([-> | ->] & _); [by left|].
  right. split; eapply le_trans; done.
Qed.

(** X3 at a canvas area of 1064 x 840 pixels: the height leaves 800
    pixels, and the requested zoom is 800 / 1024 = 0.78125. *)
Lemma fit_zoom_fits_canvas_witness :
  let area := mkRect 1064%float 840%float in
  let p := mkProps 1%float true true true in
  In 0.78125%float (requested (calculateMaxFitZoom (Some area) p)
                    ++ requested (autoFitEffect p (Some area) (Some area)))
  /\ (0.78125%float = minZoom
      \/ (JsMath.le 0.78125%float (fitScale (rect_width area)) = true
          /\ JsMath.le 0.78125%float (fitScale (rect_height area)) = true)).
Proof.
  intros area p.
  assert (In 0.78125%float (requested (calculateMaxFitZoom (Some area) p)
                            ++ requested (autoFitEffect p (Some area) (Some area)))) as H.
  { vm_compute. by left. }
  split; [exact H|]. exact (fit_zoom_fits_canvas p area _ H).
Defined.

End ZoomTheorems.

(* ===================================================================== *)
(** * LineLayer: the hit area *)
(* ===================================================================== *)

Section LineLayerTheorems.
Import Model LineLayerComponent.

Lemma or_opt_not_nan v d :
  PrimFloat.is_nan d = false -> PrimFloat.is_nan (JsNum.or_opt v d) = false.
Proof.
  intros Hd. destruct v as [n|]; [|done]. cbn. unfold JsNum.or_num, JsNum.truthy.
  destruct (PrimFloat.is_nan n) eqn:Hn; [by rewrite orb_true_r|].
  by destruct (_ || _).
Qed.

(** X4. The hit area of a line is never thinner than 20 pixels, whatever
    the layer holds as stroke width (a missing, zero or NaN width counts
    as 4), it is never thinner than the stroke itself, and a stroke wider
    than 20 pixels is its own hit width. *)
Theorem line_hit_width_at_least_20 {Handlers} (layer : Layer) (i : option string)
                                   (h : Handlers) :
  let hit := sp_hitStrokeWidth (props_of (LineLayer layer i h)) in
  JsMath.le num_20 hit = true
  /\ (forall w, sp_strokeWidth (props_of (LineLayer layer i h)) = Some w ->
        PrimFloat.is_nan w = false -> JsMath.le w hit = true)
  /\ (forall w, sp_strokeWidth (props_of (LineLayer layer i h)) = Some w ->
        JsMath.lt num_20 w = true -> hit = w).
Proof.
  intros hit.
  assert (Hhit : hit = hitStrokeWidth layer).
  { subst hit. unfold LineLayer. by destruct (_ || _). }
  assert (Hsw : sp_strokeWidth (props_of (LineLayer layer i h))
                = num_prop "strokeWidth" layer).
  { unfold LineLayer. by destruct (_ || _). }
  rewrite Hsw, Hhit. clear Hhit Hsw hit. unfold hitStrokeWidth.
  set (sw := JsNum.or_opt (num_prop "strokeWidth" layer) num_4).
  assert (Hsw : PrimFloat.is_nan sw = false) by (by apply or_opt_not_nan).
  destruct (max_spec sw num_20 Hsw ltac:(reflexivity)) as (Hc & H1 & H2).
  split; [done|]. split.
  - intros w Hw Hn. subst sw. rewrite Hw in *. cbn [JsNum.or_opt] in *.
    unfold JsNum.or_num in *. destruct (JsNum.truthy w) eqn:Ht; [done|].
    eapply le_trans; [|exact H2].
    by destruct (falsy_number_is_zero w Ht Hn) as [-> | ->].
  - intros w Hw Hlt. subst sw. rewrite Hw in *. cbn [JsNum.or_opt] in *.
    assert (JsNum.or_num w num_4 = w) as Ho.
    { apply or_num_truthy. unfold JsNum.truthy.
      destruct (lt_not_nan _ _ Hlt) as [_ Hn]. rewrite Hn, orb_false_r.
      destruct (PrimFloat.is_zero w) eqn:Hz; [|done].
      assert (JsNum.truthy w = false) as Ht by (unfold JsNum.truthy; by rewrite Hz).
      by destruct (falsy_number_is_zero w Ht Hn) as [-> | ->]. }
    rewrite Ho in *. unfold JsMath.max.
    destruct (lt_not_nan _ _ Hlt) as [_ ->]. cbn [orb PrimFloat.is_nan].
    change (PrimFloat.is_nan num_20) with false. cbn [orb].
    rewrite (le_lt_false _ _ (lt_le _ _ Hlt)). by rewrite Hlt.
Qed.

(** X4 at a line of stroke width 30, and at a line without one. *)
Lemma line_hit_width_at_least_20_witness :
  let wide := mkLayer "l" line "Line" true false 1%float 0%float 0%float 0%float
                      1%float 1%float None None None None None None None None None
                      {["strokeWidth" := VNum 30%float]} in
  sp_strokeWidth (props_of (LineLayer wide None tt)) = Some 30%float
  /\ sp_hitStrokeWidth (props_of (LineLayer wide None tt)) = 30%float
  /\ sp_hitStrokeWidth (props_of (LineLayer Samples.sampleLine None tt)) = 20%float.
Proof.
  intros wide.
  destruct (line_hit_width_at_least_20 wide None tt) as (_ & _ & H).
  assert (Hw : sp_strokeWidth (props_of (LineLayer wide None tt)) = Some 30%float).
  { reflexivity. }
  split; [exact Hw|]. split; [|reflexivity].
  apply (H _ Hw). reflexivity.
Defined.

End LineLayerTheorems.

(* ===================================================================== *)
(** * Gesture handlers: what they keep *)
(* ===================================================================== *)

Section GestureSequences.
Import Model Canvas Gestures.

Lemma identity_spread_dragPatch n l : identity (spread l (dragPatch n)) = identity l.
Proof. unfold identity, spread; cbn. by rewrite (left_id_L ∅ (∪)). Qed.

Lemma identity_spread_scalePatch n l : identity (spread l (scalePatch n)) = identity l.
Proof. unfold identity, spread; cbn. by rewrite (left_id_L ∅ (∪)). Qed.

Lemma identity_spread_rectPatch n sd l : identity (spread l (rectPatch n sd)) = identity l.
Proof. unfold identity, spread; cbn. by rewrite (left_id_L ∅ (∪)). Qed.

Lemma identity_updateLayer i u ls :
  (forall l, identity (spread l u) = identity l) ->
  List.map identity (updateLayer i u ls) = List.map identity ls.
Proof.
  intros Hu. unfold updateLayer. rewrite List.map_map. apply List.map_ext.
  intros l. by destruct (String.eqb _ _).
Qed.

Lemma identity_handle e st :
  List.map identity (layers (handle e st).2) = List.map identity (layers st).
Proof.
  destruct e as [n|n i|n i|n i]; cbn [handle].
  - unfold handleDragStart. cbn. by rewrite layers_set_cursor.
  - unfold handleDragEnd. cbn. rewrite layers_set_cursor.
    apply identity_updateLayer, identity_spread_dragPatch.
  - unfold handleTransformStart. rewrite layers_set_cursor.
    destruct (findLayer i (layers st)); cbn; by rewrite layers_set_cursor.
  - unfold handleTransformEnd. rewrite layers_set_cursor.
    destruct (findLayer i (layers st)) as [l|]; cbn; rewrite ?layers_set_cursor; [|done].
    apply identity_updateLayer. intros l'.
    destruct (type l), (transformStartDataRef (set_cursor n "default" st));
      auto using identity_spread_scalePatch, identity_spread_rectPatch.
Qed.

(** X5. No sequence of drag and transform handler calls, on whatever
    nodes and layer identifiers, adds, removes or reorders layers, and
    none changes a layer's identifier, kind, name, visibility, lock,
    opacity, radius, point count, inner or outer radius, points, image
    source, fill image or any remaining property: the handlers only ever
    write position, rotation, scale, width and height. *)
Theorem gestures_keep_layer_identity (es : list Event) (st : State) :
  List.map identity (layers (run es st)) = List.map identity (layers st).
Proof.
  revert st. induction es as [|e es IH]; intros st; [done|].
  cbn [run fold_left]. fold (run es (handle e st).2).
  by rewrite IH, identity_handle.
Qed.

Lemma updateLayer_missing i u ls :
  findLayer i ls = None -> updateLayer i u ls = ls.
Proof.
  unfold findLayer, updateLayer. induction ls as [|l ls IH]; [done|].
  cbn. destruct (String.eqb (id l) i); [done|]. intros H. by rewrite IH.
Qed.

(** X6. A handler bound to a layer identifier that is no longer in the
    store changes no layer: the drag end only resets the node's opacity
    to 1, the transform start leaves the pending snapshot as it is, and
    the transform end discards it. *)
Theorem stale_gesture_changes_no_layer (n : Node) (i : string) (st : State) :
  findLayer i (layers st) = None ->
  layers (handleDragEnd n i st).2 = layers st
  /\ node_opacity (handleDragEnd n i st).1 = num_1
  /\ layers (handleTransformStart n i st).2 = layers st
  /\ transformStartDataRef (handleTransformStart n i st).2 = transformStartDataRef st
  /\ layers (handleTransformEnd n i st).2 = layers st
  /\ transformStartDataRef (handleTransformEnd n i st).2 = None.
Proof.
  intros H. unfold handleDragEnd, handleTransformStart, handleTransformEnd.
  rewrite !layers_set_cursor, H. cbn.
  rewrite !layers_set_cursor, ref_set_cursor. by rewrite updateLayer_missing.
Qed.

(** X6 at the sample rectangle, for a handler bound to a deleted layer. *)
Lemma stale_gesture_changes_no_layer_witness :
  let st := mkState [Samples.sampleRect] "select"
                    (Some (mkStartData "gone" None None 1%float 1%float)) "move" in
  findLayer "gone" (layers st) = None
  /\ layers (handleTransformEnd Samples.sampleNode "gone" st).2 = [Samples.sampleRect]
  /\ transformStartDataRef (handleTransformEnd Samples.sampleNode "gone" st).2 = None.
Proof.
  intros st.
  assert (H : findLayer "gone" (layers st) = None) by reflexivity.
  destruct (stale_gesture_changes_no_layer Samples.sampleNode "gone" st H)
    as (_ & _ & _ & _ & H5 & H6).
  split; [exact H|]. split; [exact H5|exact H6].
Defined.

(** X7. A whole resize gesture on a rectangle whose stored width W and
    height H are numbers: with the node reporting scale (sx', sy') at the
    end, the stored width becomes |W * (sx' / (scaleX || 1))| and the
    height |H * (sy' / (scaleY || 1))|, the stored scale becomes (1, 1),
    position and rotation are the node's, and no snapshot is left
    pending. *)
Theorem rect_gesture_scales_stored_size
    (st : State) (layer : Layer) (atStart atEnd : Node) (W H : JsNum.num) :
  findLayer (id layer) (layers st) = Some layer ->
  type layer = rect ->
  width layer = Some W -> height layer = Some H ->
  PrimFloat.is_nan W = false -> PrimFloat.is_nan H = false ->
  let st' := resizeGesture layer atStart atEnd st in
  let w' := JsNum.abs (W * (node_scaleX atEnd / JsNum.or_num (scaleX layer) num_1))%js in
  let h' := JsNum.abs (H * (node_scaleY atEnd / JsNum.or_num (scaleY layer) num_1))%js in
  findLayer (id layer) (layers st')
  = Some (resized (node_x atEnd) (node_y atEnd) (node_rotation atEnd) w' h' layer)
  /\ transformStartDataRef st' = None.
Proof.
  intros Hfind Hrect Hw Hh HW HH st' w' h'.
  assert (Hnb : type layer <> brush) by (rewrite Hrect; discriminate).
  destruct (transform_start_snapshots st layer atStart Hfind Hnb) as [Hsnap Hls].
  cbv zeta in Hsnap, Hls. subst st'. unfold resizeGesture.
  set (st1 := (fire (onTransformStart (commonProps st layer)) atStart st).2) in *.
  assert (Hfind1 : findLayer (id layer) (layers st1) = Some layer) by (by rewrite Hls).
  assert (Hend : (fire (onTransformEnd (commonProps st1 layer)) atEnd st1).2
                 = (handleTransformEnd atEnd (id layer) st1).2).
  { unfold commonProps; cbn. by rewrite (bool_decide_eq_false_2 _ Hnb). }
  rewrite Hend.
  destruct (handleTransformEnd_layers atEnd (id layer) st1 layer Hfind1) as [Hl Hr].
  rewrite Hrect, Hsnap, Hw, Hh in Hl. split; [|done].
  rewrite Hl, updateLayer_at_id, findLayer_at_id, Hfind1 by done. cbn. f_equal.
  unfold spread, resized, rectPatch; cbn. subst w' h'.
  rewrite !abs_mul_or_zero by done. f_equal. apply (left_id_L ∅ (∪)).
Qed.

(** X7 at the sample rectangle (200 x 100, scale 1) stretched to twice
    its width: the stored size becomes 400 x 100. *)
Lemma rect_gesture_scales_stored_size_witness :
  let st := Samples.sampleState [Samples.sampleRect] in
  let st' := resizeGesture Samples.sampleRect Samples.sampleNode Samples.sampleNode st in
  (width <$> findLayer "r1" (layers st'), height <$> findLayer "r1" (layers st'))
  = (Some (Some 400%float), Some (Some 100%float)).
Proof.
  intros st st'.
  destruct (rect_gesture_scales_stored_size st Samples.sampleRect
              Samples.sampleNode Samples.sampleNode 200%float 100%float
              ltac:(reflexivity) ltac:(reflexivity) ltac:(reflexivity)
              ltac:(reflexivity) ltac:(reflexivity) ltac:(reflexivity)) as [H _].
  cbv zeta in H. subst st'. change (id Samples.sampleRect) with "r1" in H.
  rewrite H. reflexivity.
Defined.

(** X8. A rectangle whose transform ends while no snapshot is pending is
    treated like every other kind: position, rotation and scale are
    persisted verbatim and width and height stay as they are. *)
Theorem rect_without_snapshot_keeps_size (st : State) (layer : Layer) (n : Node) :
  findLayer (id layer) (layers st) = Some layer ->
  type layer = rect ->
  transformStartDataRef st = None ->
  GestureSpec.persists_transform_verbatim st layer n.
Proof.
  intros Hfind Hrect Href. unfold GestureSpec.persists_transform_verbatim.
  assert (Hnb : type layer <> brush) by (rewrite Hrect; discriminate).
  unfold commonProps; cbn. rewrite (bool_decide_eq_false_2 _ Hnb). cbn.
  destruct (handleTransformEnd_layers n (id layer) st layer Hfind) as [Hl _].
  rewrite Hrect, Href in Hl.
  exists (transformed (node_x n) (node_y n) (node_rotation n)
                      (node_scaleX n) (node_scaleY n) layer).
  rewrite Hl, updateLayer_at_id, findLayer_at_id by done.
  rewrite Hfind. cbn. by rewrite spread_scalePatch.
Qed.

(** X8 at the sample rectangle: the scale (2, 1) is stored and the size
    stays 200 x 100. *)
Lemma rect_without_snapshot_keeps_size_witness :
  let st := Samples.sampleState [Samples.sampleRect] in
  transformStartDataRef st = None
  /\ GestureSpec.persists_transform_verbatim st Samples.sampleRect Samples.sampleNode.
Proof.
  intros st. split; [reflexivity|].
  apply rect_without_snapshot_keeps_size; reflexivity.
Defined.

(** X9. A whole drag of a draggable layer: the node is dimmed to 0.8
    while it is dragged, and the drop sets its opacity to the layer's
    stored opacity, or to 1 when the stored opacity is 0 or NaN; the
    node is left where it was dropped, rotation and scale untouched, and
    the cursor of a node on the stage is back to "default". *)
Theorem drag_restores_node_opacity
    (st : State) (layer : Layer) (n : Node) (dropX dropY : JsNum.num) :
  findLayer (id layer) (layers st) = Some layer ->
  draggable (commonProps st layer) = true ->
  let out := dragGesture layer n dropX dropY st in
  node_opacity (fire (onDragStart (commonProps st layer)) n st).1 = num_0_8
  /\ node_opacity out.1
     = (if JsNum.truthy (opacity layer) then opacity layer else num_1)
  /\ (node_x out.1, node_y out.1) = (dropX, dropY)
  /\ (node_rotation out.1, node_scaleX out.1, node_scaleY out.1)
     = (node_rotation n, node_scaleX n, node_scaleY n)
  /\ (node_onStage n = true -> cursor out.2 = "default").
Proof.
  intros Hfind Hdrag out.
  pose proof (draggable_not_brush _ _ Hdrag) as Hnb.
  subst out. unfold dragGesture, commonProps; cbn.
  rewrite (bool_decide_eq_false_2 _ Hnb). cbn.
  rewrite layers_set_cursor, Hfind. cbn. repeat split.
  intros Hs. unfold set_cursor. cbn. by rewrite Hs.
Qed.

(** X9 at a fully transparent circle: after the drag its node is
    opaque. *)
Lemma drag_restores_node_opacity_witness :
  let ghost := mkLayer "c1" circle "Circle" true false 0%float 0%float 0%float 0%float
                       1%float 1%float None None (Some 10%float) None None None None
                       None None ∅ in
  let st := Samples.sampleState [ghost] in
  node_opacity (dragGesture ghost Samples.sampleNode 5%float 5%float st).1 = 1%float.
Proof.
  intros ghost st.
  destruct (drag_restores_node_opacity st ghost Samples.sampleNode 5%float 5%float
              ltac:(reflexivity) ltac:(reflexivity)) as (_ & H & _).
  exact H.
Defined.

End GestureSequences.

(* ===================================================================== *)
(** * LineEndpointHandles: the two endpoints *)
(* ===================================================================== *)

Section EndpointIndependence.
Import Model LineHandles.

(** The state after a drag of one handle. *)
Lemma dragHandle_spec w (st : State) (layer : Layer) (ps : list Handle) (h : Handle) :
  findLayer (id layer) (layers st) = Some layer ->
  type layer = line ->
  selectedLayerId st = Some (id layer) ->
  let cp := currentPoints layer in
  let px := (h_x h - layerX layer)%js in
  let py := (h_y h - layerY layer)%js in
  let st' := dragHandle w (ps ++ [h]) (id layer) st in
  findLayer (id layer) (layers st')
  = Some (with_points
            match w with
            | start => [Some px; Some py; at_index cp 2; at_index cp 3]
            | end_ => [at_index cp 0; at_index cp 1; Some px; Some py]
            end layer)
  /\ (forall j, j <> id layer -> findLayer j (layers st') = findLayer j (layers st))
  /\ selectedLayerId st' = selectedLayerId st.
Proof.
  intros Hf Hline Hsel cp px py st'.
  assert (Hst' : st' = handleDragEnd
                         (move_of w h (id layer)
                            (fold_left (fun s h => move_of w h (id layer) s) ps
                                       (handleDragStart w st)))).
  { subst st'. unfold dragHandle, LineEndpointHandles. rewrite Hf.
    rewrite (bool_decide_eq_true_2 _ Hline), (bool_decide_eq_true_2 _ Hsel).
    cbn. by rewrite fold_left_app. }
  assert (Hinv0 : dragging_inv w (id layer) layer st (handleDragStart w st)).
  { split; [done|]. split; [done|]. exists layer.
    split; [done|]. split; [by left|]. by destruct w. }
  destruct (dragging_inv_step w (id layer) layer st
              (fold_left (fun s h => move_of w h (id layer) s) ps (handleDragStart w st))
              h eq_refl Hline
              (dragging_inv_moves w (id layer) layer st ps eq_refl Hline _ Hinv0))
    as [(Hs & Hoth & _) Hres].
  rewrite Hst'. cbn. split; [exact Hres|]. split; [exact Hoth|exact Hs].
Qed.

(** X10. The two endpoints of a selected line are edited independently:
    after the start handle has been dragged to a and the end handle to b,
    in either order, the layer's points are
    [a.x - layerX, a.y - layerY, b.x - layerX, b.y - layerY], every other
    property of the layer is as before and every other layer is
    untouched. *)
Theorem endpoint_drags_are_independent
    (st : State) (layer : Layer) (pa pb : list Handle) (a b : Handle) :
  findLayer (id layer) (layers st) = Some layer ->
  type layer = line ->
  selectedLayerId st = Some (id layer) ->
  let i := id layer in
  let both := with_points [Some (h_x a - layerX layer)%js; Some (h_y a - layerY layer)%js;
                           Some (h_x b - layerX layer)%js; Some (h_y b - layerY layer)%js]
                          layer in
  let startFirst := dragHandle end_ (pb ++ [b]) i (dragHandle start (pa ++ [a]) i st) in
  let endFirst := dragHandle start (pa ++ [a]) i (dragHandle end_ (pb ++ [b]) i st) in
  findLayer i (layers startFirst) = Some both
  /\ findLayer i (layers endFirst) = Some both
  /\ (forall j, j <> i -> findLayer j (layers startFirst) = findLayer j (layers st)
                          /\ findLayer j (layers endFirst) = findLayer j (layers st)).
Proof.
  intros Hf Hline Hsel i both startFirst endFirst.
  destruct (dragHandle_spec start st layer pa a Hf Hline Hsel) as (Ha & Hao & Has).
  destruct (dragHandle_spec end_ st layer pb b Hf Hline Hsel) as (Hb & Hbo & Hbs).
  cbv zeta in Ha, Hao, Has, Hb, Hbo, Hbs.
  set (la := with_points _ layer) in Ha. set (lb := with_points _ layer) in Hb.
  destruct (dragHandle_spec end_ (dragHandle start (pa ++ [a]) (id layer) st) la pb b)
    as (Hab & Habo & _); [exact Ha|exact Hline|by rewrite Has|].
  destruct (dragHandle_spec start (dragHandle end_ (pb ++ [b]) (id layer) st) lb pa a)
    as (Hba & Hbao & _); [exact Hb|exact Hline|by rewrite Hbs|].
  cbv zeta in Hab, Habo, Hba, Hbao.
  split; [exact Hab|]. split; [exact Hba|].
  intros j Hj. split.
  - subst startFirst. etrans; [by apply Habo|]. by apply Hao.
  - subst endFirst. etrans; [by apply Hbao|]. by apply Hbo.
Qed.

(** X10 at the sample line (position (10, 10), points [0, 0, 100, 0]):
    start dragged to (1, 2) and end to (50, 60) gives points
    [-9, -8, 40, 50] in both orders. *)
Lemma endpoint_drags_are_independent_witness :
  let st := mkState [Samples.sampleLine; Samples.sampleRect] (Some "l1") None in
  let a := mkHandle 1%float 2%float in
  let b := mkHandle 50%float 60%float in
  let both := with_points [Some (-9)%float; Some (-8)%float; Some 40%float; Some 50%float]
                          Samples.sampleLine in
  findLayer "l1" (layers (dragHandle end_ [b] "l1" (dragHandle start [a] "l1" st)))
  = Some both
  /\ findLayer "l1" (layers (dragHandle start [a] "l1" (dragHandle end_ [b] "l1" st)))
     = Some both.
Proof.
  intros st a b both.
  pose proof (endpoint_drags_are_independent st Samples.sampleLine [] [] a b
                eq_refl eq_refl eq_refl) as (H1 & H2 & _).
  split; [exact H1 | exact H2].
Defined.

End EndpointIndependence.

(* ===================================================================== *)
(** * Export capture: what the image depends on *)
(* ===================================================================== *)

Section ExportRepeatable.
Import Exporter.

Variable toDataURL : Config -> KNode -> list ref -> string.

(** The image of an export and the visibility it leaves behind. *)
Lemma export_outcome (stage : KNode) (visible : Visibility) :
  List.NoDup (refs_of stage) ->
  let out := exportPngAsDataUrl toDataURL (Some stage) visible in
  out.1 = Some (toDataURL exportConfig stage
                          (drawn (captureVisibility stage visible) stage))
  /\ (forall r, vis out.2 r = visible r).
Proof.
  intros Hnd out. set (H := hiddenNodes stage).
  pose proof (hiddenNodes_distinct stage Hnd) as HndH. fold H in HndH.
  set (st0 := mkState visible [] []).
  assert (Hst2 : fold_left (fun st group =>
                              if isBrushCursorGroup group then hide group st else st)
                           (find "Group" stage)
                           match findOne "Transformer" stage with
                           | Some t => hide t st0
                           | None => st0
                           end
                 = hideAll H st0).
  { rewrite fold_hide_filter. unfold H, hiddenNodes. rewrite hideAll_app.
    by destruct (findOne "Transformer" stage). }
  destruct (hideAll_spec H st0 HndH) as (Hv & He & Hc). cbn in Hv, He, Hc.
  assert (Hdrawn : drawn (vis (hideAll H st0)) stage
                   = drawn (captureVisibility stage visible) stage).
  { by apply drawn_ext. }
  subst out. unfold exportPngAsDataUrl. fold st0. rewrite Hst2.
  cbn [call vis elementsToHide fst snd]. rewrite Hdrawn, He. split; [done|].
  destruct (restoreAll_spec visible H
              (call (CallToDataURL exportConfig) (call CallBatchDraw (hideAll H st0))))
    as (Hrv & _ & _).
  intros r. cbn [app]. rewrite Hrv. cbn [call vis]. rewrite Hv.
  by destruct (bool_decide _).
Qed.

(** X11. The exported image does not depend on whether the transformer
    and the brush-cursor groups were visible: two exports of the same
    stage whose node visibilities agree everywhere else give the same
    image; in particular an export repeated right after another gives
    the same image again. *)
Theorem export_ignores_overlay_visibility (stage : KNode) (v1 v2 : Visibility) :
  List.NoDup (refs_of stage) ->
  (forall r, ~ In r (List.map ref_of (hiddenNodes stage)) -> v1 r = v2 r) ->
  let first := exportPngAsDataUrl toDataURL (Some stage) v1 in
  (exportPngAsDataUrl toDataURL (Some stage) v2).1 = first.1
  /\ (exportPngAsDataUrl toDataURL (Some stage) (vis first.2)).1 = first.1.
Proof.
  intros Hnd Hagree first. subst first.
  destruct (export_outcome stage v1 Hnd) as [E1 V1].
  destruct (export_outcome stage v2 Hnd) as [E2 _].
  destruct (export_outcome stage
              (vis (exportPngAsDataUrl toDataURL (Some stage) v1).2) Hnd) as [E3 _].
  cbv zeta in E1, V1, E2, E3. rewrite E1, E2, E3. split.
  - do 2 f_equal. apply drawn_ext. intros r. unfold captureVisibility.
    destruct (bool_decide _) eqn:E; [done|]. symmetry. apply Hagree.
    apply bool_decide_eq_false_1 in E. by rewrite <- list_elem_of_In.
  - do 2 f_equal. apply drawn_ext. intros r. unfold captureVisibility.
    by rewrite V1.
Qed.

End ExportRepeatable.

Section ExportRepeatableExamples.
Import Exporter.

(** X11 at the sample stage: with the transformer (node 7) hidden or
    shown, the export draws nodes 1 to 6. *)
Lemma export_ignores_overlay_visibility_witness :
  let shown : Visibility := fun _ => true in
  let hidden : Visibility := fun r => negb (Pos.eqb r 7) in
  (exportPngAsDataUrl Samples.sampleToDataURL (Some Samples.sampleStage) hidden).1
  = (exportPngAsDataUrl Samples.sampleToDataURL (Some Samples.sampleStage) shown).1.
Proof.
  intros shown hidden.
  assert (Hnd : List.NoDup (refs_of Samples.sampleStage)).
  { apply NoDup_ListNoDup, (bool_decide_unpack _). vm_compute. exact I. }
  refine (proj1 (export_ignores_overlay_visibility Samples.sampleToDataURL
                   Samples.sampleStage shown hidden Hnd _)).
  intros r Hr. unfold shown, hidden.
  destruct (Pos.eqb_spec r 7) as [->|]; [|done].
  exfalso. apply Hr. vm_compute. tauto.
Defined.

End ExportRepeatableExamples.

(* ===================================================================== *)
(** * Project serializer: the files of the archive *)
(* ===================================================================== *)

Section ArchiveFiles.
Import Model JsM Serializer SerializerSpec.

Variable atob : string -> option string.
Variable now : string.

Lemma fold_insert_is_Some (imgs : list ImageEntry) (z : gmap string ZipEntry) k :
  is_Some (fold_left (fun z img => <[storedPath img := ZBinary (storedBytes atob img)]> z)
                     imgs z !! k)
  <-> is_Some (z !! k) \/ In k (List.map storedPath imgs).
Proof.
  revert z. induction imgs as [|img imgs IH]; intros z; cbn.
  - tauto.
  - rewrite IH. destruct (decide (storedPath img = k)) as [<-|Hne].
    + rewrite lookup_insert_eq. split; [auto|]. intros _. left. by eexists.
    + rewrite lookup_insert_ne by done. tauto.
Qed.


End ArchiveFiles.

Section ArchiveFilesExamples.
Import Model JsM Serializer SerializerSpec.


End ArchiveFilesExamples.

(* ===================================================================== *)
(** * The project kept in localStorage *)
(* ===================================================================== *)

Section LocalStorageTheorems.
Import JsM JsonValue LocalStorageProject.

Variable Project : Type.
Variable JSON_stringify : Project -> option string.
Variable JSON_parse : string -> option Json.
Variable denied : bool.
Variable fits : gmap string string -> string -> string -> bool.

Local Abbreviation save := (saveProjectToLocalStorage Project JSON_stringify denied fits).
Local Abbreviation load := (loadProjectFromLocalStorage JSON_parse denied).
Local Abbreviation clear := (clearSavedProject denied).

Lemma validProject_obj fields :
  validProject (JObj fields)
  <-> truthy (field "version" fields) = true
      /\ truthy (field "layers" fields) = true
      /\ truthy (field "modelId" fields) = true.
Proof.
  split.
  - by intros (f & [= <-] & H).
  - intros H. by exists fields.
Qed.

(** The loader, case by case. *)
Lemma load_cases (b : Browser) :
  exists r b',
    load b = (Returns r, b')
    /\ items b' = items b
    /\ (forall j, r = Some j <->
          denied = false
          /\ exists s, items b !! STORAGE_KEY = Some s /\ s <> ""
                       /\ JSON_parse s = Some j /\ validProject j).
Proof.
  unfold loadProjectFromLocalStorage, try_catch, bind, localStorage, getItem,
    parse, prop, console_warn, console_error, ret, throw.
  destruct denied; cbn.
  { eexists _, _. split; [reflexivity|]. split; [done|].
    intros j. split; [done|]. by intros [? _]. }
  destruct (items b !! STORAGE_KEY) as [s|] eqn:Hs; cbn.
  2: { eexists _, _. split; [reflexivity|]. split; [done|].
       intros j. split; [done|]. by intros (_ & s & ? & _). }
  destruct (String.eqb_spec s "") as [->|Hne]; cbn.
  { eexists _, _. split; [reflexivity|]. split; [done|].
    intros j. split; [done|]. by intros (_ & s & [= <-] & ? & _). }
  destruct (JSON_parse s) as [v|] eqn:Hp; cbn.
  2: { eexists _, _. split; [reflexivity|]. split; [done|].
       intros j. split; [done|]. intros (_ & s' & [= <-] & _ & ? & _). congruence. }
  assert (Hinv : forall j, (exists s', Some s = Some s' /\ s' <> ""
                                       /\ JSON_parse s' = Some j /\ validProject j)
                           <-> (v = j /\ validProject v)).
  { intros j. split.
    - intros (s' & [= <-] & _ & Hj & Hv). rewrite Hp in Hj. by injection Hj as ->.
    - intros [-> Hv]. by exists s. }
  destruct v as [|bb|n|str|elems|fields]; cbn;
    try (eexists _, _; split; [reflexivity|]; split; [done|];
         intros j; rewrite Hinv; split; [done|]; by intros (_ & _ & f & ? & _)).
  destruct (truthy (field "version" fields)) eqn:H1; cbn.
  2: { eexists _, _. split; [reflexivity|]. split; [done|].
       intros j. rewrite Hinv, validProject_obj, H1. split; [done|]. by intros (_ & _ & ? & _). }
  destruct (truthy (field "layers" fields)) eqn:H2; cbn.
  2: { eexists _, _. split; [reflexivity|]. split; [done|].
       intros j. rewrite Hinv, validProject_obj, H2. split; [done|]. by intros (_ & _ & _ & ? & _). }
  destruct (truthy (field "modelId" fields)) eqn:H3; cbn.
  2: { eexists _, _. split; [reflexivity|]. split; [done|].
       intros j. rewrite Hinv, validProject_obj, H3. split; [done|]. by intros (_ & _ & _ & _ & ?). }
  eexists _, _. split; [reflexivity|]. split; [done|].
  intros j. rewrite Hinv, validProject_obj, H1, H2, H3. split.
  - by intros [= <-].
  - by intros (_ & -> & _).
Qed.

(** X13. Loading the saved project never throws and never changes the
    storage. It returns a value exactly when storage access is allowed,
    the item is present and not empty, its text parses, and the parsed
    value is an object whose [version], [layers] and [modelId] are
    truthy; the value returned is that parsed object. In every other case
    (no item, malformed text, a [null], an array, a missing or empty
    field) it returns [null]. *)
Theorem load_returns_only_valid_projects (b : Browser) :
  exists r b',
    load b = (Returns r, b')
    /\ items b' = items b
    /\ (forall j, r = Some j <->
          denied = false
          /\ exists s, items b !! STORAGE_KEY = Some s /\ s <> ""
                       /\ JSON_parse s = Some j /\ validProject j).
Proof. apply load_cases. Qed.

(** The saver, case by case. *)
Lemma save_cases (project : Project) (b : Browser) :
  exists b',
    save project b = (Returns tt, b')
    /\ ((exists s, denied = false /\ JSON_stringify project = Some s
                   /\ fits (items b) STORAGE_KEY s = true
                   /\ b' = mkBrowser (<[STORAGE_KEY := s]> (items b)) (console b))
        \/ (exists e, (denied = true \/ JSON_stringify project = None
                       \/ exists s, JSON_stringify project = Some s
                                    /\ fits (items b) STORAGE_KEY s = false)
                      /\ b' = mkBrowser (items b)
                                (console b
                                 ++ [ConsoleError "Failed to save project to localStorage:" e]))).
Proof.
  unfold saveProjectToLocalStorage, try_catch, bind, localStorage, stringify, setItem,
    console_error, ret, throw.
  destruct denied; cbn.
  { eexists. split; [reflexivity|]. right. eexists. split; [by left|done]. }
  destruct (JSON_stringify project) as [s|]; cbn.
  2: { eexists. split; [reflexivity|]. right. eexists. split; [by right; left|done]. }
  destruct (fits (items b) STORAGE_KEY s) eqn:Hf; cbn.
  - eexists. split; [reflexivity|]. left. by exists s.
  - eexists. split; [reflexivity|]. right. eexists.
    split; [right; right; by exists s|done].
Qed.

Lemma clear_cases (b : Browser) :
  exists b',
    clear b = (Returns tt, b')
    /\ ((denied = false /\ b' = mkBrowser (delete STORAGE_KEY (items b)) (console b))
        \/ (denied = true /\ items b' = items b)).
Proof.
  unfold clearSavedProject, try_catch, bind, localStorage, removeItem,
    console_error, ret, throw.
  destruct denied; cbn; eexists; (split; [reflexivity|]); [by right|by left].
Qed.

(** X14. Saving a project and loading it again gives back exactly what
    [JSON.parse] makes of the saved text, provided that value passes the
    loader's structure check: with storage access allowed, the project
    serializable to a non-empty text and the quota not exceeded, the load
    after the save returns the parsed value j if and only if the saved
    text parses to j and j is a valid project. After a clear, a load
    returns [null] whatever was stored. *)
Theorem save_then_load_round_trip (project : Project) (s : string) (b : Browser) :
  denied = false ->
  JSON_stringify project = Some s ->
  s <> "" ->
  fits (items b) STORAGE_KEY s = true ->
  (forall j, (load (save project b).2).1 = Returns (Some j)
             <-> JSON_parse s = Some j /\ validProject j)
  /\ (load (clear (save project b).2).2).1 = Returns None.
Proof.
  intros Hd Hs Hne Hf.
  destruct (save_cases project b) as (b1 & Hsave & Hb1). rewrite Hsave. cbn [snd].
  destruct Hb1 as [(s' & _ & Hs' & _ & ->)|(e & [?|[?|(s' & ? & ?)]] & _)];
    [|congruence..].
  rewrite Hs in Hs'. injection Hs' as <-. split.
  - intros j. destruct (load_cases (mkBrowser (<[STORAGE_KEY:=s]> (items b)) (console b)))
      as (r & b2 & Hload & _ & Hr).
    rewrite Hload. cbn [fst items] in *. split.
    + intros [= ->]. destruct (proj1 (Hr j) eq_refl) as (_ & s' & Hl & _ & Hp & Hv).
      rewrite lookup_insert_eq in Hl. by injection Hl as <-.
    + intros [Hp Hv]. f_equal. apply Hr. split; [done|]. exists s.
      by rewrite lookup_insert_eq.
  - destruct (clear_cases (mkBrowser (<[STORAGE_KEY:=s]> (items b)) (console b)))
      as (b2 & Hclear & Hb2).
    rewrite Hclear. cbn [snd].
    destruct (load_cases b2) as (r & b3 & Hload & _ & Hr). rewrite Hload. cbn [fst].
    destruct r as [j|]; [|done].
    destruct (proj1 (Hr j) eq_refl) as (_ & s' & Hl & _).
    destruct Hb2 as [[_ ->]|[? _]]; [|congruence]. cbn [items] in Hl.
    by rewrite lookup_delete_eq in Hl.
Qed.

(** X15. Saving and clearing never throw and never touch another item of
    the storage. A save either stores the serialized project under the
    one storage key, or (access denied, project not serializable, quota
    exceeded) leaves every item, a previously saved project included, as
    it was and writes one error to the console. *)
Theorem save_and_clear_fail_silently (project : Project) (b : Browser) :
  (exists b',
     save project b = (Returns tt, b')
     /\ otherItemsKept b b'
     /\ ((exists s, JSON_stringify project = Some s
                    /\ items b' = <[STORAGE_KEY := s]> (items b)
                    /\ console b' = console b)
         \/ (exists e, items b' = items b
                       /\ console b'
                          = console b
                            ++ [ConsoleError "Failed to save project to localStorage:" e])))
  /\ (exists b',
        clear b = (Returns tt, b')
        /\ otherItemsKept b b'
        /\ (denied = false -> items b' !! STORAGE_KEY = None)).
Proof.
  split.
  - destruct (save_cases project b) as (b' & Hsave & Hb'). exists b'.
    split; [done|]. destruct Hb' as [(s & _ & Hs & _ & ->)|(e & _ & ->)]; cbn.
    + split; [|left; by exists s]. intros k Hk. cbn. by rewrite lookup_insert_ne.
    + split; [done|]. right. by exists e.
  - destruct (clear_cases b) as (b' & Hclear & Hb'). exists b'.
    split; [done|]. destruct Hb' as [[Hd ->]|[Hd Hi]]; cbn.
    + split; [|intros _; apply lookup_delete_eq].
      intros k Hk. cbn. by rewrite lookup_delete_ne.
    + split; [|congruence]. intros k Hk. by rewrite Hi.
Qed.

End LocalStorageTheorems.

Section LocalStorageExamples.
Import JsM JsonValue LocalStorageProject.

(** X14 at a browser with an unrelated item: the saved project is loaded
    back. *)
Lemma save_then_load_round_trip_witness :
  let b := mkBrowser {["theme" := "dark"]} [] in
  let save := saveProjectToLocalStorage string Some false (fun _ _ _ => true) in
  (loadProjectFromLocalStorage MoreSamples.sampleParse false (save "P1" b).2).1
  = Returns (Some MoreSamples.sampleParsed).
Proof.
  intros b save.
  apply (save_then_load_round_trip string Some MoreSamples.sampleParse false (fun _ _ _ => true)
           "P1" "P1" b eq_refl eq_refl ltac:(discriminate) eq_refl).
  split; [reflexivity|]. eexists. repeat split; reflexivity.
Defined.

End LocalStorageExamples.

(* ===================================================================== *)
(** * Asset URLs *)
(* ===================================================================== *)

Section AssetTheorems.
Import Assets.

Variable gltfModules : Glob.
Variable glbModules : Glob.
Variable modelyGlbUrl : option string.

Local Abbreviation gltfUrl := (getGltfUrl gltfModules glbModules modelyGlbUrl).

Lemma first_of_Some {A B} (f : A -> option B) xs y :
  first_of f xs = Some y -> exists x, In x xs /\ f x = Some y.
Proof.
  induction xs as [|x xs IH]; [done|]. cbn.
  destruct (f x) as [y'|] eqn:E.
  - intros [= <-]. exists x. split; [by left|done].
  - intros H. destruct (IH H) as (x' & Hin & Hx'). exists x'. split; [by right|done].
Qed.

Lemma url_of_Some m u : url_of m = Some u -> m = Some (MString u) /\ u <> "".
Proof.
  destruct m as [[s|]|]; try done. cbn.
  destruct (String.eqb_spec s ""); [done|]. by intros [= <-].
Qed.

(** The path the last step falls back to. *)
Lemma fallbackStep_value folderName :
  fallbackStep folderName
  = Some (if String.eqb folderName "modely"
          then "/src/assets/wraps/modely/Y_High/ModelY_High.glb"
          else "/src/assets/wraps/" +:+ folderName +:+ "/ModelY_High.glb").
Proof.
  unfold fallbackStep, fallbackFolders.
  destruct (String.eqb_spec folderName "modely") as [->|]; reflexivity.
Qed.



End AssetTheorems.

Section AssetExamples.
Import Assets.


End AssetExamples.

(* ===================================================================== *)
(** * The publish dialog *)
(* ===================================================================== *)

Section PublishDialogTheorems.
Import JsM PublishDialog.

Variable World : Type.
Variable supabase : option (Publish.SupabaseClient World).
Variable randomUUID : M World string.
Variable fetch_blob : string -> M World Publish.Blob.
Variable atob : string -> option string.
Variable now : string.
Variable generateAsync : gmap string Serializer.ZipEntry -> list Byte.byte.
Variable toDataURL : Exporter.Config -> Exporter.KNode -> list Exporter.ref -> string.
Variable getSerializedState : M (gmap Serializer.loc Serializer.Obj) Serializer.loc.
Variable VITE_GALLERY_URL : option string.
Variable origin : string.

Local Abbreviation handle :=
  (handlePublish World supabase randomUUID fetch_blob atob now generateAsync
                 toDataURL getSerializedState VITE_GALLERY_URL origin).
Local Abbreviation Sess := (Session World).
Local Abbreviation baseUrl := (galleryBaseUrl VITE_GALLERY_URL origin).

Lemma or_str_nonempty s d : d <> "" -> LineLayerComponent.or_str s d <> "".
Proof.
  intros Hd. unfold LineLayerComponent.or_str, truthy_str.
  destruct s as [v|]; [|done]. cbn.
  destruct (String.eqb_spec v ""); cbn; done.
Qed.

(** The run of [handlePublish] past its guards: it ends published, or in
    the [catch] block at some later session. *)
Lemma handlePublish_started (user : User) (stage : Exporter.KNode)
                            (currentModelId : string) (s : Sess) :
  Publish.trim (title (dialog World s)) <> "" ->
  let out := Exporter.exportPngAsDataUrl toDataURL (Some stage) (visibility World s) in
  exists s',
    handle (Some user) (Some stage) currentModelId s = (Returns tt, s')
    /\ (forall r, visibility World s' r = Exporter.vis out.2 r)
    /\ ((exists i,
           dialog World s'
           = mkDialog (title (dialog World s)) (description (dialog World s)) true None
                      (Some publishedMessage)
           /\ timers World s'
              = timers World s ++ [CloseAndOpen 2000 (baseUrl +:+ "/design/" +:+ i)])
        \/ (exists message,
              dialog World s'
              = mkDialog (title (dialog World s)) (description (dialog World s)) false
                         (Some (LineLayerComponent.or_str (Some message) publishFallback))
                         (success (dialog World s))
              /\ timers World s' = timers World s)).
Proof.
  intros Ht out. unfold handlePublish.
  unfold bind at 1. cbn [get].
  destruct (String.eqb_spec (Publish.trim (title (dialog World s))) "") as [E|_]; [done|].
  unfold bind at 1. cbn [setUploading with_dialog].
  unfold bind at 1. cbn [setError with_dialog dialog visibility heap world timers
                           title description uploading error success].
  unfold try_catch. unfold bind at 1. unfold exportPng at 1.
  cbn [dialog visibility heap world timers]. fold out.
  destruct (truthy_str out.1) eqn:Hp; cbn [negb].
  2: { eexists. split; [reflexivity|]. split; [done|]. right. by eexists. }
  unfold bind at 1. unfold serialized at 1. cbn [dialog visibility heap world timers].
  destruct (getSerializedState (heap World s)) as [[projectData|[m]] h1].
  2: { eexists. split; [reflexivity|]. split; [done|]. right. by eexists. }
  unfold bind at 1. unfold toBlob at 1. cbn [dialog visibility heap world timers].
  destruct (Serializer.projectToBlob atob now generateAsync projectData
              (Serializer.enter h1)) as [[blob|[m]] st2].
  2: { eexists. split; [reflexivity|]. split; [done|]. right. by eexists. }
  unfold bind at 1. unfold publish at 1. cbn [dialog visibility heap world timers].
  match goal with
  | |- context [Publish.publishDesign World supabase randomUUID fetch_blob
                  ?t ?d ?m ?u ?b ?i ?w] =>
    destruct (publishDesign_runs World supabase randomUUID fetch_blob t d m u b i w)
      as (r & w' & Hrun & _); rewrite Hrun
  end.
  destruct (Publish.error r) as [[m]|] eqn:He.
  { eexists. split; [reflexivity|]. split; [done|]. right. by eexists. }
  eexists. split; [reflexivity|]. split; [done|]. left. by eexists.
Qed.

Lemma classic_guard (user : option User) (s : Sess) :
  (user = None \/ Publish.trim (title (dialog World s)) = "")
  \/ (exists u, user = Some u /\ Publish.trim (title (dialog World s)) <> "").
Proof.
  destruct user as [u|]; [|by left; left].
  destruct (String.eqb_spec (Publish.trim (title (dialog World s))) "").
  - left. by right.
  - right. by exists u.
Qed.

(** The run of [handlePublish] stopped by a guard. *)
Lemma handlePublish_guarded
    (user : option User) (stageRef : option Exporter.KNode)
    (currentModelId : string) (s : Sess) :
  user = None \/ Publish.trim (title (dialog World s)) = "" \/ stageRef = None ->
  let msg := match user with
             | None => "Please log in first"
             | Some _ =>
               if String.eqb (Publish.trim (title (dialog World s))) ""
               then "Please enter a title" else "Canvas not available"
             end in
  exists s',
    handle user stageRef currentModelId s = (Returns tt, s')
    /\ shows_error msg (dialog World s) (dialog World s')
    /\ same_but_dialog World s s'.
Proof.
  intros Hg msg. subst msg. unfold handlePublish, bind; cbn [get].
  destruct user as [user|].
  2: { eexists. split; [reflexivity|]. by split. }
  destruct (String.eqb_spec (Publish.trim (title (dialog World s))) "") as [E|Hne].
  { eexists. split; [reflexivity|]. by split. }
  destruct Hg as [? | [? | ->]]; [done|done|].
  eexists. split; [reflexivity|]. by split.
Qed.



(** X20. Whatever the outcome of a publish, the stage is left as it was
    found: on a stage whose nodes have distinct identities, every node
    (the transformer and the brush cursor included) has the visibility it
    had before [handlePublish] ran. *)
Theorem handlePublish_leaves_stage_as_found
    (user : option User) (stage : Exporter.KNode)
    (currentModelId : string) (s : Sess) :
  List.NoDup (Exporter.refs_of stage) ->
  exists s',
    handle user (Some stage) currentModelId s = (Returns tt, s')
    /\ (forall r, visibility World s' r = visibility World s r).
Proof.
  intros Hnd.
  destruct (classic_guard user s) as [Hg|(u & -> & Hne)].
  - destruct (handlePublish_guarded user (Some stage) currentModelId s) as (s' & Hrun & _ & Hv & _).
    { destruct Hg; auto. }
    by exists s'.
  - destruct (handlePublish_started u stage currentModelId s Hne) as (s' & Hrun & Hv & _).
    exists s'. split; [done|]. intros r. rewrite Hv.
    by destruct (export_outcome toDataURL stage (visibility World s) Hnd) as [_ ->].
Qed.

End PublishDialogTheorems.

Section PublishDialogExamples.
Import JsM PublishDialog.


(** X20 at the sample stage, for a publish that fails because no
    Supabase client is configured: every node is visible again. *)
Lemma handlePublish_leaves_stage_as_found_witness :
  let s := mkSession unit (mkDialog "My wrap" "" false None None) (fun _ => true) ∅ tt [] in
  exists s',
    handlePublish unit None (ret "id") (fun _ => ret []) (fun _ => None) "now"
                  (fun _ => []) Samples.sampleToDataURL (ret 1%positive) None "https://x"
                  (Some (mkUser "u1")) (Some Samples.sampleStage) "modely" s
    = (Returns tt, s')
    /\ (forall r, visibility unit s' r = true).
Proof.
  intros s.
  assert (Hnd : List.NoDup (Exporter.refs_of Samples.sampleStage)).
  { apply NoDup_ListNoDup, (bool_decide_unpack _). vm_compute. exact I. }
  exact (handlePublish_leaves_stage_as_found unit None (ret "id") (fun _ => ret [])
           (fun _ => None) "now" (fun _ => []) Samples.sampleToDataURL (ret 1%positive)
           None "https://x" (Some (mkUser "u1")) Samples.sampleStage "modely" s Hnd).
Defined.

End PublishDialogExamples.

(* ===================================================================== *)
(** * Retrying and polling *)
(* ===================================================================== *)

Section ReplicateTheorems.
Import JsM JsonValue Replicate.

Variable World : Type.
Variable fetch : string -> Request -> M World Response.
Variable toString : Json -> string.

Local Abbreviation NetS := (Net World).
Local Abbreviation retry := (fetchWithRetry World fetch).
Local Abbreviation attempt1 := (tryAttempt World fetch).
Local Abbreviation loop := (attemptsFrom World fetch).
Local Abbreviation poll := (pollPrediction World fetch toString).

(** One attempt makes one request; it returns a response only if that
    response is not a 429. *)
Lemma tryAttempt_spec url options attempt maxRetries (s : NetS) :
  requests World (attempt1 url options attempt maxRetries s).2
  = requests World s ++ [(url, options)]
  /\ (forall r, (attempt1 url options attempt maxRetries s).1 = Returns (Some r) ->
        status r <> 429).
Proof.
  unfold tryAttempt, bind, do_fetch.
  destruct (fetch url options (world World s)) as [[response|e] w]; [|done].
  destruct (Nat.eqb_spec (status response) 429) as [E|Hne].
  - destruct (waitMatch (json_or_empty response)) as [wm|]; cbn; [|done].
    split; [done|]. intros r. by destruct wm.
  - cbn. split; [done|]. by intros r [= <-].
Qed.

Lemma sleep_requests ms (s : NetS) :
  requests World (sleep World ms s).2 = requests World s.
Proof. done. Qed.

(** The loop from any attempt on. *)
Lemma attemptsFrom_spec remaining :
  forall url options attempt maxRetries lastError (s : NetS),
  let out := loop remaining url options attempt maxRetries lastError s in
  exists k,
    requests World out.2 = requests World s ++ repeat (url, options) k
    /\ (k <= remaining)%nat
    /\ match out.1 with
       | Returns r => (1 <= k)%nat /\ status r <> 429
       | Throws _ => k = remaining
       end.
Proof.
  induction remaining as [|remaining IH]; intros url options attempt maxRetries lastError s out.
  { exists 0%nat. subst out. cbn. by rewrite app_nil_r. }
  subst out. cbn [attemptsFrom].
  destruct (tryAttempt_spec url options attempt maxRetries s) as [Hreq Hret].
  destruct (attempt1 url options attempt maxRetries s) as [[[r|]|e] s1] eqn:E;
    cbn [fst snd] in Hreq, Hret.
  - exists 1%nat. cbn [fst snd]. split; [done|]. split; [lia|]. split; [lia|by apply Hret].
  - destruct (IH url options (attempt + 1)%nat maxRetries lastError s1) as (k & Hk & Hle & Hout).
    exists (S k). rewrite Hk, Hreq, <- app_assoc. split; [done|]. split; [lia|].
    destruct (loop remaining url options (attempt + 1)%nat maxRetries lastError s1).1; [|lia].
    split; [lia|tauto].
  - assert (exists s2,
              ((if (attempt <? maxRetries - 1)%nat
                then sleep World (num_of_nat (attempt + 1) * num_1000)%js
                else ret tt) ;;;
               loop remaining url options (attempt + 1)%nat maxRetries (Some e))%jsm s1
              = loop remaining url options (attempt + 1)%nat maxRetries (Some e) s2
              /\ requests World s2 = requests World s1) as (s2 & -> & Hs2).
    { destruct (attempt <? maxRetries - 1)%nat; eexists; (split; [reflexivity|done]). }
    destruct (IH url options (attempt + 1)%nat maxRetries (Some e) s2) as (k & Hk & Hle & Hout).
    exists (S k). rewrite Hk, Hs2, Hreq, <- app_assoc. split; [done|]. split; [lia|].
    destruct (loop remaining url options (attempt + 1)%nat maxRetries (Some e) s2).1; [|lia].
    split; [lia|tauto].
Qed.

(** X21. [fetchWithRetry] makes at most [maxRetries] requests, all of
    them to the given URL with the given options. A response it returns
    is never a 429 (rate limited) response, and when it throws it has
    made exactly [maxRetries] requests. *)
Theorem fetchWithRetry_attempts_bounded
    (url : string) (options : Request) (maxRetries : nat) (s : NetS) :
  let out := retry url options maxRetries s in
  exists k,
    requests World out.2 = requests World s ++ repeat (url, options) k
    /\ (k <= maxRetries)%nat
    /\ match out.1 with
       | Returns r => (1 <= k)%nat /\ status r <> 429
       | Throws _ => k = maxRetries
       end.
Proof. apply attemptsFrom_spec. Qed.


(** The pause of a rate-limited attempt: the hint of the response, in
    seconds, or 2 seconds per attempt made, plus half a second. *)
Lemma tryAttempt_rate_limited url options attempt maxRetries hint (s : NetS) r w :
  fetch url options (world World s) = (Returns r, w) ->
  status r = 429 ->
  waitMatch (json_or_empty r) = Some hint ->
  attempt1 url options attempt maxRetries s
  = (Returns None,
     mkNet World w (requests World s ++ [(url, options)])
           (sleeps World s ++ [(rateLimitWait hint attempt + num_500)%js])
           (with_error (Some (RateLimitNotice (rateLimitWait hint attempt)
                                              attempt maxRetries))
                       (state World s))).
Proof.
  intros Hf Hs Hw. unfold tryAttempt, bind, do_fetch. rewrite Hf, Hs, Hw. cbn.
  by destruct hint.
Qed.

Lemma attemptsFrom_rate_limited url options maxRetries hint remaining :
  (forall w, exists r w', fetch url options w = (Returns r, w')
                          /\ status r = 429
                          /\ waitMatch (json_or_empty r) = Some hint) ->
  forall attempt lastError (s : NetS),
  let out := loop remaining url options attempt maxRetries lastError s in
  out.1 = Throws (default (mkError "Max retries exceeded") lastError)
  /\ requests World out.2 = requests World s ++ repeat (url, options) remaining
  /\ sleeps World out.2
     = sleeps World s
       ++ List.map (fun a => (rateLimitWait hint a + num_500)%js) (seq attempt remaining)
  /\ error (state World out.2)
     = match remaining with
       | O => error (state World s)
       | S r => Some (RateLimitNotice (rateLimitWait hint (attempt + r)) (attempt + r)
                                      maxRetries)
       end.
Proof.
  intros H. induction remaining as [|remaining IH]; intros attempt lastError s out.
  { subst out. cbn. by rewrite !app_nil_r. }
  subst out. cbn [attemptsFrom].
  destruct (H (world World s)) as (r & w & Hf & Hs & Hw).
  rewrite (tryAttempt_rate_limited url options attempt maxRetries hint s r w Hf Hs Hw).
  destruct (IH (attempt + 1)%nat lastError
               (mkNet World w (requests World s ++ [(url, options)])
                  (sleeps World s ++ [(rateLimitWait hint attempt + num_500)%js])
                  (with_error (Some (RateLimitNotice (rateLimitWait hint attempt)
                                                     attempt maxRetries))
                              (state World s)))) as (H1 & H2 & H3 & H4).
  cbv zeta in H1, H2, H3, H4. rewrite H1, H2, H3, H4. cbn [requests sleeps state].
  rewrite <- !app_assoc. cbn [repeat seq List.map app].
  replace (attempt + 1)%nat with (S attempt) by lia.
  split; [done|]. split; [done|]. split; [done|].
  destruct remaining as [|r']; cbn [with_error error].
  - by rewrite Nat.add_0_r.
  - by replace (S attempt + r')%nat with (attempt + S r')%nat by lia.
Qed.

(** X22. When every attempt is answered with status 429 and the same
    usable hint, [fetchWithRetry] gives up with "Max retries exceeded"
    after exactly [maxRetries] requests. It has paused after every one of
    them, the last included: for the hinted number of seconds, or without
    a hint for 2 seconds times the number of attempts made, plus half a
    second each time; and the dialog is left showing the retry notice of
    the last attempt. *)
Theorem fetchWithRetry_rate_limited_to_the_end
    (url : string) (options : Request) (maxRetries : nat) (hint : option string)
    (s : NetS) :
  (forall w, exists r w', fetch url options w = (Returns r, w')
                          /\ status r = 429
                          /\ waitMatch (json_or_empty r) = Some hint) ->
  let out := retry url options maxRetries s in
  out.1 = Throws (mkError "Max retries exceeded")
  /\ made World (retry url options maxRetries) s = repeat (url, options) maxRetries
  /\ paused World (retry url options maxRetries) s
     = List.map (fun a => (rateLimitWait hint a + num_500)%js) (seq 0 maxRetries)
  /\ (forall r, maxRetries = S r ->
        error (state World out.2)
        = Some (RateLimitNotice (rateLimitWait hint r) r maxRetries)).
Proof.
  intros H out.
  destruct (attemptsFrom_rate_limited url options maxRetries hint maxRetries H 0%nat None s)
    as (H1 & H2 & H3 & H4).
  subst out. unfold made, paused. fold (retry url options maxRetries s) in H1, H2, H3, H4.
  rewrite H1, H2, H3, !drop_app_length. repeat split.
  intros r ->. by rewrite H4.
Qed.

Lemma attemptsFrom_network_down url options maxRetries e0 remaining :
  (forall w, exists w', fetch url options w = (Throws e0, w')) ->
  forall attempt lastError (s : NetS),
  (attempt + remaining = maxRetries)%nat ->
  let out := loop remaining url options attempt maxRetries lastError s in
  out.1 = Throws match remaining with
                 | O => default (mkError "Max retries exceeded") lastError
                 | S _ => e0
                 end
  /\ requests World out.2 = requests World s ++ repeat (url, options) remaining
  /\ sleeps World out.2
     = sleeps World s
       ++ List.map (fun a => (num_of_nat (a + 1) * num_1000)%js)
                   (seq attempt (remaining - 1))
  /\ state World out.2 = state World s.
Proof.
  intros H. induction remaining as [|remaining IH]; intros attempt lastError s Hsum out.
  { subst out. cbn. by rewrite !app_nil_r. }
  subst out. cbn [attemptsFrom].
  destruct (H (world World s)) as (w & Hf).
  assert (Htry : attempt1 url options attempt maxRetries s
                 = (Throws e0, mkNet World w (requests World s ++ [(url, options)])
                                     (sleeps World s) (state World s))).
  { unfold tryAttempt, bind, do_fetch. by rewrite Hf. }
  rewrite Htry.
  destruct remaining as [|remaining'].
  - assert ((attempt <? maxRetries - 1)%nat = false) as -> by (apply Nat.ltb_ge; lia).
    cbn. by rewrite !app_nil_r.
  - assert ((attempt <? maxRetries - 1)%nat = true) as -> by (apply Nat.ltb_lt; lia).
    change ((sleep World (num_of_nat (attempt + 1) * num_1000)%js ;;;
             loop (S remaining') url options (attempt + 1)%nat maxRetries (Some e0))%jsm
              (mkNet World w (requests World s ++ [(url, options)])
                     (sleeps World s) (state World s)))
      with (loop (S remaining') url options (attempt + 1)%nat maxRetries (Some e0)
              (mkNet World w (requests World s ++ [(url, options)])
                 (sleeps World s ++ [(num_of_nat (attempt + 1) * num_1000)%js])
                 (state World s))).
    destruct (IH (attempt + 1)%nat (Some e0)
                 (mkNet World w (requests World s ++ [(url, options)])
                    (sleeps World s ++ [(num_of_nat (attempt + 1) * num_1000)%js])
                    (state World s)) ltac:(lia)) as (H1 & H2 & H3 & H4).
    cbv zeta in H1, H2, H3, H4. rewrite H1, H2, H3, H4. cbn [requests sleeps state].
    rewrite <- !app_assoc. cbn [repeat app]. repeat split.
    replace (S (S remaining') - 1)%nat with (S (S remaining' - 1)) by lia.
    cbn [seq List.map app]. by replace (attempt + 1)%nat with (S attempt) by lia.
Qed.

(** X23. When every attempt fails in the network with the error e,
    [fetchWithRetry] with at least one attempt allowed throws e after
    exactly [maxRetries] requests. Between the attempts it has paused
    for 1, 2, 3, ... seconds, not after the last one, and it has not
    touched the dialog state. With no attempt allowed it throws "Max
    retries exceeded" at once. *)
Theorem fetchWithRetry_network_down
    (url : string) (options : Request) (maxRetries : nat) (e : JsError) (s : NetS) :
  (forall w, exists w', fetch url options w = (Throws e, w')) ->
  let out := retry url options maxRetries s in
  out.1 = Throws (if (maxRetries =? 0)%nat then mkError "Max retries exceeded" else e)
  /\ made World (retry url options maxRetries) s = repeat (url, options) maxRetries
  /\ paused World (retry url options maxRetries) s
     = List.map (fun a => (num_of_nat (a + 1) * num_1000)%js) (seq 0 (maxRetries - 1))
  /\ state World out.2 = state World s.
Proof.
  intros H out.
  destruct (attemptsFrom_network_down url options maxRetries e maxRetries H 0%nat None s
              eq_refl) as (H1 & H2 & H3 & H4).
  subst out. unfold made, paused. fold (retry url options maxRetries s) in H1, H2, H3, H4.
  rewrite H1, H2, H3, H4, !drop_app_length. repeat split. by destruct maxRetries.
Qed.


Lemma bind_throws {S A B} (c : M S A) (k : A -> M S B) st e st' :
  c st = (Throws e, st') -> bind c k st = (Throws e, st').
Proof. intros H. unfold bind. by rewrite H. Qed.

Local Abbreviation once := (pollOnce World fetch toString).
Local Abbreviation rounds := (pollFrom World fetch toString).

(** One round of polling. *)
Lemma pollOnce_spec predictionId token (s : NetS) :
  let out := once predictionId token s in
  exists k,
    requests World out.2
    = requests World s ++ repeat (pollUrl predictionId, pollOptions token) k
    /\ (k <= 2)%nat
    /\ (forall p, out.1 = Returns (Some p) ->
          get_prop "status" p = Some (Some (JStr "succeeded"))).
Proof.
  intros out. subst out. unfold pollOnce.
  destruct (attemptsFrom_spec 2 (pollUrl predictionId) (pollOptions token) 0%nat 2%nat None s)
    as (k & Hk & Hle & _).
  cbv zeta in Hk. fold (retry (pollUrl predictionId) (pollOptions token) 2 s) in Hk.
  destruct (retry (pollUrl predictionId) (pollOptions token) 2 s) as [[response|e] s1] eqn:E;
    cbn [fst snd] in Hk.
  2: { rewrite (bind_throws _ _ _ _ _ E). exists k. cbn. by repeat split. }
  rewrite (bind_run _ _ _ _ _ E).
  exists k. destruct (ok response); cbn [negb].
  - unfold bind, read_json, prop.
    destruct (json response) as [prediction|]; [|done]. cbn [ret].
    destruct (get_prop "status" prediction) as [st|] eqn:Hst; [|done]. cbn [ret].
    destruct (is_str "succeeded" st) eqn:Hs.
    + cbn. split; [done|]. split; [done|]. intros p [= <-].
      rewrite Hst. destruct st as [[]|]; try done. cbn in Hs.
      by apply String.eqb_eq in Hs as ->.
    + destruct (is_str "failed" st || is_str "canceled" st).
      * by destruct (get_prop "error" prediction).
      * done.
  - unfold bind, prop. by destruct (get_prop "detail" (json_or_empty response)).
Qed.

Lemma pollFrom_spec remaining predictionId token :
  forall (s : NetS),
  let out := rounds remaining predictionId token s in
  exists k,
    requests World out.2
    = requests World s ++ repeat (pollUrl predictionId, pollOptions token) k
    /\ (k <= 2 * remaining)%nat
    /\ (forall p, out.1 = Returns p ->
          get_prop "status" p = Some (Some (JStr "succeeded"))).
Proof.
  induction remaining as [|remaining IH]; intros s out; subst out.
  { exists 0%nat. cbn. by rewrite app_nil_r. }
  cbn [pollFrom].
  destruct (pollOnce_spec predictionId token s) as (k & Hk & Hle & Hp).
  cbv zeta in Hk, Hp.
  destruct (once predictionId token s) as [[[p|]|e] s1] eqn:E; cbn [fst snd] in Hk, Hp.
  - rewrite (bind_run _ _ _ _ _ E).
    exists k. cbn. split; [done|]. split; [lia|]. intros q [= <-]. by apply Hp.
  - rewrite (bind_run _ _ _ _ _ E).
    destruct (IH s1) as (k' & Hk' & Hle' & Hp'). exists (k + k')%nat.
    rewrite Hk', Hk, <- app_assoc, repeat_app. split; [done|]. split; [lia|done].
  - rewrite (bind_throws _ _ _ _ _ E).
    exists k. cbn. split; [done|]. split; [lia|done].
Qed.

(** X24. [pollPrediction] asks for the status of the prediction at most
    60 times, with at most two requests each time: it makes at most 120
    requests, all of them to the prediction's URL with the bearer token.
    The prediction it returns always has the status "succeeded". *)
Theorem pollPrediction_bounded (predictionId token : string) (s : NetS) :
  let out := poll predictionId token s in
  exists k,
    requests World out.2
    = requests World s
      ++ repeat ("/api/replicate/v1/predictions/" +:+ predictionId,
                 mkRequest None [("Authorization", "Bearer " +:+ token)] None) k
    /\ (k <= 120)%nat
    /\ (forall p, out.1 = Returns p ->
          get_prop "status" p = Some (Some (JStr "succeeded"))).
Proof.
  intros out. subst out.
  destruct (pollFrom_spec maxAttempts predictionId token s) as (k & Hk & Hle & Hp).
  exists k. split; [exact Hk|]. split; [|exact Hp]. unfold maxAttempts in Hle. lia.
Qed.

(** A round that finds the prediction still in progress. *)
Lemma pollOnce_pending predictionId token (s : NetS) fields st :
  (forall w, exists w',
     fetch (pollUrl predictionId) (pollOptions token) w
     = (Returns (mkResponse 200 (Some (JObj fields))), w')) ->
  field "status" fields = Some (JStr st) ->
  st <> "succeeded" -> st <> "failed" -> st <> "canceled" ->
  exists w',
    once predictionId token s
    = (Returns None,
       mkNet World w' (requests World s ++ [(pollUrl predictionId, pollOptions token)])
             (sleeps World s ++ [num_2000]) (clearRateLimit (state World s))).
Proof.
  intros H Hst H1 H2 H3. destruct (H (world World s)) as (w' & Hf). exists w'.
  unfold pollOnce.
  unfold fetchWithRetry. cbn [attemptsFrom]. unfold bind at 1.
  unfold tryAttempt, bind at 1, do_fetch. rewrite Hf. cbn.
  rewrite Hst. cbn.
  destruct (String.eqb_spec st "succeeded"); [done|].
  destruct (String.eqb_spec st "failed"); [done|].
  destruct (String.eqb_spec st "canceled"); [done|]. cbn.
  reflexivity.
Qed.

Lemma clearRateLimit_idem g : clearRateLimit (clearRateLimit g) = clearRateLimit g.
Proof.
  unfold clearRateLimit. destruct g as [l [e|] i si]; cbn; [|done].
  by destruct (mentionsRateLimit e) eqn:E; cbn; [|rewrite E].
Qed.

Lemma pollFrom_pending remaining predictionId token fields st :
  (forall w, exists w',
     fetch (pollUrl predictionId) (pollOptions token) w
     = (Returns (mkResponse 200 (Some (JObj fields))), w')) ->
  field "status" fields = Some (JStr st) ->
  st <> "succeeded" -> st <> "failed" -> st <> "canceled" ->
  forall (s : NetS),
  let out := rounds remaining predictionId token s in
  out.1 = Throws (mkError "Generation timed out. Please try again.")
  /\ requests World out.2
     = requests World s ++ repeat (pollUrl predictionId, pollOptions token) remaining
  /\ sleeps World out.2 = sleeps World s ++ repeat num_2000 remaining
  /\ state World out.2
     = match remaining with
       | O => state World s
       | S _ => clearRateLimit (state World s)
       end.
Proof.
  intros H Hst H1 H2 H3.
  induction remaining as [|remaining IH]; intros s out; subst out.
  { cbn. by rewrite !app_nil_r. }
  cbn [pollFrom].
  destruct (pollOnce_pending predictionId token s fields st H Hst H1 H2 H3) as (w' & E).
  rewrite (bind_run _ _ _ _ _ E).
  destruct (IH (mkNet World w'
                  (requests World s ++ [(pollUrl predictionId, pollOptions token)])
                  (sleeps World s ++ [num_2000]) (clearRateLimit (state World s))))
    as (I1 & I2 & I3 & I4).
  cbv zeta in I1, I2, I3, I4. rewrite I1, I2, I3, I4. cbn [requests sleeps state].
  rewrite <- !app_assoc. cbn [repeat app]. repeat split.
  destruct remaining; [done|apply clearRateLimit_idem].
Qed.

(** X25. While the prediction stays in progress (every poll is answered
    with status 200 and a prediction whose status is none of "succeeded",
    "failed", "canceled"), [pollPrediction] polls exactly 60 times, pauses
    2 seconds after each poll, and then throws "Generation timed out.
    Please try again.". *)
Theorem pollPrediction_times_out
    (predictionId token : string) (fields : list (string * Json)) (st : string)
    (s : NetS) :
  (forall w, exists w',
     fetch (pollUrl predictionId) (pollOptions token) w
     = (Returns (mkResponse 200 (Some (JObj fields))), w')) ->
  field "status" fields = Some (JStr st) ->
  st <> "succeeded" -> st <> "failed" -> st <> "canceled" ->
  (poll predictionId token s).1
  = Throws (mkError "Generation timed out. Please try again.")
  /\ made World (poll predictionId token) s
     = repeat (pollUrl predictionId, pollOptions token) 60
  /\ paused World (poll predictionId token) s = repeat num_2000 60.
Proof.
  intros H Hst H1 H2 H3.
  destruct (pollFrom_pending maxAttempts predictionId token fields st H Hst H1 H2 H3 s)
    as (I1 & I2 & I3 & _).
  unfold made, paused. fold (poll predictionId token s) in I1, I2, I3.
  by rewrite I1, I2, I3, !drop_app_length.
Qed.


End ReplicateTheorems.


Section ReplicateExamples.
Import JsM JsonValue Replicate.

(** X22 at a server that throttles every request with "resets in ~7s":
    three attempts, each followed by a pause of 7.5 seconds. *)
Lemma fetchWithRetry_rate_limited_to_the_end_witness :
  let run := fetchWithRetry unit MoreSamples.throttledFetch "/api" MoreSamples.sampleRequest 3 in
  (run MoreSamples.emptyNet).1 = Throws (mkError "Max retries exceeded")
  /\ paused unit run MoreSamples.emptyNet = [7500%float; 7500%float; 7500%float].
Proof.
  intros run.
  destruct (fetchWithRetry_rate_limited_to_the_end unit MoreSamples.throttledFetch
              "/api" MoreSamples.sampleRequest 3 (Some "7") MoreSamples.emptyNet)
    as (H1 & _ & H3 & _).
  { intros w. eexists _, _. repeat split; reflexivity. }
  split; [exact H1|]. subst run. rewrite H3. reflexivity.
Defined.

(** X23 at a network that is down: three attempts, with pauses of one
    and two seconds between them. *)
Lemma fetchWithRetry_network_down_witness :
  let run := fetchWithRetry unit MoreSamples.offlineFetch "/api" MoreSamples.sampleRequest 3 in
  (run MoreSamples.emptyNet).1 = Throws (mkError "Failed to fetch")
  /\ paused unit run MoreSamples.emptyNet = [1000%float; 2000%float].
Proof.
  intros run.
  destruct (fetchWithRetry_network_down unit MoreSamples.offlineFetch
              "/api" MoreSamples.sampleRequest 3 (mkError "Failed to fetch")
              MoreSamples.emptyNet)
    as (H1 & _ & H3 & _).
  { intros w. by eexists. }
  split; [exact H1|]. subst run. rewrite H3. reflexivity.
Defined.

(** X25 at a prediction that stays "processing": sixty polls. *)
Lemma pollPrediction_times_out_witness :
  let run := pollPrediction unit MoreSamples.pendingFetch (fun _ => "") "p1" "token" in
  (run MoreSamples.emptyNet).1
  = Throws (mkError "Generation timed out. Please try again.")
  /\ length (made unit run MoreSamples.emptyNet) = 60%nat.
Proof.
  intros run.
  destruct (pollPrediction_times_out unit MoreSamples.pendingFetch (fun _ => "")
              "p1" "token" [("id", JStr "p1"); ("status", JStr "processing")]
              "processing" MoreSamples.emptyNet)
    as (H1 & H2 & _).
  { intros w. by eexists. }
  { reflexivity. }
  { discriminate. }
  { discriminate. }
  { discriminate. }
  split; [exact H1|]. subst run. rewrite H2. reflexivity.
Defined.

End ReplicateExamples.

(* ===================================================================== *)
(** * The save dialog *)
(* ===================================================================== *)

Section SaveDialogTheorems.
Import JsM SaveDialog.

Variable World : Type.
Variable saveProjectToSupabase :
  Serializer.loc -> string -> option string -> SaveOptions ->
  M (gmap Serializer.loc Serializer.Obj * World) string.
Variable toDataURL : Exporter.Config -> Exporter.KNode -> list Exporter.ref -> string.
Variable getSerializedState : M (gmap Serializer.loc Serializer.Obj) Serializer.loc.

Local Abbreviation Sess := (Session World).
Local Abbreviation run :=
  (handleSave World saveProjectToSupabase toDataURL getSerializedState).

(** Every run of [handleSave] on a mounted stage. *)
Lemma handleSave_cases (user : option User) (stage : Exporter.KNode)
                       (projectName : string) (designId : option string) (s : Sess) :
  exists s',
    run user (Some stage) projectName designId s = (Returns tt, s')
    /\ editingName (dialog World s') = editingName (dialog World s)
    /\ ((exists id call,
           saveCalls World s' = saveCalls World s ++ [call]
           /\ call_options call = optionsOf user (dialog World s)
           /\ storeCalls World s'
              = storeCalls World s ++ renameCalls projectName (dialog World s)
                ++ [SetDesignId id; MarkAsSaved]
           /\ success (dialog World s') = true
           /\ error (dialog World s') = None
           /\ saving (dialog World s') = true
           /\ timers World s' = timers World s ++ [SuccessAndClose 1000])
        \/ (exists message calls renames,
              saveCalls World s' = saveCalls World s ++ calls
              /\ (calls = []
                  \/ exists call, calls = [call]
                                  /\ call_options call = optionsOf user (dialog World s))
              /\ storeCalls World s' = storeCalls World s ++ renames
              /\ (renames = [] \/ renames = renameCalls projectName (dialog World s))
              /\ success (dialog World s') = success (dialog World s)
              /\ error (dialog World s')
                 = Some (LineLayerComponent.or_str (Some message) saveFallback)
              /\ saving (dialog World s') = false
              /\ timers World s' = timers World s)).
Proof.
  unfold handleSave. unfold bind at 1. cbn [get].
  unfold bind at 1. cbn [setSaving with_dialog].
  unfold bind at 1. cbn [setError with_dialog dialog nodes heap world storeCalls
                           saveCalls timers editingName previewDataUrl saving error
                           success description visibility].
  unfold try_catch.
  set (d := dialog World s).
  set (s1 := mkSession World _ _ _ _ _ _ _).
  (* The preview. *)
  assert (Hprev :
    (exists e s2, (if truthy_str (previewDataUrl d) then ret (previewDataUrl d)
                   else
                     (preview <- exportPng World toDataURL stage ;;
                      if negb (truthy_str preview)
                      then throw (mkError "Failed to generate preview image")
                      else setPreviewDataUrl World preview ;;; ret preview)%jsm) s1
                  = (Throws e, s2)
                  /\ dialog World s2 = dialog World s1
                  /\ heap World s2 = heap World s1 /\ world World s2 = world World s1
                  /\ storeCalls World s2 = storeCalls World s1
                  /\ saveCalls World s2 = saveCalls World s1
                  /\ timers World s2 = timers World s1)
    \/ (exists p s2, (if truthy_str (previewDataUrl d) then ret (previewDataUrl d)
                      else
                        (preview <- exportPng World toDataURL stage ;;
                         if negb (truthy_str preview)
                         then throw (mkError "Failed to generate preview image")
                         else setPreviewDataUrl World preview ;;; ret preview)%jsm) s1
                     = (Returns p, s2)
                     /\ (editingName (dialog World s2), saving (dialog World s2),
                         error (dialog World s2), success (dialog World s2))
                        = (editingName d, true, None, success d)
                     /\ heap World s2 = heap World s1 /\ world World s2 = world World s1
                     /\ storeCalls World s2 = storeCalls World s1
                     /\ saveCalls World s2 = saveCalls World s1
                     /\ timers World s2 = timers World s1)).
  { destruct (truthy_str (previewDataUrl d)).
    - right. eexists _, _. split; [reflexivity|]. by repeat split.
    - unfold bind, exportPng. cbn [dialog nodes heap world storeCalls saveCalls timers].
      destruct (truthy_str (Exporter.exportPngAsDataUrl toDataURL (Some stage)
                              (nodes World s1)).1); cbn [negb].
      + right. eexists _, _. split; [reflexivity|]. by repeat split.
      + left. eexists _, _. split; [reflexivity|]. by repeat split. }
  destruct Hprev as [(e & s2 & Hp & Hd & Hh & Hw & Hst & Hsv & Ht)
                    |(p & s2 & Hp & Hd & Hh & Hw & Hst & Hsv & Ht)].
  { rewrite (bind_throws _ _ _ _ _ Hp). destruct e as [m]. eexists. split; [reflexivity|].
    cbn. rewrite Hd. cbn. split; [done|]. right. exists m, [], [].
    rewrite Hst, Hsv, Ht, !app_nil_r. repeat split; auto. }
  rewrite (bind_run _ _ _ _ _ Hp). injection Hd as Hd1 Hd2 Hd3 Hd4.
  (* The serialized state. *)
  unfold bind at 1. unfold serialized at 1.
  destruct (getSerializedState (heap World s2)) as [[project|[m]] h3].
  2: { eexists. split; [reflexivity|]. cbn. rewrite Hd1, Hd4. split; [done|].
       right. exists m, [], []. rewrite Hst, Hsv, Ht, !app_nil_r. repeat split; auto. }
  (* The rename. *)
  set (s3 := mkSession World (dialog World s2) (nodes World s2) h3 (world World s2)
                       (storeCalls World s2) (saveCalls World s2) (timers World s2)).
  assert (Hren : exists s4,
    (if negb (String.eqb (Publish.trim (editingName d)) projectName)
     then (store World (SetProjectName (Publish.trim (editingName d))) ;;;
           assignName World project (Publish.trim (editingName d)))%jsm
     else ret tt) s3 = (Returns tt, s4)
    /\ dialog World s4 = dialog World s3 /\ world World s4 = world World s3
    /\ storeCalls World s4 = storeCalls World s3 ++ renameCalls projectName d
    /\ saveCalls World s4 = saveCalls World s3
    /\ timers World s4 = timers World s3).
  { unfold renameCalls. destruct (negb _).
    - eexists. split; [reflexivity|]. by repeat split.
    - eexists. split; [reflexivity|]. cbn. rewrite app_nil_r. by repeat split. }
  destruct Hren as (s4 & Hr & Hd' & Hw' & Hst' & Hsv' & Ht').
  rewrite (bind_run _ _ _ _ _ Hr).
  (* The save. *)
  unfold bind at 1. unfold save at 1. fold (finalVisibility user d).
  fold (optionsOf user d).
  destruct (saveProjectToSupabase project (default "" p)
              (if truthy_str designId then designId else None) (optionsOf user d)
              (heap World s4, world World s4)) as [[id|[m]] [h5 w5]].
  - eexists. split; [reflexivity|]. cbn. rewrite Hd', Hst', Hsv', Ht'. cbn.
    rewrite Hd1, Hst, Hsv, Ht. cbn. split; [done|]. left. eexists id, _.
    split; [reflexivity|]. rewrite <- !app_assoc. by repeat split.
  - eexists. split; [reflexivity|]. cbn. rewrite Hd', Hst', Hsv', Ht'. cbn.
    rewrite Hd1, Hd4, Hst, Hsv, Ht. cbn. split; [done|]. right.
    eexists m, [_], (renameCalls projectName d).
    split; [reflexivity|]. split; [right; by eexists|]. by repeat split; auto.
Qed.


(** X26. A user whose email address is not confirmed never saves a
    public design: whatever visibility is chosen in the dialog, the one
    call of [saveProjectToSupabase] that [handleSave] makes (it never
    makes more than one) asks for the visibility "private", and passes
    the description trimmed, as [null] when it is blank. *)
Theorem handleSave_unconfirmed_saves_private
    (user : option User) (stageRef : option Exporter.KNode)
    (projectName : string) (designId : option string) (s : Sess) :
  unconfirmed user ->
  let calls := newSaveCalls World (run user stageRef projectName designId) s in
  (length calls <= 1)%nat
  /\ Forall (fun call =>
               opt_visibility (call_options call) = private
               /\ opt_description (call_options call)
                  = if String.eqb (Publish.trim (description (dialog World s))) ""
                    then None
                    else Some (Publish.trim (description (dialog World s))))
            calls.
Proof.
  intros (u & -> & Hu) calls. subst calls. unfold newSaveCalls.
  destruct stageRef as [stage|].
  2: { cbn. rewrite drop_all. split; [cbn; lia|constructor]. }
  destruct (handleSave_cases (Some u) stage projectName designId s)
    as (s' & Hrun & _ & [(id & call & Hs & Ho & _)
                        |(m & calls & rn & Hs & Hc & _)]);
    rewrite Hrun; cbn [snd]; rewrite Hs, drop_app_length.
  - split; [cbn; lia|]. constructor; [|done]. rewrite Ho. cbn. by rewrite Hu.
  - destruct Hc as [->|(call & -> & Ho)]; [split; [cbn; lia|constructor]|].
    split; [cbn; lia|]. constructor; [|done]. rewrite Ho. cbn. by rewrite Hu.
Qed.

(** X27. [handleSave] never throws, and it always tells the user how it
    ended. Either the design was saved: the store was told the new name
    if the trimmed name differs from the project name, then the design
    identifier the save returned, then that the project is saved; the
    dialog shows success with no error and one timer is pending that
    closes it. Or it failed: the dialog shows an error message that is
    never empty, is no longer saving, the store was told neither a
    design identifier nor that the project is saved, and no timer was
    added. *)
Theorem handleSave_reports_its_outcome
    (user : option User) (stageRef : option Exporter.KNode)
    (projectName : string) (designId : option string) (s : Sess) :
  exists s',
    run user stageRef projectName designId s = (Returns tt, s')
    /\ ((exists id,
           newStoreCalls World (run user stageRef projectName designId) s
           = renameCalls projectName (dialog World s) ++ [SetDesignId id; MarkAsSaved]
           /\ success (dialog World s') = true
           /\ error (dialog World s') = None
           /\ timers World s' = timers World s ++ [SuccessAndClose 1000])
        \/ (exists msg,
              error (dialog World s') = Some msg /\ msg <> ""
              /\ (stageRef <> None -> saving (dialog World s') = false)
              /\ Forall (fun c => exists n, c = SetProjectName n)
                        (newStoreCalls World (run user stageRef projectName designId) s)
              /\ success (dialog World s') = success (dialog World s)
              /\ timers World s' = timers World s)).
Proof.
  unfold newStoreCalls. destruct stageRef as [stage|].
  2: { unfold handleSave, bind. cbn [get setError with_dialog].
       eexists. split; [reflexivity|]. right. eexists. cbn. rewrite drop_all.
       by repeat split. }
  destruct (handleSave_cases user stage projectName designId s)
    as (s' & Hrun & _ & [(id & call & _ & _ & Hst & Hsu & He & _ & Ht)
                        |(m & calls & rn & _ & _ & Hst & Hrn & Hsu & He & Hsv & Ht)]);
    exists s'; rewrite Hrun; cbn [snd]; (split; [done|]); rewrite Hst, drop_app_length.
  - left. by exists id.
  - right. eexists. split; [exact He|]. split.
    { apply or_str_nonempty. unfold saveFallback. done. }
    split; [done|]. split; [|done].
    destruct Hrn as [->| ->]; [done|]. unfold renameCalls.
    destruct (negb _); [|done]. constructor; [by eexists|done].
Qed.

End SaveDialogTheorems.

Section SaveDialogExamples.
Import JsM SaveDialog.

(** X26 at a dialog set to "public", for a user without a confirmed
    email address: the save is asked to be private. *)
Lemma handleSave_unconfirmed_saves_private_witness :
  let user := Some (mkUser (Some "a@b.c") None) in
  let s := mkSession unit
             (mkDialog "My wrap" (Some "data:image/png;base64,AAAA") false None false
                       "  " public)
             (fun _ => true) ∅ tt [] [] [] in
  let run := handleSave unit (fun _ _ _ _ => ret "d1") Samples.sampleToDataURL
                        (ret 1%positive) user (Some Samples.sampleStage) "My wrap" None in
  List.map call_options (newSaveCalls unit run s) = [mkSaveOptions None private].
Proof.
  intros user s run.
  destruct (handleSave_unconfirmed_saves_private unit (fun _ _ _ _ => ret "d1")
              Samples.sampleToDataURL (ret 1%positive) user (Some Samples.sampleStage)
              "My wrap" None s) as [_ H].
  { eexists. split; reflexivity. }
  reflexivity.
Defined.

End SaveDialogExamples.

(* ===================================================================== *)
(** * Masking a generated texture *)
(* ===================================================================== *)

Section ApplyMaskTheorems.
Import JsM Canvas MaskGenerated.

(** X28. With a template loaded, a context available and the generated
    image loading, [applyMask] resolves with the PNG of a canvas on which
    every pixel of the generated image is scaled by the template's alpha:
    it is fully transparent wherever the template is fully transparent
    and it is the generated pixel itself wherever the template is fully
    opaque; the alpha of every pixel of the canvas is the generated
    alpha times the template alpha over 255. Without a template the URL
    is returned as it is, unmasked. *)
Theorem applyMask_keeps_inside_clears_outside
    (template generated : Raster) (loadImage : string -> option Raster)
    (toDataURL : Raster -> string) (imageUrl : string) :
  loadImage imageUrl = Some generated ->
  let canvas := maskedCanvas template generated in
  applyMask (Some template) true loadImage toDataURL imageUrl = Returns (toDataURL canvas)
  /\ applyMask None true loadImage toDataURL imageUrl = Returns imageUrl
  /\ (forall p, inExtent p = true ->
        alpha (canvas p) = (alpha (generated p) * alpha (template p) / 255)%Z
        /\ (alpha (template p) = 0%Z -> canvas p = transparent)
        /\ (alpha (template p) = 255%Z -> canvas p = generated p))
  /\ (forall p, inExtent p = false -> canvas p = transparent).
Proof.
  intros Hload canvas. unfold applyMask. rewrite Hload. cbn [negb].
  split; [done|]. split; [done|]. subst canvas. unfold maskedCanvas, drawImage. split.
  - intros p Hp. rewrite Hp. unfold blend, blank, transparent; cbn.
    rewrite !Z.add_0_r. split; [done|]. split.
    + intros ->. by rewrite !Z.mul_0_r.
    + intros ->. rewrite !Z.div_mul by done. by destruct (generated p).
  - intros p Hp. by rewrite Hp.
Qed.

End ApplyMaskTheorems.

Section ApplyMaskExamples.
Import JsM Canvas MaskGenerated.

(** X28 at the template that is opaque on the left half, for a generated
    image that is red everywhere: red at (10, 10), nothing at
    (600, 10). *)
Lemma applyMask_keeps_inside_clears_outside_witness :
  let load : string -> option Raster := fun _ => Some (fun _ => Samples.red) in
  let canvas := maskedCanvas Samples.halfTemplate (fun _ => Samples.red) in
  canvas (10, 10)%Z = Samples.red /\ canvas (600, 10)%Z = transparent.
Proof.
  intros load canvas.
  destruct (applyMask_keeps_inside_clears_outside Samples.halfTemplate
              (fun _ => Samples.red) load (fun _ => "png") "url" eq_refl)
    as (_ & _ & H & _).
  split.
  - by apply (H (10, 10)%Z).
  - by apply (H (600, 10)%Z).
Defined.

End ApplyMaskExamples.

(* ===================================================================== *)
(** * The 3D viewer: once the engine is ready *)
(* ===================================================================== *)

Section GodotTheorems.
Import JsonValue GodotViewer.

Variable mounted : bool.
Variable toNumber : Json -> JsNum.num.
Variable Math_round : JsNum.num -> JsNum.num.

Local Abbreviation handleM := (handle mounted toNumber Math_round).
Local Abbreviation receiveM := (receive mounted toNumber Math_round).

(** Once the ready flag is set, an event changes neither the flag, nor
    the progress, nor the stage, nor the number of ready timers. *)
Lemma handle_after_ready (e : Event) (v : Viewer) :
  godotReadyRef v = true ->
  godotReadyRef (handleM e v) = true
  /\ loadingProgress (handleM e v) = loadingProgress v
  /\ loadingStage (handleM e v) = loadingStage v
  /\ readyTimers (handleM e v) = readyTimers v.
Proof.
  intros Hr. destruct e as [e|random progress]; cbn [handle];
    [|unfold tick; by rewrite Hr].
  unfold handleMessage.
  destruct (mounted && negb (fromIframe e)); [done|].
  destruct (data e) as [| | | | |fields]; try done.
  destruct (negb (truthy (field "type" fields))); [done|].
  destruct (field "type" fields) as [[| | |type| |]|]; try done.
  destruct (String.eqb type "godot_ready").
  { unfold onReady. by rewrite Hr. }
  destruct (String.eqb type "godot_progress").
  { unfold onProgress. destruct (field "progress" fields); [|done]. by rewrite Hr. }
  destruct (String.eqb type "car_loaded").
  { unfold onCarLoaded, readyTimers; cbn. rewrite List.filter_app; cbn.
    by rewrite app_nil_r. }
  destruct (String.eqb type "godot_error"); done.
Qed.

Lemma receive_after_ready (events : list Event) :
  forall v, godotReadyRef v = true ->
  godotReadyRef (receiveM events v) = true
  /\ loadingProgress (receiveM events v) = loadingProgress v
  /\ loadingStage (receiveM events v) = loadingStage v
  /\ readyTimers (receiveM events v) = readyTimers v.
Proof.
  induction events as [|e events IH]; intros v Hr; [done|].
  cbn [receive fold_left]. fold (receiveM events (handleM e v)).
  destruct (handle_after_ready e v Hr) as (H1 & H2 & H3 & H4).
  destruct (IH _ H1) as (I1 & I2 & I3 & I4).
  by rewrite I2, I3, I4, H2, H3, H4.
Qed.

(** X29. The engine's "ready" message is final. Once the viewer, not yet
    ready, has received [godot_ready] from its iframe, no later sequence
    of messages and of runs of the simulated-progress interval, whatever
    the messages hold and wherever they come from, moves the progress
    away from 100 or the stage away from "ready", and no repeated
    [godot_ready] schedules a second transition: exactly one "become
    ready" timer has been added. *)
Theorem godot_ready_is_final (events : list Event) (v : Viewer) :
  godotReadyRef v = false ->
  let v' := receiveM (Message readyMessage :: events) v in
  godotReadyRef v' = true
  /\ loadingProgress v' = num_100
  /\ loadingStage v' = stage_ready
  /\ readyTimers v' = S (readyTimers v).
Proof.
  intros Hr v'. subst v'. cbn [receive fold_left].
  set (v1 := handleM (Message readyMessage) v).
  assert (H1 : v1 = add_timer (BecomeReady 200)
                      (set_stage stage_ready
                         (set_progress num_100
                            (mkViewer true (loading v) (loadingProgress v)
                                      (loadingStage v) (error v) (carLoaded v)
                                      (timers v))))).
  { subst v1. unfold handle, handleMessage, readyMessage; cbn.
    rewrite andb_false_r. unfold onReady. by rewrite Hr. }
  destruct (receive_after_ready events v1) as (I1 & I2 & I3 & I4).
  { by rewrite H1. }
  fold (receiveM events v1). rewrite I1, I2, I3, I4, H1. repeat split.
  unfold readyTimers; cbn. rewrite List.filter_app, length_app; cbn. lia.
Qed.

End GodotTheorems.

Section GodotExamples.
Import JsonValue GodotViewer.

(** X29 at a fresh viewer that receives "ready", then a late progress
    report of 50%, a run of the interval and a second "ready". *)
Lemma godot_ready_is_final_witness :
  let fresh := mkViewer false true 0%float stage_loading None false [] in
  let late := Message (mkMessageEvent true
                (JObj [("type", JStr "godot_progress"); ("progress", JNum 0.5%float)])) in
  let v' := receive true (fun _ => JsNum.nan) (fun x => x)
                    [Message readyMessage; late; Tick 0.5%float 10%float;
                     Message readyMessage] fresh in
  loadingProgress v' = 100%float /\ timers v' = [BecomeReady 200].
Proof.
  intros fresh late v'.
  destruct (godot_ready_is_final true (fun _ => JsNum.nan) (fun x => x)
              [late; Tick 0.5%float 10%float; Message readyMessage] fresh eq_refl) as (_ & H & _).
  split; [exact H|reflexivity].
Defined.

End GodotExamples.

